(** * ts-terraform provider: schema translation, value codec and façade

    A shallow embedding of [packages/@ts-terraform/provider/src/provider.ts]
    and [cty-types.ts], with the JavaScript built-ins they rely on
    ([JSON], [TextEncoder], [TextDecoder]) modelled next to them.

    Conventions of the embedding.
    - A JavaScript object used as a record or dictionary is an ordered
      association list of its own properties ([obj]); assignment [o[k] = v]
      is [obj_set], which overwrites in place or appends.  Properties
      inherited from a prototype are not modelled, and keys are kept in
      insertion order.  This is what JavaScript does on every name that is
      neither a property of [Object.prototype] ([inherited]) nor a string
      of digits ([integer_like]); the statements that depend on a read, a
      write or an order of keys at other names carry the restriction as a
      hypothesis ([plain_key], [settable]).
    - JavaScript strings are modelled by the bytes of their UTF-8 encoding
      (the Rocq type [string]), so [TextEncoder] and [TextDecoder] act on
      well-formed text only.  Numbers are the integers of magnitude at most
      2^53 - 1; what leaves this fragment (fractions, exponents, larger
      integers, lone surrogates) is reported as [OutsideModel].
    - A thrown exception is the [Err] branch of [Result]; an asynchronous
      method is a [Prog], a tree of wire calls.
    - Modules that are not among the sources ([type-system], [errors], the
      generated client, the [msgpack] package) appear as data types modelled
      from the specification or as interfaces. *)

From Stdlib Require Import String Ascii List ZArith NArith Lia Bool Arith.
From Stdlib Require Import Decimal DecimalString DecimalPos DecimalN DecimalZ DecimalFacts.
From Stdlib.Strings Require Import Byte.
Import ListNotations.

#[local] Set Warnings "-register-all".

Local Open Scope list_scope.
Local Open Scope string_scope.

(** ** JavaScript values *)

(** Host values as far as the provider handles them. *)
Inductive value : Type :=
| VUndefined
| VNull
| VBool (b : bool)
| VNum (n : Z)
| VStr (s : string)
| VArr (items : list value)
| VObj (props : list (string * value)).

(** A field typed [T | null | undefined] whose two absent states are
    observable by the caller. *)
Inductive nullable (A : Type) : Type :=
| Undefined
| Null
| Present (a : A).
Arguments Undefined {A}.
Arguments Null {A}.
Arguments Present {A} a.

(** Own properties of a JavaScript object, in insertion order. *)
Definition obj (A : Type) : Type := list (string * A).

Fixpoint obj_get {A} (k : string) (o : obj A) : option A :=
  match o with
  | [] => None
  | (k', v) :: o' => if (k' =? k)%string then Some v else obj_get k o'
  end.

(** [o[k] = v] *)
Fixpoint obj_set {A} (k : string) (v : A) (o : obj A) : obj A :=
  match o with
  | [] => [(k, v)]
  | (k', v') :: o' =>
      if (k' =? k)%string then (k, v) :: o' else (k', v') :: obj_set k v o'
  end.

(** [Object.keys(o)] *)
Definition obj_keys {A} (o : obj A) : list string := map fst o.

(** Pairwise distinct names. *)
Fixpoint distinct (l : list string) : bool :=
  match l with
  | [] => true
  | x :: l' => negb (existsb (String.eqb x) l') && distinct l'
  end.

(** The string-named properties of [Object.prototype], which every object
    literal inherits: a read [o[k]] of one of them that [o] does not own
    yields the inherited value, not [undefined]. *)
Definition inherited (k : string) : bool :=
  existsb (String.eqb k)
    ["constructor"; "__defineGetter__"; "__defineSetter__"; "hasOwnProperty";
     "__lookupGetter__"; "__lookupSetter__"; "isPrototypeOf"; "propertyIsEnumerable";
     "toString"; "valueOf"; "__proto__"; "toLocaleString"].

(** An assignment [o[k] = v] on an object literal defines the own property
    [k], except for ['__proto__'], which sets the prototype of [o] and
    defines nothing. *)
Definition settable (k : string) : bool := negb (k =? "__proto__")%string.

Definition decimal_digit (c : ascii) : bool :=
  ((48 <=? nat_of_ascii c) && (nat_of_ascii c <=? 57))%nat.

(** A non-empty string of decimal digits.  The keys that are array indices,
    which [Object.keys] lists before the others whatever the insertion
    order, all have this form. *)
Definition integer_like (k : string) : bool :=
  negb (k =? EmptyString)%string
  && (fix digits (s : string) : bool :=
        match s with
        | EmptyString => true
        | String c s' => decimal_digit c && digits s'
        end) k.

(** The names on which the association list is the JavaScript object, in
    what a read gives, in what an assignment defines and in the order of
    the keys. *)
Definition plain_key (k : string) : bool := negb (inherited k) && negb (integer_like k).

(** [!!v] *)
Definition truthy (v : value) : bool :=
  match v with
  | VUndefined | VNull => false
  | VBool b => b
  | VNum n => negb (n =? 0)%Z
  | VStr s => negb (s =? EmptyString)%string
  | VArr _ | VObj _ => true
  end.

(** [a ?? b] *)
Definition nullish_or (a b : value) : value :=
  match a with
  | VUndefined | VNull => b
  | _ => a
  end.

(** [v[k]] on an object value; a missing own property reads as [undefined]. *)
Definition prop (v : obj value) (k : string) : value :=
  match obj_get k v with
  | Some x => x
  | None => VUndefined
  end.

(** ** Wire diagnostics and exceptions *)

Inductive Severity := SEV_INVALID | SEV_ERROR | SEV_WARNING.

Inductive AttributePathStep :=
| AttributeName (name : string)
| ElementKeyString (key : string)
| ElementKeyInt (key : Z).

Definition AttributePath := list AttributePathStep.

Record Diagnostic := {
  severity : Severity;
  summary : string;
  detail : string;
  attribute : option AttributePath
}.

(** What the code can throw. *)
Inductive exn : Type :=
| Error (message : string)
| TypeError (message : string)
| SyntaxError
| UnknownTypeError (schema : value)
| DiagnosticError (diagnostics : list Diagnostic)
| ValidationError (path : list string)
| OutsideModel.

Inductive Result (A : Type) : Type :=
| Ok (a : A)
| Err (e : exn).
Arguments Ok {A} a.
Arguments Err {A} e.

Definition bind {A B} (r : Result A) (f : A -> Result B) : Result B :=
  match r with
  | Ok a => f a
  | Err e => Err e
  end.

Declare Scope result_scope.
Delimit Scope result_scope with result.
Notation "x <- r ;; k" := (bind r (fun x => k))
  (at level 61, r at next level, right associativity) : result_scope.
Notation "' p <- r ;; k" := (bind r (fun p => k))
  (at level 61, p pattern, r at next level, right associativity) : result_scope.
Local Open Scope result_scope.

Definition Buffer := list byte.

(** ** TextEncoder and TextDecoder *)

Module Text.

(** [encoder.encode(input = '')] *)
Definition encode (input : option string) : Buffer :=
  match input with
  | Some s => list_byte_of_string s
  | None => []
  end.

Definition strip_bom (b : Buffer) : Buffer :=
  match b with
  | xef :: xbb :: xbf :: b' => b'
  | _ => b
  end.

(** [decoder.decode(input)]: an omitted argument decodes to the empty
    string, [null] is rejected, and a leading byte-order mark is dropped.
    The bytes are taken to be well-formed UTF-8. *)
Definition decode (input : nullable Buffer) : Result string :=
  match input with
  | Undefined => Ok EmptyString
  | Null => Err (TypeError "The input argument must be an instance of ArrayBuffer or ArrayBufferView")
  | Present b => Ok (string_of_list_byte (strip_bom b))
  end.

End Text.

(** ** JSON *)

Module JSON.

Definition dquote : ascii := "034"%char.
Definition backslash : ascii := "092"%char.

Definition hex_digit (n : N) : ascii :=
  if (n <? 10)%N then ascii_of_N (48 + n)%N else ascii_of_N (87 + n)%N.

(** One character of [QuoteJSONString]. *)
Definition quote_char (c : ascii) : string :=
  let n := N_of_ascii c in
  if (n =? 8)%N then String backslash "b"
  else if (n =? 9)%N then String backslash "t"
  else if (n =? 10)%N then String backslash "n"
  else if (n =? 12)%N then String backslash "f"
  else if (n =? 13)%N then String backslash "r"
  else if (n =? 34)%N then String backslash (String dquote EmptyString)
  else if (n =? 92)%N then String backslash (String backslash EmptyString)
  else if (n <? 32)%N then
    String backslash (String "u" (String "0" (String "0"
      (String (hex_digit (n / 16)%N) (String (hex_digit (n mod 16)%N) EmptyString)))))
  else String c EmptyString.

Fixpoint quote_chars (s : string) : string :=
  match s with
  | EmptyString => EmptyString
  | String c r => quote_char c ++ quote_chars r
  end.

Definition quote (s : string) : string :=
  String dquote (quote_chars s ++ String dquote EmptyString).

(** [Number::toString] on an integer. *)
Definition number_to_string (n : Z) : string :=
  NilZero.string_of_int (Z.to_int n).

Fixpoint join (sep : string) (parts : list string) : string :=
  match parts with
  | [] => EmptyString
  | [p] => p
  | p :: ps => p ++ sep ++ join sep ps
  end.

(** [SerializeJSONProperty] for a value that is not [undefined]; inside an
    array [undefined] is written [null], inside an object a property whose
    value is [undefined] is left out. *)
Fixpoint serialize (v : value) : string :=
  match v with
  | VUndefined | VNull => "null"
  | VBool true => "true"
  | VBool false => "false"
  | VNum n => number_to_string n
  | VStr s => quote s
  | VArr items => "[" ++ join "," (map serialize items) ++ "]"
  | VObj props =>
      "{" ++ join ","
        ((fix members (l : list (string * value)) : list string :=
            match l with
            | [] => []
            | (k, VUndefined) :: l' => members l'
            | (k, x) :: l' => (quote k ++ ":" ++ serialize x) :: members l'
            end) props) ++ "}"
  end.

(** [JSON.stringify(v)]; the result is [undefined] for [undefined]. *)
Definition stringify (v : value) : option string :=
  match v with
  | VUndefined => None
  | _ => Some (serialize v)
  end.

(** *** Parsing *)

Definition is_ws (c : ascii) : bool :=
  let n := N_of_ascii c in
  ((n =? 32) || (n =? 9) || (n =? 10) || (n =? 13))%N.

Fixpoint skip_ws (s : string) : string :=
  match s with
  | String c r => if is_ws c then skip_ws r else s
  | EmptyString => EmptyString
  end.

Definition hex_value (c : ascii) : option N :=
  let n := N_of_ascii c in
  if ((48 <=? n) && (n <=? 57))%N then Some (n - 48)%N
  else if ((97 <=? n) && (n <=? 102))%N then Some (n - 87)%N
  else if ((65 <=? n) && (n <=? 70))%N then Some (n - 55)%N
  else None.

Definition hex4 (a b c d : ascii) : option N :=
  match hex_value a, hex_value b, hex_value c, hex_value d with
  | Some x, Some y, Some z, Some w => Some (((x * 16 + y) * 16 + z) * 16 + w)%N
  | _, _, _, _ => None
  end.

(** UTF-8 encoding of a code point. *)
Definition utf8 (cp : N) : string :=
  let cont (x : N) := ascii_of_N (128 + x mod 64)%N in
  if (cp <? 128)%N then String (ascii_of_N cp) EmptyString
  else if (cp <? 2048)%N then
    String (ascii_of_N (192 + cp / 64)%N) (String (cont cp) EmptyString)
  else if (cp <? 65536)%N then
    String (ascii_of_N (224 + cp / 4096)%N)
      (String (cont (cp / 64)%N) (String (cont cp) EmptyString))
  else
    String (ascii_of_N (240 + cp / 262144)%N)
      (String (cont (cp / 4096)%N) (String (cont (cp / 64)%N) (String (cont cp) EmptyString))).

Definition is_high_surrogate (u : N) : bool := ((55296 <=? u) && (u <=? 56319))%N.
Definition is_low_surrogate (u : N) : bool := ((56320 <=? u) && (u <=? 57343))%N.

Definition simple_escape (e : ascii) : option ascii :=
  let n := N_of_ascii e in
  if (n =? 34)%N then Some dquote
  else if (n =? 92)%N then Some backslash
  else if (n =? 47)%N then Some "/"%char
  else if (n =? 98)%N then Some "008"%char
  else if (n =? 102)%N then Some "012"%char
  else if (n =? 110)%N then Some "010"%char
  else if (n =? 114)%N then Some "013"%char
  else if (n =? 116)%N then Some "009"%char
  else None.

(** The characters of a string literal after its opening quote, up to and
    including the closing quote. *)
Fixpoint parse_chars (s : string) : Result (string * string) :=
  match s with
  | EmptyString => Err SyntaxError
  | String c r =>
      if (c =? dquote)%char then Ok (EmptyString, r)
      else if (c =? backslash)%char then
        match r with
        | EmptyString => Err SyntaxError
        | String e r1 =>
            match simple_escape e with
            | Some x => '(str, rest) <- parse_chars r1 ;; Ok (String x str, rest)
            | None =>
                if (e =? "u")%char then
                  match r1 with
                  | String h1 (String h2 (String h3 (String h4 r2))) =>
                      match hex4 h1 h2 h3 h4 with
                      | None => Err SyntaxError
                      | Some u =>
                          if is_high_surrogate u then
                            match r2 with
                            | String b1 (String b2 (String l1 (String l2 (String l3 (String l4 r3))))) =>
                                match (if ((b1 =? backslash) && (b2 =? "u"))%char
                                       then hex4 l1 l2 l3 l4 else None) with
                                | Some w =>
                                    if is_low_surrogate w then
                                      '(str, rest) <- parse_chars r3 ;;
                                      Ok (utf8 (65536 + (u - 55296) * 1024 + (w - 56320))%N ++ str, rest)
                                    else Err OutsideModel
                                | None => Err OutsideModel
                                end
                            | _ => Err OutsideModel
                            end
                          else if is_low_surrogate u then Err OutsideModel
                          else '(str, rest) <- parse_chars r2 ;; Ok (utf8 u ++ str, rest)
                      end
                  | _ => Err SyntaxError
                  end
                else Err SyntaxError
            end
        end
      else if (N_of_ascii c <? 32)%N then Err SyntaxError
      else '(str, rest) <- parse_chars r ;; Ok (String c str, rest)
  end.

Definition is_digit (c : ascii) : bool :=
  let n := N_of_ascii c in ((48 <=? n) && (n <=? 57))%N.

(** The longest run of decimal digits at the head of [s]. *)
Fixpoint scan_digits (s : string) : uint * string :=
  match s with
  | EmptyString => (Nil, EmptyString)
  | String c r =>
      let (d, rest) := scan_digits r in
      match uint_of_char c (Some d) with
      | Some d' => if is_digit c then (d', rest) else (Nil, s)
      | None => (Nil, s)
      end
  end.

Definition MAX_SAFE_INTEGER : Z := 9007199254740991.

(** The integer part of a numeral: a lone zero, or digits not led by zero. *)
Definition parse_int (s : string) : Result (Z * string) :=
  match s with
  | EmptyString => Err SyntaxError
  | String c r =>
      if (c =? "0")%char then Ok (0%Z, r)
      else if is_digit c then
        let (d, rest) := scan_digits s in Ok (Z.of_uint d, rest)
      else Err SyntaxError
  end.

Definition has_digits (s : string) : bool :=
  match fst (scan_digits s) with
  | Nil => false
  | _ => true
  end.

(** What follows [e] or [E]: an optional sign and at least one digit. *)
Definition exponent_ok (s : string) : bool :=
  match s with
  | String c r => if ((c =? "+") || (c =? "-"))%char then has_digits r else has_digits s
  | EmptyString => false
  end.

(** A fraction or an exponent after the integer part: a malformed one is a
    syntax error, a well-formed one denotes a floating-point value. *)
Definition fractional (c : ascii) (r : string) : exn :=
  if (c =? ".")%char then
    if has_digits r then
      match snd (scan_digits r) with
      | String e r' =>
          if ((e =? "e") || (e =? "E"))%char
          then (if exponent_ok r' then OutsideModel else SyntaxError)
          else OutsideModel
      | EmptyString => OutsideModel
      end
    else SyntaxError
  else if exponent_ok r then OutsideModel else SyntaxError.

(** A numeral.  Integers beyond the exactly representable range denote
    floating-point values as well. *)
Definition parse_number (s : string) : Result (value * string) :=
  '(n, rest) <-
    match s with
    | String c r =>
        if (c =? "-")%char
        then '(m, rest) <- parse_int r ;; Ok ((- m)%Z, rest)
        else parse_int s
    | EmptyString => Err SyntaxError
    end ;;
  match rest with
  | String c r =>
      if ((c =? ".") || (c =? "e") || (c =? "E"))%char then Err (fractional c r)
      else if (Z.abs n <=? MAX_SAFE_INTEGER)%Z then Ok (VNum n, rest)
      else Err OutsideModel
  | EmptyString =>
      if (Z.abs n <=? MAX_SAFE_INTEGER)%Z then Ok (VNum n, rest) else Err OutsideModel
  end.

Fixpoint expect (word : string) (v : value) (s : string) : Result (value * string) :=
  match word with
  | EmptyString => Ok (v, s)
  | String w word' =>
      match s with
      | String c r => if (c =? w)%char then expect word' v r else Err SyntaxError
      | EmptyString => Err SyntaxError
      end
  end.

(** Recursive descent; every call consumes input, so a budget of one unit
    per character is never exhausted (see [parse]). *)
Fixpoint parse_value (fuel : nat) (s : string) {struct fuel} : Result (value * string) :=
  match fuel with
  | O => Err OutsideModel
  | S fuel' =>
      match skip_ws s with
      | EmptyString => Err SyntaxError
      | String c r =>
          if (c =? "{")%char then
            match skip_ws r with
            | EmptyString => Err SyntaxError
            | String c' r' =>
                if (c' =? "}")%char then Ok (VObj [], r')
                else parse_members fuel' [] r
            end
          else if (c =? "[")%char then
            match skip_ws r with
            | EmptyString => Err SyntaxError
            | String c' r' =>
                if (c' =? "]")%char then Ok (VArr [], r')
                else '(items, rest) <- parse_elements fuel' r ;; Ok (VArr items, rest)
            end
          else if (c =? dquote)%char then
            '(str, rest) <- parse_chars r ;; Ok (VStr str, rest)
          else if (c =? "t")%char then expect "rue" (VBool true) r
          else if (c =? "f")%char then expect "alse" (VBool false) r
          else if (c =? "n")%char then expect "ull" VNull r
          else if ((c =? "-")%char || is_digit c) then parse_number (String c r)
          else Err SyntaxError
      end
  end

with parse_elements (fuel : nat) (s : string) {struct fuel} : Result (list value * string) :=
  match fuel with
  | O => Err OutsideModel
  | S fuel' =>
      '(v, r) <- parse_value fuel' s ;;
      match skip_ws r with
      | EmptyString => Err SyntaxError
      | String c r' =>
          if (c =? ",")%char then
            '(items, rest) <- parse_elements fuel' r' ;; Ok (v :: items, rest)
          else if (c =? "]")%char then Ok ([v], r')
          else Err SyntaxError
      end
  end

with parse_members (fuel : nat) (acc : obj value) (s : string) {struct fuel}
  : Result (value * string) :=
  match fuel with
  | O => Err OutsideModel
  | S fuel' =>
      match skip_ws s with
      | EmptyString => Err SyntaxError
      | String c r =>
          if (c =? dquote)%char then
            '(k, r1) <- parse_chars r ;;
            match skip_ws r1 with
            | EmptyString => Err SyntaxError
            | String c1 r2 =>
                if (c1 =? ":")%char then
                  '(v, r3) <- parse_value fuel' r2 ;;
                  match skip_ws r3 with
                  | EmptyString => Err SyntaxError
                  | String c3 r4 =>
                      if (c3 =? ",")%char then parse_members fuel' (obj_set k v acc) r4
                      else if (c3 =? "}")%char then Ok (VObj (obj_set k v acc), r4)
                      else Err SyntaxError
                  end
                else Err SyntaxError
            end
          else Err SyntaxError
      end
  end.

(** [JSON.parse(text)] *)
Definition parse (text : string) : Result value :=
  '(v, rest) <- parse_value (S (String.length text)) text ;;
  match skip_ws rest with
  | EmptyString => Ok v
  | String _ _ => Err SyntaxError
  end.

End JSON.


(** ** Schema type system *)

(** Modelled from the spec: the module [type-system] ([T], [SchemaType],
    [ObjectType], [keysOf]) is not among the sources.  Section 3 of the
    specification gives [SchemaType] as a tagged variant over Boolean,
    Number, String, Array, Map, Object (an ordered mapping from names to
    types) and Optional; [T] holds its constructors. *)
Inductive SchemaType : Type :=
| BooleanType
| NumberType
| StringType
| ArrayType (element : SchemaType)
| MapType (element : SchemaType)
| ObjectOf (properties : list (string * SchemaType))
| OptionalType (inner : SchemaType).

Definition ObjectProperties : Type := obj SchemaType.

Record ObjectType : Type := { properties : ObjectProperties }.

Definition as_type (o : ObjectType) : SchemaType := ObjectOf (properties o).
Coercion as_type : ObjectType >-> SchemaType.

Module T.
Definition boolean : SchemaType := BooleanType.
Definition number : SchemaType := NumberType.
Definition string : SchemaType := StringType.
Definition array (element : SchemaType) : SchemaType := ArrayType element.
Definition map (element : SchemaType) : SchemaType := MapType element.
Definition object (props : ObjectProperties) : ObjectType := {| properties := props |}.
Definition optional (inner : SchemaType) : SchemaType := OptionalType inner.
End T.

(** ** Wire schema messages ([tfplugin5.Schema]) *)

Module tfplugin5.

Inductive NestingMode := INVALID | SINGLE | LIST | SET | MAP | GROUP.

Record Attribute : Type := {
  name : option string;
  type : option Buffer;
  required : option bool;
  optional : option bool;
  computed : option bool
}.

Inductive Block : Type :=
| MkBlock (attributes : option (list Attribute)) (blockTypes : option (list NestedBlock))
with NestedBlock : Type :=
| MkNestedBlock (typeName : option string) (block : option Block)
    (nesting : option NestingMode) (minItems maxItems : option Z).

Definition attributes (b : Block) := let (a, _) := b in a.
Definition blockTypes (b : Block) := let (_, n) := b in n.
Definition typeName (n : NestedBlock) := let (t, _, _, _, _) := n in t.
Definition block (n : NestedBlock) := let (_, b, _, _, _) := n in b.
Definition nesting (n : NestedBlock) := let (_, _, m, _, _) := n in m.
Definition minItems (n : NestedBlock) := let (_, _, _, i, _) := n in i.
Definition maxItems (n : NestedBlock) := let (_, _, _, _, a) := n in a.

Record Schema : Type := {
  version : Z;
  schema_block : option Block
}.

End tfplugin5.
Import tfplugin5.

(** A boolean message field read as a condition: absent counts as false. *)
Definition flag (b : option bool) : bool :=
  match b with
  | Some true => true
  | _ => false
  end.

(** ** cty-types.ts *)

(** [Array.prototype.reduce] and [for ... of] with a body that may throw. *)
Fixpoint foldM {A B} (f : B -> A -> Result B) (l : list A) (acc : B) : Result B :=
  match l with
  | [] => Ok acc
  | x :: l' => acc' <- f acc x ;; foldM f l' acc'
  end.

Definition index_key (i : nat) : string := NilZero.string_of_uint (Nat.to_uint i).

(** The [switch (schema[0])] of [ctyToType]: [element] is
    [ctyToType(schema[1])] and [object] the result of the ['object'] case. *)
Definition by_tag (schema tag : value) (element object : Result SchemaType)
  : Result SchemaType :=
  match tag with
  | VStr t =>
      if (t =? "list")%string then e <- element ;; Ok (T.array e)
      else if (t =? "map")%string then e <- element ;; Ok (T.map e)
      else if (t =? "set")%string then e <- element ;; Ok (T.array e)
      else if (t =? "object")%string then object
      else Err (UnknownTypeError schema)
  | _ => Err (UnknownTypeError schema)
  end.

(** The ['object'] case: [keysOf(payload).reduce(...)] with [decode] the
    recursive call.  [keysOf], a helper of the missing module
    [type-system], is taken to be [Object.keys]: the property names of an
    object, the indices of an array or of a string, nothing for a number or
    a boolean. *)
Definition object_case (decode : value -> Result SchemaType) (payload : value)
  : Result SchemaType :=
  match payload with
  | VObj fields =>
      (fix reduce (l : list (string * value)) (types : ObjectProperties) :=
         match l with
         | [] => Ok (T.object types : SchemaType)
         | (key, d) :: l' => t <- decode d ;; reduce l' (obj_set key t types)
         end) fields []
  | VArr items =>
      (fix reduce (l : list value) (i : nat) (types : ObjectProperties) :=
         match l with
         | [] => Ok (T.object types : SchemaType)
         | d :: l' => t <- decode d ;; reduce l' (S i) (obj_set (index_key i) t types)
         end) items 0 []
  | VStr (String c _) => Err (UnknownTypeError (VStr (String c EmptyString)))
  | VStr EmptyString | VBool _ | VNum _ => Ok (T.object [] : SchemaType)
  | VUndefined | VNull => Err (TypeError "Cannot convert undefined or null to object")
  end.

(** [f(o[k])] for an own property [k] of [o], [absent] when there is none. *)
Definition with_prop {A} (f : value -> A) (absent : A) (k : string)
  : list (string * value) -> A :=
  fix find (l : list (string * value)) : A :=
    match l with
    | [] => absent
    | (k', v) :: l' => if (k' =? k)%string then f v else find l'
    end.

(** Reading index [0] of [undefined] or [null]. *)
Definition no_index : exn := TypeError "Cannot read properties of undefined".

(** The outer [switch (schema)] compares with the four atoms; everything
    else reaches [switch (schema[0])].  The first character of a string,
    and the missing index [0] of a number, a boolean or an empty array,
    match no tag.  An object is indexed by its properties ["0"] and ["1"]. *)
Fixpoint ctyToType (schema : value) : Result SchemaType :=
  match schema with
  | VStr s =>
      if (s =? "any")%string then Err (Error "unknown type")
      else if (s =? "bool")%string then Ok T.boolean
      else if (s =? "number")%string then Ok T.number
      else if (s =? "string")%string then Ok T.string
      else Err (UnknownTypeError schema)
  | VUndefined | VNull => Err no_index
  | VBool _ | VNum _ => Err (UnknownTypeError schema)
  | VArr [] => Err (UnknownTypeError schema)
  | VArr (tag :: rest) =>
      by_tag schema tag
        match rest with
        | payload :: _ => ctyToType payload
        | [] => Err no_index
        end
        match rest with
        | payload :: _ => object_case ctyToType payload
        | [] => object_case ctyToType VUndefined
        end
  | VObj props =>
      match obj_get "0" props with
      | None => Err (UnknownTypeError schema)
      | Some tag =>
          by_tag schema tag
            (with_prop ctyToType (Err no_index) "1" props)
            (with_prop (object_case ctyToType) (object_case ctyToType VUndefined) "1" props)
      end
  end.

Definition decodeCtyType (input : Buffer) : Result SchemaType :=
  text <- Text.decode (Present input) ;;
  typeMeta <- JSON.parse text ;;
  ctyToType typeMeta.

(** The [msgpack] package: an external dependency, taken as an interface. *)
Class Msgpack : Type := {
  pack : value -> Result Buffer;
  unpack : Buffer -> Result value
}.

Record IDynamicValue : Type := {
  dv_msgpack : nullable Buffer;
  dv_json : nullable Buffer
}.

Record IRawState : Type := {
  rs_json : nullable Buffer;
  rs_flatmap : option (obj string)
}.

Section Codec.
Context {msgpack : Msgpack}.

Definition toDynamic (v : value) : Result IDynamicValue :=
  packed <- pack v ;;
  Ok {| dv_msgpack := Present packed; dv_json := Undefined |}.

Definition fromDynamic (v : nullable IDynamicValue) : Result value :=
  match v with
  | Undefined => Ok VUndefined
  | Null => Ok VNull
  | Present dv =>
      match dv_msgpack dv with
      | Undefined => Ok VUndefined
      | Null => Ok VNull
      | Present packed => unpack packed
      end
  end.

End Codec.

Definition toRawState (v : value) : IRawState :=
  {| rs_json := Present (Text.encode (JSON.stringify v)); rs_flatmap := None |}.

Definition fromRawState (v : nullable IRawState) : Result value :=
  match v with
  | Undefined => Ok VUndefined
  | Null => Ok VNull
  | Present rs =>
      match rs_json rs with
      | Undefined => Ok VUndefined
      | Null => Ok VNull
      | Present bytes => text <- Text.decode (Present bytes) ;; JSON.parse text
      end
  end.

Definition optionalsToNulls (v : obj value) (schema : ObjectType) : obj value :=
  fold_left
    (fun (o : obj value) (key : string) => obj_set key (nullish_or (prop v key) VNull) o)
    (obj_keys (properties schema)) [].

Inductive Kind := ARGS | ATTRS.

(** [kind === Kind.ATTRS ? !attribute.required && !attribute.computed
                           : attribute.optional || attribute.computed] *)
Definition marks_optional (kind : Kind) (attribute : Attribute) : bool :=
  match kind with
  | ATTRS => negb (flag (required attribute)) && negb (flag (computed attribute))
  | ARGS => flag (optional attribute) || flag (computed attribute)
  end.

(** One round of the attribute loop of [blockToSchemaType]. *)
Definition attribute_step (kind : Kind) (attrs : ObjectProperties) (attribute : Attribute)
  : Result ObjectProperties :=
  match type attribute with
  | None => Err (Error "Unable to read attribute type")
  | Some ty =>
      match name attribute with
      | None => Err (Error "Unable to read attribute name")
      | Some n =>
          t <- decodeCtyType ty ;;
          let attrs := obj_set n t attrs in
          if marks_optional kind attribute
          then Ok (obj_set n (T.optional t) attrs)
          else Ok attrs
      end
  end.

(** The test that keeps a nested block non-optional. *)
Definition at_least_one (nestedBlock : NestedBlock) : bool :=
  match minItems nestedBlock with
  | Some m => (0 <? m)%Z && negb match nesting nestedBlock with Some GROUP => true | _ => false end
  | None => false
  end.

Definition max_one (nestedBlock : NestedBlock) : bool :=
  match maxItems nestedBlock with
  | Some m => (m =? 1)%Z
  | None => false
  end.

(** One round of the nested-block loop of [blockToSchemaType], with
    [translate] standing for [nestedBlockToSchemaType(nestedBlock, kind)]. *)
Definition nested_step (translate : NestedBlock -> Result SchemaType)
  (attrs : ObjectProperties) (nestedBlock : NestedBlock) : Result ObjectProperties :=
  match typeName nestedBlock with
  | None => Err (Error "Unable to read nested block name")
  | Some n =>
      if at_least_one nestedBlock
      then t <- translate nestedBlock ;; Ok (obj_set n t attrs)
      else t <- translate nestedBlock ;; Ok (obj_set n (T.optional t) attrs)
  end.

Fixpoint blockToSchemaType (b : Block) (kind : Kind) {struct b} : Result ObjectType :=
  match b with
  | MkBlock attributes blockTypes =>
      let schemaAttributes := match attributes with Some l => l | None => [] end in
      attrs <- foldM (attribute_step kind) schemaAttributes [] ;;
      attrs <-
        match kind with
        | ARGS =>
            match blockTypes with
            | None => Ok attrs
            | Some schemaBlocks =>
                foldM (nested_step (fun nestedBlock => nestedBlockToSchemaType nestedBlock kind))
                      schemaBlocks attrs
            end
        | ATTRS => Ok attrs
        end ;;
      Ok (T.object attrs)
  end

with nestedBlockToSchemaType (nestedBlock : NestedBlock) (kind : Kind) {struct nestedBlock}
  : Result SchemaType :=
  match nestedBlock with
  | MkNestedBlock _ None _ _ _ => Err (Error "Unable to read nested block schema")
  | MkNestedBlock _ (Some inner) mode _ _ =>
      innerSchema <- blockToSchemaType inner kind ;;
      match mode with
      | None | Some INVALID => Err (Error "Invalid nesting mode")
      | Some SINGLE => Ok (innerSchema : SchemaType)
      | Some LIST =>
          Ok (if max_one nestedBlock then (innerSchema : SchemaType) else T.array innerSchema)
      | Some SET =>
          Ok (if max_one nestedBlock then (innerSchema : SchemaType) else T.array innerSchema)
      | Some MAP => Ok (T.map innerSchema)
      | Some GROUP => Ok (innerSchema : SchemaType)
      end
  end.

Definition tfSchemaToSchemaType (schema : Schema) (kind : Kind) : Result ObjectType :=
  match schema_block schema with
  | None => Err (TypeError "Could not read schema")
  | Some b => blockToSchemaType b kind
  end.

Definition tfSchemasRecordToSchemaTypeRecord (schemas : obj Schema) (kind : Kind)
  : Result (obj ObjectType) :=
  foldM (fun (map : obj ObjectType) '(name, schema) =>
           t <- tfSchemaToSchemaType schema kind ;; Ok (obj_set name t map))
        schemas [].

(** ** Wire messages of the provider protocol

    Requests are the object literals the façade builds; responses carry the
    fields the façade reads. *)

Module GetProviderSchema.
Module Response.
Record t : Type := {
  provider : option Schema;
  resourceSchemas : obj Schema;
  dataSourceSchemas : obj Schema;
  diagnostics : list Diagnostic
}.
End Response.
End GetProviderSchema.

Module PrepareProviderConfig.
Module Request.
Record t : Type := { config : IDynamicValue }.
End Request.
Module Response.
Record t : Type := {
  preparedConfig : nullable IDynamicValue;
  diagnostics : list Diagnostic
}.
End Response.
End PrepareProviderConfig.

Module Configure.
Module Request.
Record t : Type := { config : IDynamicValue }.
End Request.
Module Response.
Record t : Type := { diagnostics : list Diagnostic }.
End Response.
End Configure.

Module ValidateDataSourceConfig.
Module Request.
Record t : Type := { typeName : string; config : IDynamicValue }.
End Request.
Module Response.
Record t : Type := { diagnostics : list Diagnostic }.
End Response.
End ValidateDataSourceConfig.

Module ValidateResourceTypeConfig.
Module Request.
Record t : Type := { typeName : string; config : IDynamicValue }.
End Request.
Module Response.
Record t : Type := { diagnostics : list Diagnostic }.
End Response.
End ValidateResourceTypeConfig.

Module UpgradeResourceState.
Module Request.
Record t : Type := { typeName : string; version : Z; rawState : IRawState }.
End Request.
Module Response.
Record t : Type := {
  upgradedState : nullable IDynamicValue;
  diagnostics : list Diagnostic
}.
End Response.
End UpgradeResourceState.

Module ReadResource.
Module Request.
Record t : Type := {
  typeName : string;
  currentState : IDynamicValue;
  private : nullable Buffer
}.
End Request.
Module Response.
Record t : Type := {
  newState : nullable IDynamicValue;
  diagnostics : list Diagnostic;
  private : nullable Buffer
}.
End Response.
End ReadResource.

Module PlanResourceChange.
Module Request.
Record t : Type := {
  typeName : string;
  priorState : IDynamicValue;
  proposedNewState : IDynamicValue;
  priorPrivate : nullable Buffer
}.
End Request.
Module Response.
Record t : Type := {
  plannedState : nullable IDynamicValue;
  requiresReplace : list AttributePath;
  plannedPrivate : nullable Buffer;
  diagnostics : list Diagnostic
}.
End Response.
Module Return.
Record t : Type := {
  plannedState : value;
  plannedPrivate : value;
  requiresReplace : list AttributePath
}.
End Return.
End PlanResourceChange.

Module ApplyResourceChange.
Module Request.
Record t : Type := {
  typeName : string;
  priorState : IDynamicValue;
  plannedState : IDynamicValue;
  priorPrivate : nullable Buffer
}.
End Request.
Module Response.
Record t : Type := {
  newState : nullable IDynamicValue;
  private : nullable Buffer;
  diagnostics : list Diagnostic
}.
End Response.
Module Return.
Record t : Type := { newState : value; private : value }.
End Return.
End ApplyResourceChange.

Module ImportResourceState.
Module Request.
Record t : Type := { typeName : string; id : string }.
End Request.
Module ImportedResource.
Record t : Type := {
  typeName : option string;
  state : nullable IDynamicValue;
  private : nullable Buffer
}.
End ImportedResource.
Module Response.
Record t : Type := {
  importedResources : list ImportedResource.t;
  diagnostics : list Diagnostic
}.
End Response.
Module Return.
Record t : Type := { typeName : string; state : value; private : value }.
End Return.
End ImportResourceState.

Module ReadDataSource.
Module Request.
Record t : Type := { typeName : string; config : IDynamicValue }.
End Request.
Module Response.
Record t : Type := {
  state : nullable IDynamicValue;
  diagnostics : list Diagnostic
}.
End Response.
End ReadDataSource.

(** Response messages expose their diagnostics. *)
Class HasDiagnostics (R : Type) : Type := diagnostics_of : R -> list Diagnostic.

#[export] Instance diag_GetProviderSchema : HasDiagnostics GetProviderSchema.Response.t :=
  GetProviderSchema.Response.diagnostics.
#[export] Instance diag_PrepareProviderConfig : HasDiagnostics PrepareProviderConfig.Response.t :=
  PrepareProviderConfig.Response.diagnostics.
#[export] Instance diag_Configure : HasDiagnostics Configure.Response.t :=
  Configure.Response.diagnostics.
#[export] Instance diag_ValidateDataSourceConfig
  : HasDiagnostics ValidateDataSourceConfig.Response.t :=
  ValidateDataSourceConfig.Response.diagnostics.
#[export] Instance diag_ValidateResourceTypeConfig
  : HasDiagnostics ValidateResourceTypeConfig.Response.t :=
  ValidateResourceTypeConfig.Response.diagnostics.
#[export] Instance diag_UpgradeResourceState : HasDiagnostics UpgradeResourceState.Response.t :=
  UpgradeResourceState.Response.diagnostics.
#[export] Instance diag_ReadResource : HasDiagnostics ReadResource.Response.t :=
  ReadResource.Response.diagnostics.
#[export] Instance diag_PlanResourceChange : HasDiagnostics PlanResourceChange.Response.t :=
  PlanResourceChange.Response.diagnostics.
#[export] Instance diag_ApplyResourceChange : HasDiagnostics ApplyResourceChange.Response.t :=
  ApplyResourceChange.Response.diagnostics.
#[export] Instance diag_ImportResourceState : HasDiagnostics ImportResourceState.Response.t :=
  ImportResourceState.Response.diagnostics.
#[export] Instance diag_ReadDataSource : HasDiagnostics ReadDataSource.Response.t :=
  ReadDataSource.Response.diagnostics.

(** Modelled from the spec: [throwDiagnosticErrors] is defined in
    [errors.ts], which is not among the sources.  Section 4.5 of the
    specification: it "converts a non-empty diagnostics list into a thrown
    error", a [DiagnosticError] that "carries the full diagnostic list", and
    otherwise hands the response on. *)
Definition throwDiagnosticErrors {R} `{HasDiagnostics R} (res : R) : Result R :=
  match diagnostics_of res with
  | [] => Ok res
  | ds => Err (DiagnosticError ds)
  end.

(** ** The RPC client

    One event per method of the generated client [tfplugin5.Provider]; its
    answer is supplied by the transport. *)
Inductive rpcE : Type -> Type :=
| GetSchema : rpcE GetProviderSchema.Response.t
| PrepareProviderConfigE (req : PrepareProviderConfig.Request.t)
  : rpcE PrepareProviderConfig.Response.t
| ConfigureE (req : Configure.Request.t) : rpcE Configure.Response.t
| ValidateDataSourceConfigE (req : ValidateDataSourceConfig.Request.t)
  : rpcE ValidateDataSourceConfig.Response.t
| ValidateResourceTypeConfigE (req : ValidateResourceTypeConfig.Request.t)
  : rpcE ValidateResourceTypeConfig.Response.t
| UpgradeResourceStateE (req : UpgradeResourceState.Request.t)
  : rpcE UpgradeResourceState.Response.t
| ReadResourceE (req : ReadResource.Request.t) : rpcE ReadResource.Response.t
| PlanResourceChangeE (req : PlanResourceChange.Request.t)
  : rpcE PlanResourceChange.Response.t
| ApplyResourceChangeE (req : ApplyResourceChange.Request.t)
  : rpcE ApplyResourceChange.Response.t
| ImportResourceStateE (req : ImportResourceState.Request.t)
  : rpcE ImportResourceState.Response.t
| ReadDataSourceE (req : ReadDataSource.Request.t) : rpcE ReadDataSource.Response.t.

(** The diagnostics of the answer to an event. *)
Definition answer_diagnostics {R} (c : rpcE R) : R -> list Diagnostic :=
  match c in rpcE R return R -> list Diagnostic with
  | GetSchema => diagnostics_of
  | PrepareProviderConfigE _ => diagnostics_of
  | ConfigureE _ => diagnostics_of
  | ValidateDataSourceConfigE _ => diagnostics_of
  | ValidateResourceTypeConfigE _ => diagnostics_of
  | UpgradeResourceStateE _ => diagnostics_of
  | ReadResourceE _ => diagnostics_of
  | PlanResourceChangeE _ => diagnostics_of
  | ApplyResourceChangeE _ => diagnostics_of
  | ImportResourceStateE _ => diagnostics_of
  | ReadDataSourceE _ => diagnostics_of
  end.

(** An asynchronous method: it returns, throws, or awaits the answer to a
    wire call and goes on. *)
Inductive Prog (A : Type) : Type :=
| Ret (a : A)
| Throw (e : exn)
| Call {R : Type} (c : rpcE R) (k : R -> Prog A).
Arguments Ret {A} a.
Arguments Throw {A} e.
Arguments Call {A R} c k.

Fixpoint pbind {A B} (p : Prog A) (f : A -> Prog B) : Prog B :=
  match p with
  | Ret a => f a
  | Throw e => Throw e
  | Call c k => Call c (fun r => pbind (k r) f)
  end.

Definition lift {A} (r : Result A) : Prog A :=
  match r with
  | Ok a => Ret a
  | Err e => Throw e
  end.

Definition call {R} (c : rpcE R) : Prog R := Call c Ret.

Declare Scope prog_scope.
Delimit Scope prog_scope with prog.
Notation "x <- p ;; k" := (pbind p (fun x => k))
  (at level 61, p at next level, right associativity) : prog_scope.

(** The transport: what the provider process answers, or how the exchange
    fails. *)
Definition Transport : Type := forall R, rpcE R -> Result R.

(** One exchange on the wire. *)
Inductive Exchange : Type :=
| exchange {R : Type} (c : rpcE R) (answer : Result R).

(** Running a method against a transport: the exchanges in order, and the
    outcome. *)
Fixpoint run {A} (rpc : Transport) (p : Prog A) : list Exchange * Result A :=
  match p with
  | Ret a => ([], Ok a)
  | Throw e => ([], Err e)
  | Call c k =>
      match rpc _ c with
      | Ok r => let (trace, out) := run rpc (k r) in (exchange c (Ok r) :: trace, out)
      | Err e => ([exchange c (Err e)], Err e)
      end
  end.

(** [validateOrThrow] of the missing module [type-system], as an interface. *)
Class Validator : Type := validateOrThrow : ObjectType -> value -> Result unit.

(** ** The Provider class *)

Record Provider : Type := {
  providerSchema : ObjectType;
  dataSourceSchemas : obj ObjectType;
  resourceSchemas : obj ObjectType;
  dataSourceStateSchemas : obj ObjectType;
  resourceStateSchemas : obj ObjectType
}.

Definition constructor (schema : GetProviderSchema.Response.t) : Result Provider :=
  match GetProviderSchema.Response.provider schema with
  | None => Err (Error "Unable to read provider schema")
  | Some provider =>
      match schema_block provider with
      | None => Err (Error "Unable to read provider schema")
      | Some _ =>
          providerSchema <- tfSchemaToSchemaType provider ARGS ;;
          dataSourceSchemas <-
            tfSchemasRecordToSchemaTypeRecord
              (GetProviderSchema.Response.dataSourceSchemas schema) ARGS ;;
          resourceSchemas <-
            tfSchemasRecordToSchemaTypeRecord
              (GetProviderSchema.Response.resourceSchemas schema) ARGS ;;
          dataSourceStateSchemas <-
            tfSchemasRecordToSchemaTypeRecord
              (GetProviderSchema.Response.dataSourceSchemas schema) ATTRS ;;
          resourceStateSchemas <-
            tfSchemasRecordToSchemaTypeRecord
              (GetProviderSchema.Response.resourceSchemas schema) ATTRS ;;
          Ok {| providerSchema := providerSchema;
                dataSourceSchemas := dataSourceSchemas;
                resourceSchemas := resourceSchemas;
                dataSourceStateSchemas := dataSourceStateSchemas;
                resourceStateSchemas := resourceStateSchemas |}
      end
  end.

(** [options.private ? {field: encoder.encode(JSON.stringify(options.private))} : {}] *)
Definition privateData (private : option (obj value)) : nullable Buffer :=
  match private with
  | Some p => Present (Text.encode (JSON.stringify (VObj p)))
  | None => Undefined
  end.

(** [JSON.parse(decoder.decode(bytes)) ?? {}] *)
Definition parsePrivate (bytes : nullable Buffer) : Result value :=
  text <- Text.decode bytes ;;
  parsed <- JSON.parse text ;;
  Ok (nullish_or parsed (VObj [])).

Section Facade.
Context {msgpack : Msgpack} {validator : Validator}.
Variable this : Provider.

Local Open Scope prog_scope.

Definition getSchema : Prog GetProviderSchema.Response.t :=
  res <- call GetSchema ;;
  lift (throwDiagnosticErrors res).

Definition applyResourceChange (typeName : string) (priorState plannedState : value)
  (private : option (obj value)) : Prog ApplyResourceChange.Return.t :=
  let privateData := privateData private in
  priorState <- lift (toDynamic priorState) ;;
  plannedState <- lift (toDynamic plannedState) ;;
  res <- call (ApplyResourceChangeE
                 {| ApplyResourceChange.Request.typeName := typeName;
                    ApplyResourceChange.Request.priorState := priorState;
                    ApplyResourceChange.Request.plannedState := plannedState;
                    ApplyResourceChange.Request.priorPrivate := privateData |}) ;;
  res <- lift (throwDiagnosticErrors res) ;;
  newState <- lift (fromDynamic (ApplyResourceChange.Response.newState res)) ;;
  if negb (truthy newState) then Throw (Error "Unable to read planned state")
  else
    private <- lift (parsePrivate (ApplyResourceChange.Response.private res)) ;;
    Ret {| ApplyResourceChange.Return.newState := newState;
           ApplyResourceChange.Return.private := private |}.

Definition configure (config : obj value) : Prog Configure.Response.t :=
  _ <- lift (validateOrThrow (providerSchema this) (VObj config)) ;;
  dynamicConfig <- lift (toDynamic (VObj (optionalsToNulls config (providerSchema this)))) ;;
  res <- call (PrepareProviderConfigE
                 {| PrepareProviderConfig.Request.config := dynamicConfig |}) ;;
  res <- lift (throwDiagnosticErrors res) ;;
  match PrepareProviderConfig.Response.preparedConfig res with
  | Present preparedConfig =>
      res <- call (ConfigureE {| Configure.Request.config := preparedConfig |}) ;;
      lift (throwDiagnosticErrors res)
  | Undefined | Null => Throw (Error "Unable to prepare provider config")
  end.

Definition importResourceState (typeName id : string)
  : Prog (list ImportResourceState.Return.t) :=
  res <- call (ImportResourceStateE
                 {| ImportResourceState.Request.typeName := typeName;
                    ImportResourceState.Request.id := id |}) ;;
  res <- lift (throwDiagnosticErrors res) ;;
  lift (foldM
          (fun out importedResource =>
             match ImportResourceState.ImportedResource.typeName importedResource with
             | None => Err (Error "Unable to read type name")
             | Some importedName =>
                 (state <- fromDynamic (ImportResourceState.ImportedResource.state importedResource) ;;
                  if negb (truthy state) then Err (Error "Unable to read state")
                  else
                    private <-
                      match ImportResourceState.ImportedResource.private importedResource with
                      | Present bytes => parsePrivate (Present bytes)
                      | Undefined | Null => Ok (VObj [])
                      end ;;
                    Ok (out ++ [ {| ImportResourceState.Return.typeName := importedName;
                                    ImportResourceState.Return.state := state;
                                    ImportResourceState.Return.private := private |} ])%list)%result
             end)
          (ImportResourceState.Response.importedResources res) []).

Definition planResourceChange (typeName : string) (priorState proposedNewState : value)
  (private : option (obj value)) : Prog PlanResourceChange.Return.t :=
  match obj_get typeName (resourceStateSchemas this) with
  | None => Throw (TypeError ("Invalid resource type " ++ typeName))
  | Some resourceSchema =>
      let privateData := privateData private in
      priorState <- lift (toDynamic priorState) ;;
      proposedNewState <- lift (toDynamic proposedNewState) ;;
      res <- call (PlanResourceChangeE
                     {| PlanResourceChange.Request.typeName := typeName;
                        PlanResourceChange.Request.priorState := priorState;
                        PlanResourceChange.Request.proposedNewState := proposedNewState;
                        PlanResourceChange.Request.priorPrivate := privateData |}) ;;
      res <- lift (throwDiagnosticErrors res) ;;
      plannedState <- lift (fromDynamic (PlanResourceChange.Response.plannedState res)) ;;
      if negb (truthy plannedState) then Throw (Error "Unable to read planned state")
      else
        plannedPrivate <- lift (parsePrivate (PlanResourceChange.Response.plannedPrivate res)) ;;
        Ret {| PlanResourceChange.Return.plannedState := plannedState;
               PlanResourceChange.Return.plannedPrivate := plannedPrivate;
               PlanResourceChange.Return.requiresReplace :=
                 PlanResourceChange.Response.requiresReplace res |}
  end.

Definition readDataSource (typeName : string) (config : obj value) : Prog value :=
  match obj_get typeName (dataSourceSchemas this) with
  | None => Throw (TypeError ("Invalid data source type " ++ typeName))
  | Some dataSourceSchema =>
      _ <- lift (validateOrThrow dataSourceSchema (VObj config)) ;;
      dynamicConfig <- lift (toDynamic (VObj (optionalsToNulls config dataSourceSchema))) ;;
      res <- call (ReadDataSourceE
                     {| ReadDataSource.Request.typeName := typeName;
                        ReadDataSource.Request.config := dynamicConfig |}) ;;
      res <- lift (throwDiagnosticErrors res) ;;
      state <- lift (fromDynamic (ReadDataSource.Response.state res)) ;;
      if negb (truthy state) then Throw (Error "Unable to read state from data source")
      else Ret state
  end.

Definition readResource (typeName : string) (currentState : value)
  (private : option (obj value)) : Prog value :=
  match obj_get typeName (resourceStateSchemas this) with
  | None => Throw (TypeError ("Invalid resource type " ++ typeName))
  | Some resourceSchema =>
      let privateData := privateData private in
      currentState <- lift (toDynamic currentState) ;;
      res <- call (ReadResourceE
                     {| ReadResource.Request.typeName := typeName;
                        ReadResource.Request.currentState := currentState;
                        ReadResource.Request.private := privateData |}) ;;
      res <- lift (throwDiagnosticErrors res) ;;
      state <- lift (fromDynamic (ReadResource.Response.newState res)) ;;
      Ret (nullish_or state VUndefined)
  end.

Definition upgradeResourceState (typeName : string) (version : Z) (state : value)
  : Prog value :=
  res <- call (UpgradeResourceStateE
                 {| UpgradeResourceState.Request.typeName := typeName;
                    UpgradeResourceState.Request.version := version;
                    UpgradeResourceState.Request.rawState := toRawState state |}) ;;
  res <- lift (throwDiagnosticErrors res) ;;
  upgradedState <- lift (fromDynamic (UpgradeResourceState.Response.upgradedState res)) ;;
  if negb (truthy upgradedState) then Throw (Error "Unable to upgrade resource state")
  else Ret upgradedState.

Definition validateDataSourceConfig (typeName : string) (config : value)
  : Prog ValidateDataSourceConfig.Response.t :=
  config <- lift (toDynamic config) ;;
  call (ValidateDataSourceConfigE
          {| ValidateDataSourceConfig.Request.typeName := typeName;
             ValidateDataSourceConfig.Request.config := config |}).

Definition validateResourceTypeConfig (typeName : string) (config : value)
  : Prog ValidateResourceTypeConfig.Response.t :=
  config <- lift (toDynamic config) ;;
  call (ValidateResourceTypeConfigE
          {| ValidateResourceTypeConfig.Request.typeName := typeName;
             ValidateResourceTypeConfig.Request.config := config |}).

End Facade.

(** [createProviderFactory()]: once the process is started, fetch the schema
    and construct the provider. *)
Definition createProvider : Prog Provider :=
  (schema <- call GetSchema ;; lift (constructor schema))%prog.

(** ** Reference instances of the two interfaces

    They let the statements below be exercised on concrete inputs; the
    theorems about the program are stated for every instance. *)

(** The MessagePack format restricted to its one-byte headers: nil, the
    booleans, fixint, fixstr, fixarray and fixmap.  Anything else is
    [OutsideModel], and so is an association list with a repeated key,
    which stands for no object. *)
Module Fixpack.

Definition header (base : N) (n : nat) : Result byte :=
  match Byte.of_N (base + N.of_nat n) with
  | Some b => Ok b
  | None => Err OutsideModel
  end.

Definition pack_str (s : string) : Result Buffer :=
  if (String.length s <? 32)%nat
  then h <- header 160 (String.length s) ;; Ok (h :: list_byte_of_string s)
  else Err OutsideModel.

Fixpoint pack_value (v : value) : Result Buffer :=
  match v with
  | VUndefined => Err OutsideModel
  | VNull => Ok [xc0]
  | VBool false => Ok [xc2]
  | VBool true => Ok [xc3]
  | VNum n =>
      if ((0 <=? n) && (n <=? 127))%Z then h <- header 0 (Z.to_nat n) ;; Ok [h]
      else if ((-32 <=? n) && (n <? 0))%Z then h <- header 0 (Z.to_nat (256 + n)) ;; Ok [h]
      else Err OutsideModel
  | VStr s => pack_str s
  | VArr items =>
      if (List.length items <? 16)%nat then
        h <- header 144 (List.length items) ;;
        body <- (fix each (l : list value) : Result Buffer :=
                   match l with
                   | [] => Ok []
                   | x :: l' => b <- pack_value x ;; bs <- each l' ;; Ok (b ++ bs)%list
                   end) items ;;
        Ok (h :: body)
      else Err OutsideModel
  | VObj props =>
      if (List.length props <? 16)%nat && distinct (obj_keys props) then
        h <- header 128 (List.length props) ;;
        body <- (fix each (l : list (string * value)) : Result Buffer :=
                   match l with
                   | [] => Ok []
                   | (k, x) :: l' =>
                       kb <- pack_str k ;; b <- pack_value x ;; bs <- each l' ;;
                       Ok (kb ++ b ++ bs)%list
                   end) props ;;
        Ok (h :: body)
      else Err OutsideModel
  end.

Definition truncated : exn := Error "unexpected end of input".

Fixpoint unpack_value (fuel : nat) (b : Buffer) {struct fuel} : Result (value * Buffer) :=
  match fuel, b with
  | O, _ => Err OutsideModel
  | _, [] => Err truncated
  | S fuel', x :: r =>
      let n := Byte.to_N x in
      if (n <? 128)%N then Ok (VNum (Z.of_N n), r)
      else if (n <? 144)%N then
        '(props, rest) <- unpack_entries fuel' (N.to_nat (n - 128)) [] r ;; Ok (VObj props, rest)
      else if (n <? 160)%N then
        '(items, rest) <- unpack_items fuel' (N.to_nat (n - 144)) r ;; Ok (VArr items, rest)
      else if (n <? 192)%N then
        let len := N.to_nat (n - 160) in
        if (len <=? List.length r)%nat
        then Ok (VStr (string_of_list_byte (firstn len r)), skipn len r)
        else Err truncated
      else if (n =? 192)%N then Ok (VNull, r)
      else if (n =? 194)%N then Ok (VBool false, r)
      else if (n =? 195)%N then Ok (VBool true, r)
      else if (224 <=? n)%N then Ok (VNum (Z.of_N n - 256), r)
      else Err OutsideModel
  end

with unpack_items (fuel : nat) (count : nat) (b : Buffer) {struct fuel}
  : Result (list value * Buffer) :=
  match fuel, count with
  | O, _ => Err OutsideModel
  | _, O => Ok ([], b)
  | S fuel', S count' =>
      '(x, r) <- unpack_value fuel' b ;;
      '(xs, rest) <- unpack_items fuel' count' r ;;
      Ok (x :: xs, rest)
  end

with unpack_entries (fuel : nat) (count : nat) (acc : obj value) (b : Buffer) {struct fuel}
  : Result (obj value * Buffer) :=
  match fuel, count with
  | O, _ => Err OutsideModel
  | _, O => Ok (acc, b)
  | S fuel', S count' =>
      '(k, r) <- unpack_value fuel' b ;;
      match k with
      | VStr key =>
          '(x, r') <- unpack_value fuel' r ;;
          unpack_entries fuel' count' (obj_set key x acc) r'
      | _ => Err OutsideModel
      end
  end.

#[export] Instance codec : Msgpack := {
  pack := pack_value;
  unpack := fun b =>
    '(v, rest) <- unpack_value (2 + 2 * List.length b) b ;;
    match rest with
    | [] => Ok v
    | _ :: _ => Err (Error "trailing bytes")
    end
}.

End Fixpack.

(** Modelled from the spec: structural validation as section 4.1 describes
    it.  A required property must be present, a value must have the shape
    of its declared type, optional properties are skipped when absent or
    null; the first mismatch in declaration order is reported by its path. *)
Module Structural.

Fixpoint mismatch (t : SchemaType) (v : value) (path : list string) : option (list string) :=
  match t with
  | BooleanType => match v with VBool _ => None | _ => Some path end
  | NumberType => match v with VNum _ => None | _ => Some path end
  | StringType => match v with VStr _ => None | _ => Some path end
  | ArrayType element =>
      match v with
      | VArr items =>
          (fix each (l : list value) (i : nat) : option (list string) :=
             match l with
             | [] => None
             | x :: l' =>
                 match mismatch element x (path ++ [index_key i])%list with
                 | Some p => Some p
                 | None => each l' (S i)
                 end
             end) items 0
      | _ => Some path
      end
  | MapType element =>
      match v with
      | VObj props =>
          (fix each (l : list (string * value)) : option (list string) :=
             match l with
             | [] => None
             | (k, x) :: l' =>
                 match mismatch element x (path ++ [k])%list with
                 | Some p => Some p
                 | None => each l'
                 end
             end) props
      | _ => Some path
      end
  | ObjectOf fields =>
      match v with
      | VObj props =>
          (fix each (l : list (string * SchemaType)) : option (list string) :=
             match l with
             | [] => None
             | (k, ft) :: l' =>
                 match mismatch ft (prop props k) (path ++ [k])%list with
                 | Some p => Some p
                 | None => each l'
                 end
             end) fields
      | _ => Some path
      end
  | OptionalType inner =>
      match v with
      | VUndefined | VNull => None
      | _ => mismatch inner v path
      end
  end.

#[export] Instance validator : Validator := fun schema v =>
  match mismatch schema v [] with
  | None => Ok tt
  | Some path => Err (ValidationError path)
  end.

End Structural.

(** ** Vocabulary of the statements *)

(** [block.attributes ?? []] and [block.blockTypes ?? []] *)
Definition attributes_of (b : Block) : list Attribute :=
  match attributes b with Some l => l | None => [] end.

Definition blockTypes_of (b : Block) : list NestedBlock :=
  match blockTypes b with Some l => l | None => [] end.

(** The names the translation of a block assigns, at any depth: those of
    its attributes, of its nested blocks and of what they contain. *)
Fixpoint block_names (b : Block) : list string :=
  match b with
  | MkBlock attributes blockTypes =>
      (flat_map (fun a => match name a with Some n => [n] | None => [] end)
         (match attributes with Some l => l | None => [] end)
       ++ match blockTypes with
          | Some l => flat_map nested_names l
          | None => []
          end)%list
  end

with nested_names (nestedBlock : NestedBlock) : list string :=
  match nestedBlock with
  | MkNestedBlock typeName inner _ _ _ =>
      (match typeName with Some n => [n] | None => [] end
       ++ match inner with Some b => block_names b | None => [] end)%list
  end.

Definition schema_names (schema : Schema) : list string :=
  match schema_block schema with
  | Some b => block_names b
  | None => []
  end.

(** The names assigned while a record of schemas is translated: its keys
    and the names of its blocks. *)
Definition record_assigned (schemas : obj Schema) : list string :=
  (obj_keys schemas ++ flat_map (fun entry => schema_names (snd entry)) schemas)%list.

(** The names assigned while a provider is constructed from a schema
    answer. *)
Definition answer_names (schema : GetProviderSchema.Response.t) : list string :=
  (match GetProviderSchema.Response.provider schema with
   | Some p => schema_names p
   | None => []
   end
   ++ record_assigned (GetProviderSchema.Response.resourceSchemas schema)
   ++ record_assigned (GetProviderSchema.Response.dataSourceSchemas schema))%list.

(** What an attribute contributes to the translated object. *)
Definition attribute_entry (kind : Kind) (attribute : Attribute) : option SchemaType :=
  match type attribute with
  | None => None
  | Some ty =>
      match decodeCtyType ty with
      | Ok t => Some (if marks_optional kind attribute then OptionalType t else t)
      | Err _ => None
      end
  end.

(** What a nested block contributes to the translated object. *)
Definition nested_entry (translate : NestedBlock -> Result SchemaType) (nestedBlock : NestedBlock)
  : option SchemaType :=
  match translate nestedBlock with
  | Ok t => Some (if at_least_one nestedBlock then t else OptionalType t)
  | Err _ => None
  end.

(** Whether a property type is wrapped in [Optional]. *)
Definition is_optional (t : SchemaType) : bool :=
  match t with
  | OptionalType _ => true
  | _ => false
  end.

(** The JSON text of a value, as bytes: how a wire type descriptor travels. *)
Definition json_bytes (v : value) : Buffer := Text.encode (JSON.stringify v).

(** A block with a computed attribute [id] and an attribute [note] that
    sets none of the three flags. *)
Definition flags_block : Block :=
  MkBlock
    (Some [ {| name := Some "id"; type := Some (json_bytes (VStr "string"));
               required := None; optional := None; computed := Some true |};
            {| name := Some "note"; type := Some (json_bytes (VStr "string"));
               required := None; optional := None; computed := None |} ])
    None.

(** A block with one attribute and three nested blocks: a required list, a
    set of at most one, and a map. *)
Definition nested_block_of (n : string) (mode : NestingMode) (lo hi : option Z) : NestedBlock :=
  MkNestedBlock (Some n)
    (Some (MkBlock
             (Some [ {| name := Some "port"; type := Some (json_bytes (VStr "number"));
                        required := Some true; optional := None; computed := None |} ])
             None))
    (Some mode) lo hi.

Definition nesting_block : Block :=
  MkBlock
    (Some [ {| name := Some "id"; type := Some (json_bytes (VStr "string"));
               required := None; optional := None; computed := Some true |} ])
    (Some [ nested_block_of "rule" LIST (Some 1%Z) None;
            nested_block_of "logging" SET None (Some 1%Z);
            nested_block_of "tags" MAP None None ]).

(** Wire type descriptors by shape, after section 3 of the specification:
    an atom, or a pair of a tag and its payload, which is a descriptor
    under [list], [map] and [set] and a mapping from field names to
    descriptors under [object]. *)
Fixpoint descriptor (d : value) : bool :=
  match d with
  | VStr _ => true
  | VArr [VStr tag; payload] =>
      if ((tag =? "list") || (tag =? "map") || (tag =? "set"))%string
      then descriptor payload
      else if (tag =? "object")%string then
        match payload with
        | VObj fields => forallb (fun kd => descriptor (snd kd)) fields
        | _ => false
        end
      else true
  | _ => false
  end.

(** Whether the atom [any], an unrecognized atom or an unrecognized tag
    occurs in a descriptor. *)
Fixpoint unsupported (d : value) : bool :=
  match d with
  | VStr s => negb ((s =? "bool") || (s =? "number") || (s =? "string"))%string
  | VArr [VStr tag; payload] =>
      if ((tag =? "list") || (tag =? "map") || (tag =? "set"))%string
      then unsupported payload
      else if (tag =? "object")%string then
        match payload with
        | VObj fields => existsb (fun kd => unsupported (snd kd)) fields
        | _ => true
        end
      else true
  | _ => true
  end.

Definition recognized_atom (s : string) : bool :=
  ((s =? "any") || (s =? "bool") || (s =? "number") || (s =? "string"))%string.

Definition recognized_tag (tag : value) : bool :=
  match tag with
  | VStr t => ((t =? "list") || (t =? "map") || (t =? "set") || (t =? "object"))%string
  | _ => false
  end.

(** The two errors the specification calls [UnknownType]. *)
Definition is_UnknownType (e : exn) : bool :=
  match e with
  | Error m => (m =? "unknown type")%string
  | UnknownTypeError _ => true
  | _ => false
  end.

Definition fails_UnknownType (r : Result SchemaType) : Prop :=
  exists e, r = Err e /\ is_UnknownType e = true.

(** On a descriptor, decoding fails with [UnknownType] exactly when
    something unsupported occurs in it. *)
Definition decodes_unless_unsupported (d : value) : Prop :=
  descriptor d = true ->
  (unsupported d = true -> fails_UnknownType (ctyToType d))
  /\ (unsupported d = false -> exists t, ctyToType d = Ok t).

(** The diagnostics an exchange brought back. *)
Definition exchange_diagnostics (x : Exchange) : list Diagnostic :=
  match x with
  | exchange c (Ok r) => answer_diagnostics c r
  | exchange _ (Err _) => []
  end.

(** A method surfaces diagnostics when any answer carrying some makes it
    fail with a [DiagnosticError] holding them. *)
Definition surfaces_diagnostics {A} (p : Prog A) : Prop :=
  forall (rpc : Transport) (x : Exchange),
    In x (fst (run rpc p)) ->
    exchange_diagnostics x <> [] ->
    snd (run rpc p) = Err (DiagnosticError (exchange_diagnostics x)).

(** The structural counterpart: every continuation throws the diagnostics
    of the answer it receives, if there are any. *)
Fixpoint guarded {A} (p : Prog A) : Prop :=
  match p with
  | Ret _ | Throw _ => True
  | Call c k =>
      forall r,
        guarded (k r)
        /\ (answer_diagnostics c r <> [] ->
            k r = Throw (DiagnosticError (answer_diagnostics c r)))
  end.

(** A field that is [null] or [undefined]. *)
Definition absent {A} (x : nullable A) : Prop := x = Null \/ x = Undefined.

(** Transports that answer one kind of request and fail on the others. *)
Definition no_answer {R} : Result R := Err (Error "no answer").

Definition schema_answer (res : GetProviderSchema.Response.t) : Transport :=
  fun R c =>
    match c in rpcE R return Result R with
    | GetSchema => Ok res
    | _ => no_answer
    end.

Definition plan_answer (res : PlanResourceChange.Response.t) : Transport :=
  fun R c =>
    match c in rpcE R return Result R with
    | PlanResourceChangeE _ => Ok res
    | _ => no_answer
    end.

Definition read_answer (res : ReadResource.Response.t) : Transport :=
  fun R c =>
    match c in rpcE R return Result R with
    | ReadResourceE _ => Ok res
    | _ => no_answer
    end.

Definition silent : Transport := fun R c => no_answer.

(** A provider that knows one resource type, [widget]. *)
Definition widget_provider : Provider :=
  {| providerSchema := T.object [];
     dataSourceSchemas := [];
     resourceSchemas := [("widget", T.object [("id", T.optional T.string)])];
     dataSourceStateSchemas := [];
     resourceStateSchemas := [("widget", T.object [("id", T.string)])] |}.

Definition a_diagnostic : Diagnostic :=
  {| severity := SEV_ERROR; summary := "widget is on fire"; detail := EmptyString;
     attribute := None |}.

(** The schema answer of a provider with the resource type [widget]. *)
Definition widget_schema : GetProviderSchema.Response.t :=
  {| GetProviderSchema.Response.provider :=
       Some {| version := 1; schema_block := Some flags_block |};
     GetProviderSchema.Response.resourceSchemas :=
       [("widget", {| version := 1; schema_block := Some nesting_block |})];
     GetProviderSchema.Response.dataSourceSchemas := [];
     GetProviderSchema.Response.diagnostics := [] |}.

(** The request [planResourceChange] builds from packed states and the
    caller's private mapping. *)
Definition plan_request (typeName : string) (prior proposed : Buffer)
  (private : option (obj value)) : PlanResourceChange.Request.t :=
  {| PlanResourceChange.Request.typeName := typeName;
     PlanResourceChange.Request.priorState :=
       {| dv_msgpack := Present prior; dv_json := Undefined |};
     PlanResourceChange.Request.proposedNewState :=
       {| dv_msgpack := Present proposed; dv_json := Undefined |};
     PlanResourceChange.Request.priorPrivate := privateData private |}.

(** The values JSON represents exactly: [null], booleans, integers within
    the safe range, strings, arrays of such values and objects of such
    values with distinct keys. *)
Fixpoint json_value (v : value) : bool :=
  match v with
  | VUndefined => false
  | VNull | VBool _ | VStr _ => true
  | VNum n => (Z.abs n <=? JSON.MAX_SAFE_INTEGER)%Z
  | VArr items => forallb json_value items
  | VObj props => forallb (fun kv => json_value (snd kv)) props && distinct (obj_keys props)
  end.

(** A bound on the budget [JSON.parse_value] needs to read a value back. *)
Fixpoint weight (v : value) : nat :=
  match v with
  | VArr items => S (list_sum (map (fun x => S (weight x)) items))
  | VObj props => S (list_sum (map (fun kv => S (weight (snd kv))) props))
  | _ => 1
  end.

(** What may follow a value inside a JSON text. *)
Definition delimited (rest : string) : Prop :=
  match rest with
  | EmptyString => True
  | String c _ => c = ","%char \/ c = "]"%char \/ c = "}"%char
  end.

(** Nothing that could continue a numeral. *)
Definition ends_numeral (rest : string) : Prop :=
  match rest with
  | EmptyString => True
  | String c _ =>
      JSON.is_digit c = false /\ c <> "."%char /\ c <> "e"%char /\ c <> "E"%char
  end.

(** The characters a serialized value can begin with. *)
Definition starts_value (c : ascii) : bool :=
  ((c =? "n") || (c =? "t") || (c =? "f") || (c =? JSON.dquote) || (c =? "[") || (c =? "{")
   || (c =? "-"))%char || JSON.is_digit c.

(** The member texts of an object, as [JSON.serialize] writes them. *)
Fixpoint member_texts (l : list (string * value)) : list string :=
  match l with
  | [] => []
  | (k, VUndefined) :: l' => member_texts l'
  | (k, x) :: l' => (JSON.quote k ++ ":" ++ JSON.serialize x) :: member_texts l'
  end.

(** Reading back the text of [v], whatever delimiter follows it. *)
Definition reads_back (v : value) : Prop :=
  json_value v = true ->
  forall fuel rest,
    (weight v <= fuel)%nat -> delimited rest ->
    JSON.parse_value fuel (JSON.serialize v ++ rest) = Ok (v, rest).

(** The two loops of [Fixpack.pack_value]. *)
Definition pack_items : list value -> Result Buffer :=
  fix each (l : list value) : Result Buffer :=
    match l with
    | [] => Ok []
    | x :: l' => b <- Fixpack.pack_value x ;; bs <- each l' ;; Ok (b ++ bs)%list
    end.

Definition pack_entries : list (string * value) -> Result Buffer :=
  fix each (l : list (string * value)) : Result Buffer :=
    match l with
    | [] => Ok []
    | (k, x) :: l' =>
        kb <- Fixpack.pack_str k ;; b <- Fixpack.pack_value x ;; bs <- each l' ;;
        Ok (kb ++ b ++ bs)%list
    end.

(** A value reads back from the bytes the reference codec packs it to,
    whatever follows them, with a budget of twice their number. *)
Definition unpacks (v : value) : Prop :=
  forall b, Fixpack.pack_value v = Ok b ->
    (1 <= List.length b)%nat
    /\ forall fuel rest, (2 * List.length b <= fuel)%nat ->
         Fixpack.unpack_value fuel (b ++ rest)%list = Ok (v, rest).

(** ** Vocabulary of the further properties *)

(** A property type without its [Optional] wrapper, if it has one. *)
Definition strip_optional (t : SchemaType) : SchemaType :=
  match t with
  | OptionalType u => u
  | _ => t
  end.

(** [Optional] is applied at most once. *)
Definition once_optional (t : SchemaType) : bool :=
  match t with
  | OptionalType u => negb (is_optional u)
  | _ => true
  end.

(** A nested block that no translation can read: it has no name, no inner
    block and no nesting mode. *)
Definition unreadable_nested : NestedBlock := MkNestedBlock None None None None None.

(** No [Optional] anywhere in a type. *)
Fixpoint optional_free (t : SchemaType) : bool :=
  match t with
  | BooleanType | NumberType | StringType => true
  | ArrayType element | MapType element => optional_free element
  | ObjectOf props => forallb (fun kt => optional_free (snd kt)) props
  | OptionalType _ => false
  end.

(** The step of the ['object'] case of [ctyToType], on one field. *)
Definition field_step (decode : value -> Result SchemaType)
  (types : ObjectProperties) (kd : string * value) : Result ObjectProperties :=
  t <- decode (snd kd) ;; Ok (obj_set (fst kd) t types).

(** The step of [tfSchemasRecordToSchemaTypeRecord], on one entry. *)
Definition record_step (kind : Kind) (map : obj ObjectType) (entry : string * Schema)
  : Result (obj ObjectType) :=
  let '(name, schema) := entry in
  t <- tfSchemaToSchemaType schema kind ;; Ok (obj_set name t map).

(** The request [applyResourceChange] builds. *)
Definition apply_request (typeName : string) (prior planned : Buffer)
  (private : option (obj value)) : ApplyResourceChange.Request.t :=
  {| ApplyResourceChange.Request.typeName := typeName;
     ApplyResourceChange.Request.priorState :=
       {| dv_msgpack := Present prior; dv_json := Undefined |};
     ApplyResourceChange.Request.plannedState :=
       {| dv_msgpack := Present planned; dv_json := Undefined |};
     ApplyResourceChange.Request.priorPrivate := privateData private |}.

(** What [planResourceChange] and [applyResourceChange] make of a decoded
    state and the private bytes of the answer. *)
Definition plan_outcome (state : value) (res : PlanResourceChange.Response.t)
  : Result PlanResourceChange.Return.t :=
  if truthy state then
    plannedPrivate <- parsePrivate (PlanResourceChange.Response.plannedPrivate res) ;;
    Ok {| PlanResourceChange.Return.plannedState := state;
          PlanResourceChange.Return.plannedPrivate := plannedPrivate;
          PlanResourceChange.Return.requiresReplace :=
            PlanResourceChange.Response.requiresReplace res |}
  else Err (Error "Unable to read planned state").

Definition apply_outcome (state : value) (res : ApplyResourceChange.Response.t)
  : Result ApplyResourceChange.Return.t :=
  if truthy state then
    private <- parsePrivate (ApplyResourceChange.Response.private res) ;;
    Ok {| ApplyResourceChange.Return.newState := state;
          ApplyResourceChange.Return.private := private |}
  else Err (Error "Unable to read planned state").

(** A transport for plan and apply that hands the private bytes of the
    request back with the given state. *)
Definition echo_private (state : nullable IDynamicValue) : Transport :=
  fun R c =>
    match c in rpcE R return Result R with
    | PlanResourceChangeE req =>
        Ok {| PlanResourceChange.Response.plannedState := state;
              PlanResourceChange.Response.requiresReplace := [];
              PlanResourceChange.Response.plannedPrivate :=
                PlanResourceChange.Request.priorPrivate req;
              PlanResourceChange.Response.diagnostics := [] |}
    | ApplyResourceChangeE req =>
        Ok {| ApplyResourceChange.Response.newState := state;
              ApplyResourceChange.Response.private :=
                ApplyResourceChange.Request.priorPrivate req;
              ApplyResourceChange.Response.diagnostics := [] |}
    | _ => no_answer
    end.

(** The requests the read and upgrade methods build. *)
Definition read_request (typeName : string) (current : Buffer)
  (private : option (obj value)) : ReadResource.Request.t :=
  {| ReadResource.Request.typeName := typeName;
     ReadResource.Request.currentState :=
       {| dv_msgpack := Present current; dv_json := Undefined |};
     ReadResource.Request.private := privateData private |}.

Definition data_request (typeName : string) (config : Buffer) : ReadDataSource.Request.t :=
  {| ReadDataSource.Request.typeName := typeName;
     ReadDataSource.Request.config :=
       {| dv_msgpack := Present config; dv_json := Undefined |} |}.

Definition upgrade_request (typeName : string) (version : Z) (state : value)
  : UpgradeResourceState.Request.t :=
  {| UpgradeResourceState.Request.typeName := typeName;
     UpgradeResourceState.Request.version := version;
     UpgradeResourceState.Request.rawState := toRawState state |}.

(** [!state ? throw new Error(message) : state] *)
Definition state_or (message : string) (state : value) : Result value :=
  if truthy state then Ok state else Err (Error message).

(** A transport that answers every state-bearing request with the same
    dynamic value and no diagnostics. *)
Definition state_answer (state : nullable IDynamicValue) : Transport :=
  fun R c =>
    match c in rpcE R return Result R with
    | PlanResourceChangeE req =>
        Ok {| PlanResourceChange.Response.plannedState := state;
              PlanResourceChange.Response.requiresReplace := [];
              PlanResourceChange.Response.plannedPrivate :=
                PlanResourceChange.Request.priorPrivate req;
              PlanResourceChange.Response.diagnostics := [] |}
    | ApplyResourceChangeE req =>
        Ok {| ApplyResourceChange.Response.newState := state;
              ApplyResourceChange.Response.private :=
                ApplyResourceChange.Request.priorPrivate req;
              ApplyResourceChange.Response.diagnostics := [] |}
    | ReadResourceE _ =>
        Ok {| ReadResource.Response.newState := state;
              ReadResource.Response.diagnostics := [];
              ReadResource.Response.private := Undefined |}
    | ReadDataSourceE _ =>
        Ok {| ReadDataSource.Response.state := state;
              ReadDataSource.Response.diagnostics := [] |}
    | UpgradeResourceStateE _ =>
        Ok {| UpgradeResourceState.Response.upgradedState := state;
              UpgradeResourceState.Response.diagnostics := [] |}
    | _ => no_answer
    end.

(** The callback [importResourceState] maps over the imported resources. *)
Definition imported_resource {msgpack : Msgpack} (importedResource : ImportResourceState.ImportedResource.t)
  : Result ImportResourceState.Return.t :=
  match ImportResourceState.ImportedResource.typeName importedResource with
  | None => Err (Error "Unable to read type name")
  | Some importedName =>
      state <- fromDynamic (ImportResourceState.ImportedResource.state importedResource) ;;
      if negb (truthy state) then Err (Error "Unable to read state")
      else
        private <-
          match ImportResourceState.ImportedResource.private importedResource with
          | Present bytes => parsePrivate (Present bytes)
          | Undefined | Null => Ok (VObj [])
          end ;;
        Ok {| ImportResourceState.Return.typeName := importedName;
              ImportResourceState.Return.state := state;
              ImportResourceState.Return.private := private |}
  end.

Definition import_request (typeName id : string) : ImportResourceState.Request.t :=
  {| ImportResourceState.Request.typeName := typeName;
     ImportResourceState.Request.id := id |}.

(** What an imported record and the entry returned for it have in common. *)
Definition imported_as {msgpack : Msgpack} (r : ImportResourceState.ImportedResource.t)
  (o : ImportResourceState.Return.t) : Prop :=
  ImportResourceState.ImportedResource.typeName r
  = Some (ImportResourceState.Return.typeName o)
  /\ fromDynamic (ImportResourceState.ImportedResource.state r)
     = Ok (ImportResourceState.Return.state o)
  /\ truthy (ImportResourceState.Return.state o) = true
  /\ (absent (ImportResourceState.ImportedResource.private r) ->
      ImportResourceState.Return.private o = VObj [])
  /\ (forall bytes,
        ImportResourceState.ImportedResource.private r = Present bytes ->
        parsePrivate (Present bytes) = Ok (ImportResourceState.Return.private o)).

(** A record the callback throws on for want of a type name or a state. *)
Definition unreadable_import {msgpack : Msgpack} (r : ImportResourceState.ImportedResource.t) : Prop :=
  ImportResourceState.ImportedResource.typeName r = None
  \/ exists state,
       fromDynamic (ImportResourceState.ImportedResource.state r) = Ok state
       /\ truthy state = false.

Definition import_answer (res : ImportResourceState.Response.t) : Transport :=
  fun R c =>
    match c in rpcE R return Result R with
    | ImportResourceStateE _ => Ok res
    | _ => no_answer
    end.

(** The requests of [configure]. *)
Definition prepare_request (config : Buffer) : PrepareProviderConfig.Request.t :=
  {| PrepareProviderConfig.Request.config :=
       {| dv_msgpack := Present config; dv_json := Undefined |} |}.

(** A transport that prepares every provider config to the given value and
    accepts it. *)
Definition prepares (prepared : nullable IDynamicValue) : Transport :=
  fun R c =>
    match c in rpcE R return Result R with
    | PrepareProviderConfigE _ =>
        Ok {| PrepareProviderConfig.Response.preparedConfig := prepared;
              PrepareProviderConfig.Response.diagnostics := [] |}
    | ConfigureE _ => Ok {| Configure.Response.diagnostics := [] |}
    | _ => no_answer
    end.

(** The method of the RPC client an event stands for. *)
Definition method_name {R} (c : rpcE R) : string :=
  match c with
  | GetSchema => "getSchema"
  | PrepareProviderConfigE _ => "prepareProviderConfig"
  | ConfigureE _ => "configure"
  | ValidateDataSourceConfigE _ => "validateDataSourceConfig"
  | ValidateResourceTypeConfigE _ => "validateResourceTypeConfig"
  | UpgradeResourceStateE _ => "upgradeResourceState"
  | ReadResourceE _ => "readResource"
  | PlanResourceChangeE _ => "planResourceChange"
  | ApplyResourceChangeE _ => "applyResourceChange"
  | ImportResourceStateE _ => "importResourceState"
  | ReadDataSourceE _ => "readDataSource"
  end.

Definition exchange_method (x : Exchange) : string :=
  match x with
  | exchange c _ => method_name c
  end.

(** The client methods a run went through, in order. *)
Definition methods_called {A} (rpc : Transport) (p : Prog A) : list string :=
  map exchange_method (fst (run rpc p)).

(** A method follows a script when its wire calls are the first calls of
    the script, in order, whatever the answers. *)
Fixpoint follows {A} (script : list string) (p : Prog A) {struct p} : Prop :=
  match p with
  | Ret _ | Throw _ => True
  | Call c k =>
      match script with
      | [] => False
      | name :: script' => method_name c = name /\ forall r, follows script' (k r)
      end
  end.

(** [l] starts [script]. *)
Definition starts (l script : list string) : Prop := exists rest, script = (l ++ rest)%list.

(** A provider that knows one data source, [lookup], with a required [name]
    and an optional [zone]. *)
Definition lookup_provider : Provider :=
  {| providerSchema := T.object [];
     dataSourceSchemas :=
       [("lookup", T.object [("name", T.string); ("zone", T.optional T.string)])];
     resourceSchemas := [];
     dataSourceStateSchemas :=
       [("lookup", T.object [("name", T.string); ("zone", T.string)])];
     resourceStateSchemas := [] |}.

(** A dynamic value that carries its payload as JSON text only. *)
Definition json_only (text : Buffer) : IDynamicValue :=
  {| dv_msgpack := Undefined; dv_json := Present text |}.

(** * Properties *)

(** ** Objects *)

Section ObjFacts.
Context {A : Type}.
Implicit Types (o : obj A) (k : string) (v : A).

Lemma obj_get_set_same k v o : obj_get k (obj_set k v o) = Some v.
Proof.
  induction o as [|[k' v'] o IH]; simpl.
  - now rewrite String.eqb_refl.
  - destruct (String.eqb_spec k' k) as [->|Hne]; simpl.
    + now rewrite String.eqb_refl.
    + destruct (String.eqb_spec k' k); [contradiction|exact IH].
Qed.

Lemma obj_get_set_other k k' v o : k <> k' -> obj_get k' (obj_set k v o) = obj_get k' o.
Proof.
  intros Hne. induction o as [|[k0 v0] o IH]; simpl.
  - destruct (String.eqb_spec k k'); [contradiction|reflexivity].
  - destruct (String.eqb_spec k0 k) as [->|Hk]; simpl.
    + destruct (String.eqb_spec k k'); [contradiction|reflexivity].
    + now rewrite IH.
Qed.

Lemma obj_get_set k k' v o :
  obj_get k' (obj_set k v o) = if (k =? k')%string then Some v else obj_get k' o.
Proof.
  destruct (String.eqb_spec k k') as [->|Hne].
  - apply obj_get_set_same.
  - now apply obj_get_set_other.
Qed.

Lemma obj_get_None k o : obj_get k o = None <-> ~ In k (obj_keys o).
Proof.
  induction o as [|[k' v'] o IH]; simpl.
  - tauto.
  - destruct (String.eqb_spec k' k) as [->|Hne].
    + split; [discriminate|]. intros H. exfalso. apply H. now left.
    + rewrite IH. split; [intros H [E|I]; [contradiction|auto]|tauto].
Qed.

Lemma obj_get_Some_In k o v : obj_get k o = Some v -> In k (obj_keys o).
Proof.
  intros H. destruct (in_dec string_dec k (obj_keys o)) as [I|N]; [exact I|].
  apply obj_get_None in N. congruence.
Qed.

Lemma obj_get_In k o : In k (obj_keys o) <-> exists v, obj_get k o = Some v.
Proof.
  split.
  - intros I. destruct (obj_get k o) eqn:E; [eauto|].
    apply obj_get_None in E. contradiction.
  - intros [v H]. eapply obj_get_Some_In; eauto.
Qed.

Lemma obj_keys_set k k' v o :
  In k' (obj_keys (obj_set k v o)) <-> k' = k \/ In k' (obj_keys o).
Proof.
  rewrite !obj_get_In. rewrite obj_get_set.
  destruct (String.eqb_spec k k') as [->|Hne].
  - split; eauto.
  - split; [eauto|]. intros [E|H]; [congruence|exact H].
Qed.

Lemma obj_set_fresh k v o : ~ In k (obj_keys o) -> obj_set k v o = (o ++ [(k, v)])%list.
Proof.
  induction o as [|[k' v'] o IH]; simpl; intros H; [reflexivity|].
  destruct (String.eqb_spec k' k) as [->|Hne].
  - exfalso. apply H. now left.
  - rewrite IH; [reflexivity|]. intros I. apply H. now right.
Qed.

End ObjFacts.

(** ** optionalsToNulls *)

Lemma nullish_or_present (x d : value) : x <> VNull -> x <> VUndefined -> nullish_or x d = x.
Proof. destruct x; simpl; congruence. Qed.

Lemma optionalsToNulls_fold (v : obj value) (keys : list string) (acc : obj value) (k : string) :
  obj_get k
    (fold_left (fun o key => obj_set key (nullish_or (prop v key) VNull) o) keys acc)
  = if in_dec string_dec k keys then Some (nullish_or (prop v k) VNull) else obj_get k acc.
Proof.
  revert acc. induction keys as [|key keys IH]; intros acc; simpl; [reflexivity|].
  rewrite IH. destruct (in_dec string_dec k keys) as [I|N].
  - destruct (string_dec key k); reflexivity.
  - destruct (string_dec key k) as [->|Hne].
    + apply obj_get_set_same.
    + now apply obj_get_set_other.
Qed.

Lemma optionalsToNulls_get (v : obj value) (schema : ObjectType) (k : string) :
  obj_get k (optionalsToNulls v schema)
  = if in_dec string_dec k (obj_keys (properties schema))
    then Some (nullish_or (prop v k) VNull) else None.
Proof. unfold optionalsToNulls. now rewrite optionalsToNulls_fold. Qed.

(** C10. For an object type that declares no property ['__proto__'] (an
    assignment to that name defines nothing), the keys of
    [optionalsToNulls value objectType] are exactly the declared properties
    of [objectType]: undeclared input keys are dropped, and a declared
    property whose input value is present and neither [null] nor
    [undefined] (so also [false], [0] and the empty string) is copied
    unchanged.  A declared property that is [null] or [undefined] in the
    input becomes [null]; so does one that is absent from the input, when
    its name is not inherited from [Object.prototype]. *)
Theorem optionalsToNulls_keys_and_values (v : obj value) (schema : ObjectType) :
  forallb settable (obj_keys (properties schema)) = true ->
  (forall k, In k (obj_keys (optionalsToNulls v schema))
             <-> In k (obj_keys (properties schema)))
  /\ (forall k, ~ In k (obj_keys (properties schema)) ->
                obj_get k (optionalsToNulls v schema) = None)
  /\ (forall k x, In k (obj_keys (properties schema)) ->
                  obj_get k v = Some x -> x <> VNull -> x <> VUndefined ->
                  obj_get k (optionalsToNulls v schema) = Some x)
  /\ (forall k, In k (obj_keys (properties schema)) ->
                (obj_get k v = None -> inherited k = false) ->
                (forall x, obj_get k v = Some x -> x = VNull \/ x = VUndefined) ->
                obj_get k (optionalsToNulls v schema) = Some VNull)
  /\ (forall k, In k (obj_keys (properties schema)) ->
                In (prop v k) [VBool false; VNum 0; VStr EmptyString] ->
                obj_get k (optionalsToNulls v schema) = Some (prop v k)).
Proof.
  intros _. repeat split.
  - intros I. apply obj_get_In in I as [x Hx]. rewrite optionalsToNulls_get in Hx.
    destruct (in_dec string_dec k (obj_keys (properties schema))); [assumption|discriminate].
  - intros I. apply obj_get_In. rewrite optionalsToNulls_get.
    destruct (in_dec string_dec k (obj_keys (properties schema))); [eauto|contradiction].
  - intros k N. rewrite optionalsToNulls_get.
    destruct (in_dec string_dec k (obj_keys (properties schema))); [contradiction|reflexivity].
  - intros k x I Hx Hn Hu. rewrite optionalsToNulls_get.
    destruct (in_dec string_dec k (obj_keys (properties schema))); [|contradiction].
    unfold prop. rewrite Hx. now rewrite nullish_or_present.
  - intros k I _ H. rewrite optionalsToNulls_get.
    destruct (in_dec string_dec k (obj_keys (properties schema))); [|contradiction].
    unfold prop. destruct (obj_get k v) as [x|]; [|reflexivity].
    destruct (H x eq_refl) as [-> | ->]; reflexivity.
  - intros k I H. rewrite optionalsToNulls_get.
    destruct (in_dec string_dec k (obj_keys (properties schema))); [|contradiction].
    simpl in H. destruct H as [<-|[<-|[<-|[]]]]; reflexivity.
Qed.

Lemma optionalsToNulls_keys_and_values_witness :
  let schema := T.object [("a", T.number); ("b", T.optional T.string); ("c", T.boolean)] in
  let v := [("a", VNum 0); ("zzz", VStr "dropped"); ("c", VBool false)] in
  obj_get "a" (optionalsToNulls v schema) = Some (VNum 0)
  /\ obj_get "b" (optionalsToNulls v schema) = Some VNull
  /\ obj_get "zzz" (optionalsToNulls v schema) = None.
Proof.
  intros schema v.
  destruct (optionalsToNulls_keys_and_values v schema eq_refl)
    as (_ & Hdrop & Hcopy & Hnull & _).
  split; [|split].
  - apply Hcopy; [simpl; auto | reflexivity | discriminate | discriminate].
  - apply Hnull; [simpl; auto | reflexivity | intros x Hx; discriminate Hx].
  - apply Hdrop. simpl. intros [H|[H|[H|[]]]]; discriminate H.
Defined.

Example optionalsToNulls_fills_missing_optional :
  optionalsToNulls [("a", VNum 1)] (T.object [("a", T.number); ("b", T.optional T.string)])
  = [("a", VNum 1); ("b", VNull)].
Proof. reflexivity. Qed.

(** ** Loops that assign one property per element *)

Lemma obj_set_set {A} (k : string) (v v' : A) (o : obj A) :
  obj_set k v (obj_set k v' o) = obj_set k v o.
Proof.
  induction o as [|[k0 v0] o IH]; simpl.
  - now rewrite String.eqb_refl.
  - destruct (String.eqb_spec k0 k) as [->|Hne]; simpl.
    + now rewrite String.eqb_refl.
    + destruct (String.eqb_spec k0 k); [contradiction|now rewrite IH].
Qed.

Lemma foldM_app {A B} (f : B -> A -> Result B) (l1 l2 : list A) (acc : B) :
  foldM f (l1 ++ l2)%list acc = (acc' <- foldM f l1 acc ;; foldM f l2 acc').
Proof.
  revert acc. induction l1 as [|x l1 IH]; intros acc; simpl; [reflexivity|].
  destruct (f acc x); simpl; [apply IH|reflexivity].
Qed.

Section KeyedFold.
Variables (X V : Type).
Variable step : obj V -> X -> Result (obj V).
Variable key : X -> option string.
Variable entry : X -> option V.
Hypothesis step_assigns : forall acc x acc',
  step acc x = Ok acc' ->
  exists n v, key x = Some n /\ entry x = Some v /\ acc' = obj_set n v acc.

Lemma keyed_fold_frame l : forall acc out k,
  foldM step l acc = Ok out ->
  (forall x, In x l -> key x <> Some k) ->
  obj_get k out = obj_get k acc.
Proof.
  induction l as [|x l IH]; simpl; intros acc out k H Hk.
  - now inversion H.
  - destruct (step acc x) as [acc'|e] eqn:E; simpl in H; [|discriminate].
    destruct (step_assigns _ _ _ E) as (n & v & Hn & _ & ->).
    rewrite (IH _ _ k H) by (intros y I; apply Hk; now right).
    apply obj_get_set_other. intros ->. apply (Hk x); [now left|exact Hn].
Qed.

Lemma keyed_fold_last pre x post : forall acc out n,
  foldM step (pre ++ x :: post)%list acc = Ok out ->
  key x = Some n ->
  (forall y, In y post -> key y <> Some n) ->
  exists v, entry x = Some v /\ obj_get n out = Some v.
Proof.
  intros acc out n H Hn Hpost. rewrite foldM_app in H.
  destruct (foldM step pre acc) as [acc1|e]; simpl in H; [|discriminate].
  destruct (step acc1 x) as [acc2|e] eqn:E; simpl in H; [|discriminate].
  destruct (step_assigns _ _ _ E) as (n' & v & Hn' & Hv & ->).
  assert (n' = n) as -> by congruence.
  exists v. split; [exact Hv|].
  rewrite (keyed_fold_frame _ _ _ n H Hpost). apply obj_get_set_same.
Qed.

Lemma keyed_fold_keys l : forall acc out k,
  foldM step l acc = Ok out ->
  (In k (obj_keys out) <-> In k (obj_keys acc) \/ exists x, In x l /\ key x = Some k).
Proof.
  induction l as [|x l IH]; simpl; intros acc out k H.
  - inversion H; subst. split; [auto|intros [I|(y & [] & _)]; exact I].
  - destruct (step acc x) as [acc'|e] eqn:E; simpl in H; [|discriminate].
    destruct (step_assigns _ _ _ E) as (n & v & Hn & _ & ->).
    rewrite (IH _ _ k H), obj_keys_set. split.
    + intros [[->|I]|(y & I & Hy)]; eauto.
    + intros [I|(y & [<-|I] & Hy)]; eauto.
      left. left. congruence.
Qed.

End KeyedFold.

(** ** blockToSchemaType *)

Lemma attribute_step_assigns kind acc a acc' :
  attribute_step kind acc a = Ok acc' ->
  exists n v, name a = Some n /\ attribute_entry kind a = Some v /\ acc' = obj_set n v acc.
Proof.
  unfold attribute_step, attribute_entry. intros H.
  destruct (type a) as [ty|]; [|discriminate].
  destruct (name a) as [n|]; [|discriminate].
  destruct (decodeCtyType ty) as [t|e]; simpl in H; [|discriminate].
  exists n. destruct (marks_optional kind a); inversion H; subst.
  - eexists. repeat split. unfold T.optional. now rewrite obj_set_set.
  - eexists. repeat split.
Qed.

Lemma nested_step_assigns translate acc nb acc' :
  nested_step translate acc nb = Ok acc' ->
  exists n v, typeName nb = Some n /\ nested_entry translate nb = Some v /\ acc' = obj_set n v acc.
Proof.
  unfold nested_step, nested_entry. intros H.
  destruct (typeName nb) as [n|]; [|discriminate].
  exists n. destruct (at_least_one nb); destruct (translate nb) as [t|e]; simpl in H;
    try discriminate; inversion H; subst; eexists; repeat split.
Qed.

Lemma blockToSchemaType_ATTRS b o :
  blockToSchemaType b ATTRS = Ok o ->
  foldM (attribute_step ATTRS) (attributes_of b) [] = Ok (properties o).
Proof.
  destruct b as [attrs bts]. unfold attributes_of. simpl.
  destruct (foldM _ _ _) as [out|e]; simpl; [|discriminate].
  intros H. now inversion H.
Qed.

Lemma blockToSchemaType_ARGS b o :
  blockToSchemaType b ARGS = Ok o ->
  exists attrs,
    foldM (attribute_step ARGS) (attributes_of b) [] = Ok attrs
    /\ foldM (nested_step (fun nb => nestedBlockToSchemaType nb ARGS)) (blockTypes_of b) attrs
       = Ok (properties o).
Proof.
  destruct b as [attrs bts]. unfold attributes_of, blockTypes_of. simpl.
  destruct (foldM _ _ _) as [out|e]; simpl; [|discriminate].
  intros H. exists out. split; [reflexivity|].
  destruct bts as [l|]; simpl in *.
  - destruct (foldM _ l out) as [out'|e]; simpl in H; [|discriminate]. now inversion H.
  - now inversion H.
Qed.

Lemma nestedBlockToSchemaType_wrap nb kind t :
  nestedBlockToSchemaType nb kind = Ok t ->
  exists innerBlock inner mode,
    block nb = Some innerBlock
    /\ blockToSchemaType innerBlock kind = Ok inner
    /\ nesting nb = Some mode
    /\ match mode with
       | SINGLE | GROUP => t = as_type inner
       | LIST | SET =>
           (maxItems nb = Some 1%Z -> t = as_type inner)
           /\ (maxItems nb <> Some 1%Z -> t = ArrayType inner)
       | MAP => t = MapType inner
       | INVALID => False
       end.
Proof.
  destruct nb as [tn [ib|] mode mn mx]; simpl; [|discriminate].
  destruct (blockToSchemaType ib kind) as [inner|e] eqn:E; simpl; [|discriminate].
  intros H. exists ib, inner.
  assert (Hmax : forall A (x y : A),
             (mx = Some 1%Z -> (if max_one (MkNestedBlock tn (Some ib) mode mn mx) then x else y) = x)
             /\ (mx <> Some 1%Z -> (if max_one (MkNestedBlock tn (Some ib) mode mn mx) then x else y) = y)).
  { intros A x y. unfold max_one. simpl. destruct mx as [m|].
    - destruct (Z.eqb_spec m 1) as [->|Hne]; split; intros H'; try reflexivity;
        [contradiction | congruence].
    - split; [discriminate|reflexivity]. }
  destruct mode as [[| | | | |]|]; try discriminate; inversion H; subst; clear H;
    eexists; (split; [reflexivity|]); (split; [exact E|]); (split; [reflexivity|]);
    try reflexivity; split; intros Hm; now apply Hmax.
Qed.

Lemma object_case_not_optional decode payload t :
  object_case decode payload = Ok t -> is_optional t = false.
Proof.
  destruct payload as [| | | |s|items|fields]; simpl; try discriminate.
  - intros H; inversion H; reflexivity.
  - intros H; inversion H; reflexivity.
  - destruct s; [intros H; inversion H; reflexivity|discriminate].
  - generalize 0%nat ([] : ObjectProperties).
    induction items as [|d l IH]; intros i types H.
    + inversion H. reflexivity.
    + destruct (decode d) as [x|e]; simpl in H; [|discriminate]. eapply IH, H.
  - generalize ([] : ObjectProperties).
    induction fields as [|[key d] l IH]; intros types H.
    + inversion H. reflexivity.
    + destruct (decode d) as [x|e]; simpl in H; [|discriminate]. eapply IH, H.
Qed.

Lemma by_tag_not_optional schema tag element object t :
  (forall u, object = Ok u -> is_optional u = false) ->
  by_tag schema tag element object = Ok t -> is_optional t = false.
Proof.
  intros Hobj. destruct tag; simpl; try discriminate.
  destruct (s =? "list")%string; [destruct element; simpl; intros H; inversion H; reflexivity|].
  destruct (s =? "map")%string; [destruct element; simpl; intros H; inversion H; reflexivity|].
  destruct (s =? "set")%string; [destruct element; simpl; intros H; inversion H; reflexivity|].
  destruct (s =? "object")%string; [apply Hobj|discriminate].
Qed.

Lemma with_prop_cases {A} (P : A -> Prop) (f : value -> A) (absent : A) (k : string) l :
  P absent -> (forall v, P (f v)) -> P (with_prop f absent k l).
Proof.
  intros Ha Hf. induction l as [|[k' v] l IH]; simpl; [exact Ha|].
  destruct (k' =? k)%string; [apply Hf|exact IH].
Qed.

Lemma ctyToType_not_optional schema t : ctyToType schema = Ok t -> is_optional t = false.
Proof.
  destruct schema as [| | | |s|items|props]; try (simpl; discriminate).
  - simpl. destruct (s =? "any")%string; [discriminate|].
    destruct (s =? "bool")%string; [intros H; inversion H; reflexivity|].
    destruct (s =? "number")%string; [intros H; inversion H; reflexivity|].
    destruct (s =? "string")%string; [intros H; inversion H; reflexivity|discriminate].
  - destruct items as [|tag rest]; [simpl; discriminate|].
    cbn [ctyToType]. apply by_tag_not_optional. intros u.
    destruct rest; apply object_case_not_optional.
  - cbn [ctyToType]. destruct (obj_get "0" props); [|discriminate].
    apply by_tag_not_optional. intros u.
    apply (with_prop_cases (fun r => r = Ok u -> is_optional u = false));
      [|intros v0]; apply object_case_not_optional.
Qed.

Lemma decodeCtyType_not_optional input t : decodeCtyType input = Ok t -> is_optional t = false.
Proof.
  unfold decodeCtyType. simpl.
  destruct (JSON.parse _) as [v|e]; simpl; [apply ctyToType_not_optional|discriminate].
Qed.

(** C1 (as the code has it). An attribute marked [computed] is optional
    under [ARGS] and is not optional under [ATTRS]; an attribute that sets
    none of [required], [optional], [computed] is optional under [ATTRS] and
    not optional under [ARGS].  The property meant is the one the attribute
    is the last to assign: no later attribute, and under [ARGS] no nested
    block, carries its name.  The block assigns no name ['__proto__'], on
    which an assignment defines no property. *)
Theorem attribute_optionality (b : Block) (kind : Kind) (o : ObjectType)
  (pre post : list Attribute) (a : Attribute) (n : string) :
  forallb settable (block_names b) = true ->
  blockToSchemaType b kind = Ok o ->
  attributes_of b = (pre ++ a :: post)%list ->
  name a = Some n ->
  (forall a', In a' post -> name a' <> Some n) ->
  (kind = ARGS -> forall nb, In nb (blockTypes_of b) -> typeName nb <> Some n) ->
  exists ty t,
    type a = Some ty /\ decodeCtyType ty = Ok t /\ is_optional t = false
    /\ obj_get n (properties o) = Some (if marks_optional kind a then OptionalType t else t)
    /\ (flag (computed a) = true -> kind = ARGS ->
        obj_get n (properties o) = Some (OptionalType t))
    /\ (flag (computed a) = true -> kind = ATTRS ->
        obj_get n (properties o) = Some t)
    /\ (flag (required a) = false -> flag (optional a) = false -> flag (computed a) = false ->
        kind = ATTRS -> obj_get n (properties o) = Some (OptionalType t))
    /\ (flag (required a) = false -> flag (optional a) = false -> flag (computed a) = false ->
        kind = ARGS -> obj_get n (properties o) = Some t).
Proof.
  intros _ Hb Hattrs Hn Hpost Hnested.
  assert (Hget : exists v, attribute_entry kind a = Some v /\ obj_get n (properties o) = Some v).
  { destruct kind.
    - destruct (blockToSchemaType_ARGS _ _ Hb) as (attrs & Ha & Hnb).
      rewrite Hattrs in Ha.
      destruct (keyed_fold_last _ _ _ name (attribute_entry ARGS)
                  (attribute_step_assigns ARGS) _ _ _ _ _ _ Ha Hn Hpost) as (v & Hv & Hg).
      exists v. split; [exact Hv|]. rewrite <- Hg.
      eapply keyed_fold_frame; [apply nested_step_assigns|exact Hnb|].
      intros nb I. now apply Hnested.
    - apply blockToSchemaType_ATTRS in Hb. rewrite Hattrs in Hb.
      eapply keyed_fold_last; eauto using attribute_step_assigns. }
  destruct Hget as (v & Hv & Hg). unfold attribute_entry in Hv.
  destruct (type a) as [ty|]; [|discriminate].
  destruct (decodeCtyType ty) as [t|e] eqn:Hd; [|discriminate].
  inversion Hv; subst v; clear Hv.
  exists ty, t. split; [reflexivity|]. split; [exact Hd|].
  split; [eapply decodeCtyType_not_optional; eauto|].
  split; [exact Hg|].
  repeat split; intros; subst kind; rewrite Hg; unfold marks_optional;
    repeat match goal with H : flag _ = _ |- _ => rewrite H end;
    simpl; rewrite ?orb_true_r, ?andb_false_r; reflexivity.
Qed.

Lemma attribute_optionality_witness :
  exists o, blockToSchemaType flags_block ARGS = Ok o
            /\ obj_get "id" (properties o) = Some (OptionalType StringType)
            /\ obj_get "note" (properties o) = Some StringType.
Proof.
  destruct (blockToSchemaType flags_block ARGS) as [o|e] eqn:E; [|discriminate E].
  exists o. split; [reflexivity|].
  destruct (attribute_optionality flags_block ARGS o []
              [ {| name := Some "note"; type := Some (json_bytes (VStr "string"));
                   required := None; optional := None; computed := None |} ]
              {| name := Some "id"; type := Some (json_bytes (VStr "string"));
                 required := None; optional := None; computed := Some true |}
              "id" eq_refl E eq_refl eq_refl)
    as (ty & t & Hty & Ht & _ & _ & Hargs & _).
  { intros a' [<-|[]]; discriminate. }
  { intros _ nb []. }
  inversion Hty; subst ty. vm_compute in Ht. inversion Ht; subst t.
  split; [apply Hargs; reflexivity|].
  vm_compute in E. inversion E. reflexivity.
Defined.

(** C1, refuted as stated: under [ATTRS] the computed attribute [id] of
    [flags_block] is translated to a bare string type, not an optional one,
    and the attribute [note], which sets no flag, is translated to an
    optional type. *)
Lemma computed_attribute_required_in_state :
  exists o, blockToSchemaType flags_block ATTRS = Ok o
            /\ obj_get "id" (properties o) = Some StringType
            /\ is_optional StringType = false
            /\ obj_get "note" (properties o) = Some (OptionalType StringType).
Proof. eexists. vm_compute. repeat split. Qed.

(** C4. Translating with [ATTRS] never looks at the nested blocks: the
    result is that of the block without them, and its properties are exactly
    the attribute names.  Translating with [ARGS] yields a property for
    every nested block, besides the attributes; the property a nested block
    is the last to assign holds its inner object type (translated with
    [ARGS]) as it is for [SINGLE] and [GROUP], in an array for [LIST] and
    [SET] unless [maxItems] is 1 (then as it is), and in a map for [MAP],
    the whole marked optional unless [minItems] is positive and the mode is
    not [GROUP].  What is said of the properties holds of a block that
    assigns no name ['__proto__'], on which an assignment defines no
    property. *)
Theorem nested_blocks_by_kind (b : Block) :
  blockToSchemaType b ATTRS = blockToSchemaType (MkBlock (attributes b) None) ATTRS
  /\ (forall o, forallb settable (block_names b) = true ->
        blockToSchemaType b ATTRS = Ok o ->
        forall k, In k (obj_keys (properties o))
                  <-> exists a, In a (attributes_of b) /\ name a = Some k)
  /\ (forall o, forallb settable (block_names b) = true ->
        blockToSchemaType b ARGS = Ok o ->
        (forall k, In k (obj_keys (properties o))
                   <-> (exists a, In a (attributes_of b) /\ name a = Some k)
                       \/ (exists nb, In nb (blockTypes_of b) /\ typeName nb = Some k))
        /\ (forall pre nb post n,
              blockTypes_of b = (pre ++ nb :: post)%list ->
              typeName nb = Some n ->
              (forall nb', In nb' post -> typeName nb' <> Some n) ->
              exists innerBlock inner mode wrapped,
                block nb = Some innerBlock
                /\ blockToSchemaType innerBlock ARGS = Ok inner
                /\ nesting nb = Some mode
                /\ match mode with
                   | SINGLE | GROUP => wrapped = as_type inner
                   | LIST | SET =>
                       (maxItems nb = Some 1%Z -> wrapped = as_type inner)
                       /\ (maxItems nb <> Some 1%Z -> wrapped = ArrayType inner)
                   | MAP => wrapped = MapType inner
                   | INVALID => False
                   end
                /\ obj_get n (properties o)
                   = Some (if at_least_one nb then wrapped else OptionalType wrapped))).
Proof.
  split; [destruct b; reflexivity|]. split.
  - intros o _ Ho k. apply blockToSchemaType_ATTRS in Ho.
    rewrite (keyed_fold_keys _ _ _ name (attribute_entry ATTRS)
               (attribute_step_assigns ATTRS) _ _ _ k Ho).
    simpl. tauto.
  - intros o _ Ho. destruct (blockToSchemaType_ARGS _ _ Ho) as (attrs & Ha & Hnb). split.
    + intros k.
      rewrite (keyed_fold_keys _ _ _ typeName _ (nested_step_assigns _) _ _ _ k Hnb).
      rewrite (keyed_fold_keys _ _ _ name (attribute_entry ARGS)
                 (attribute_step_assigns ARGS) _ _ _ k Ha).
      simpl. tauto.
    + intros pre nb post n Hsplit Hn Hpost. rewrite Hsplit in Hnb.
      destruct (keyed_fold_last _ _ _ typeName _ (nested_step_assigns _)
                  _ _ _ _ _ _ Hnb Hn Hpost) as (v & Hv & Hg).
      unfold nested_entry in Hv.
      destruct (nestedBlockToSchemaType nb ARGS) as [t|e] eqn:Ht; [|discriminate].
      inversion Hv; subst v; clear Hv.
      destruct (nestedBlockToSchemaType_wrap _ _ _ Ht) as (ib & inner & mode & Hb & Hi & Hm & Hw).
      exists ib, inner, mode, t. repeat (split; [assumption|]). exact Hg.
Qed.

Lemma nested_blocks_by_kind_witness :
  exists o, blockToSchemaType nesting_block ARGS = Ok o
    /\ In "logging" (obj_keys (properties o))
    /\ obj_get "tags" (properties o)
       = Some (OptionalType (MapType (ObjectOf [("port", NumberType)]))).
Proof.
  destruct (blockToSchemaType nesting_block ARGS) as [o|e] eqn:E; [|discriminate E].
  exists o. split; [reflexivity|].
  destruct (nested_blocks_by_kind nesting_block) as (_ & _ & Hargs).
  destruct (Hargs o eq_refl E) as (Hkeys & Hlast). split.
  - apply Hkeys. right. exists (nested_block_of "logging" SET None (Some 1%Z)).
    split; [simpl; auto|reflexivity].
  - destruct (Hlast [nested_block_of "rule" LIST (Some 1%Z) None;
                     nested_block_of "logging" SET None (Some 1%Z)]
                    (nested_block_of "tags" MAP None None) [] "tags" eq_refl eq_refl)
      as (ib & inner & mode & wrapped & Hb & Hi & Hm & Hw & Hg).
    { intros nb' []. }
    inversion Hb; subst ib. inversion Hm; subst mode.
    vm_compute in Hi. inversion Hi; subst inner. subst wrapped. exact Hg.
Defined.

(** ** ctyToType *)

(** Induction on values, with the hypothesis available for every element of
    an array and every property of an object. *)
Lemma value_nested_ind (P : value -> Prop) :
  P VUndefined -> P VNull -> (forall b, P (VBool b)) -> (forall n, P (VNum n)) ->
  (forall s, P (VStr s)) ->
  (forall items, Forall P items -> P (VArr items)) ->
  (forall props, Forall (fun kv => P (snd kv)) props -> P (VObj props)) ->
  forall v, P v.
Proof.
  intros Hu Hn Hb Hz Hs Ha Ho.
  fix IH 1. intros [| | b | n | s | items | props].
  - exact Hu.
  - exact Hn.
  - apply Hb.
  - apply Hz.
  - apply Hs.
  - apply Ha. induction items as [|x l IHl]; constructor; [apply IH|exact IHl].
  - apply Ho. induction props as [|[k x] l IHl]; constructor; [apply IH|exact IHl].
Qed.

Lemma ctyToType_list (e : value) :
  ctyToType (VArr [VStr "list"; e]) = (t <- ctyToType e ;; Ok (ArrayType t)).
Proof. reflexivity. Qed.

Lemma ctyToType_set (e : value) :
  ctyToType (VArr [VStr "set"; e]) = (t <- ctyToType e ;; Ok (ArrayType t)).
Proof. reflexivity. Qed.

Lemma ctyToType_map (e : value) :
  ctyToType (VArr [VStr "map"; e]) = (t <- ctyToType e ;; Ok (MapType t)).
Proof. reflexivity. Qed.

Lemma ctyToType_atom (s : string) :
  recognized_atom s = false -> ctyToType (VStr s) = Err (UnknownTypeError (VStr s)).
Proof.
  unfold recognized_atom. intros H. simpl.
  destruct (s =? "any")%string; [discriminate|].
  destruct (s =? "bool")%string; [discriminate|].
  destruct (s =? "number")%string; [discriminate|].
  destruct (s =? "string")%string; [discriminate|reflexivity].
Qed.

Lemma by_tag_unrecognized schema tag element object :
  recognized_tag tag = false ->
  by_tag schema tag element object = Err (UnknownTypeError schema).
Proof.
  destruct tag; try reflexivity. simpl. intros H.
  destruct (s =? "list")%string; [discriminate|].
  destruct (s =? "map")%string; [discriminate|].
  destruct (s =? "set")%string; [discriminate|].
  destruct (s =? "object")%string; [discriminate|reflexivity].
Qed.

Lemma object_fields_decode (fields : list (string * value)) :
  Forall (fun kd => decodes_unless_unsupported (snd kd)) fields ->
  forallb (fun kd => descriptor (snd kd)) fields = true ->
  (existsb (fun kd => unsupported (snd kd)) fields = true ->
   fails_UnknownType (object_case ctyToType (VObj fields)))
  /\ (existsb (fun kd => unsupported (snd kd)) fields = false ->
      exists t, object_case ctyToType (VObj fields) = Ok t).
Proof.
  cbn [object_case]. generalize ([] : ObjectProperties).
  induction fields as [|[k d] l IH]; intros types HP Hwf.
  - split; [discriminate|]. intros _. eexists. reflexivity.
  - inversion HP as [|? ? Hd Hl]; subst. simpl in Hwf, Hd.
    apply andb_prop in Hwf as [Hwd Hwl].
    destruct (Hd Hwd) as [Hbad Hok]. cbn [existsb snd].
    destruct (unsupported d) eqn:Hm.
    + split; [|discriminate]. intros _.
      destruct (Hbad eq_refl) as (e & -> & He). exists e. split; [reflexivity|exact He].
    + destruct (Hok eq_refl) as [t Ht]. rewrite Ht. cbn [bind orb].
      apply IH; assumption.
Qed.

Lemma ctyToType_decodes_unless_unsupported (d : value) : decodes_unless_unsupported d.
Proof.
  enough (H : decodes_unless_unsupported d
              /\ match d with
                 | VObj fields => Forall (fun kd => decodes_unless_unsupported (snd kd)) fields
                 | _ => True
                 end) by apply H.
  induction d as [| | b | n | s | items IH | props IH] using value_nested_ind;
    unfold decodes_unless_unsupported; try (split; [simpl; discriminate|exact I]).
  - split; [|exact I]. intros _. simpl.
    destruct (String.eqb_spec s "any") as [->|Hany].
    { split; [|discriminate]. intros _. eexists. split; reflexivity. }
    destruct (String.eqb_spec s "bool") as [->|Hb]; [split; [discriminate|eexists; reflexivity]|].
    destruct (String.eqb_spec s "number") as [->|Hn]; [split; [discriminate|eexists; reflexivity]|].
    destruct (String.eqb_spec s "string") as [->|Hs]; [split; [discriminate|eexists; reflexivity]|].
    split; [|discriminate]. intros _. eexists. split; reflexivity.
  - split; [|exact I].
    destruct items as [|tag [|payload [|x rest]]]; try (simpl; discriminate);
      try (destruct tag; simpl; discriminate).
    destruct tag as [| | | |tag| |]; try (simpl; discriminate).
    inversion IH as [|? ? _ IH']; subst. inversion IH' as [|? ? [Hp Hfields] _]; subst.
    clear IH IH'. cbn [descriptor unsupported].
    assert (Helem : forall wrap : SchemaType -> SchemaType,
              descriptor payload = true ->
              (unsupported payload = true ->
               fails_UnknownType (t <- ctyToType payload ;; Ok (wrap t)))
              /\ (unsupported payload = false ->
                  exists t, (t <- ctyToType payload ;; Ok (wrap t)) = Ok t)).
    { intros wrap Hw. destruct (Hp Hw) as [Hbad Hok]. split.
      - intros Hm. destruct (Hbad Hm) as (e & -> & He). exists e. split; [reflexivity|exact He].
      - intros Hm. destruct (Hok Hm) as [t ->]. eexists. reflexivity. }
    destruct (String.eqb_spec tag "list") as [->|Hl].
    { rewrite ctyToType_list. apply Helem. }
    destruct (String.eqb_spec tag "map") as [->|Hm].
    { rewrite ctyToType_map. apply Helem. }
    destruct (String.eqb_spec tag "set") as [->|Hs].
    { rewrite ctyToType_set. apply Helem. }
    cbn [orb]. destruct (String.eqb_spec tag "object") as [->|Ho].
    + destruct payload as [| | | | | |fields]; try discriminate.
      intros Hw. change (ctyToType (VArr [VStr "object"; VObj fields]))
        with (object_case ctyToType (VObj fields)).
      now apply object_fields_decode.
    + intros _. split; [|discriminate]. intros _.
      eexists. split.
      * cbn [ctyToType]. apply by_tag_unrecognized. simpl.
        apply String.eqb_neq in Hl, Hm, Hs, Ho. now rewrite Hl, Hm, Hs, Ho.
      * reflexivity.
  - split; [simpl; discriminate|].
    eapply Forall_impl; [|exact IH]. intros kd H. apply H.
Qed.

(** C8. The decoder fails with an [UnknownType] error on the atom [any]
    and on every unrecognized atom or tag.  On a descriptor it fails, with
    that error, exactly when [any] or something unrecognized occurs in it
    (at the top or nested), and succeeds on every other descriptor; [list]
    and [set] both give an array of the decoded element type and [map] gives
    a map. *)
Theorem ctyToType_total_on_descriptors :
  fails_UnknownType (ctyToType (VStr "any"))
  /\ (forall s, recognized_atom s = false -> fails_UnknownType (ctyToType (VStr s)))
  /\ (forall tag rest, recognized_tag tag = false ->
        fails_UnknownType (ctyToType (VArr (tag :: rest))))
  /\ (forall d, descriptor d = true ->
        (unsupported d = true -> fails_UnknownType (ctyToType d))
        /\ (unsupported d = false -> exists t, ctyToType d = Ok t))
  /\ (forall e, ctyToType (VArr [VStr "list"; e]) = (t <- ctyToType e ;; Ok (ArrayType t)))
  /\ (forall e, ctyToType (VArr [VStr "set"; e]) = (t <- ctyToType e ;; Ok (ArrayType t)))
  /\ (forall e, ctyToType (VArr [VStr "map"; e]) = (t <- ctyToType e ;; Ok (MapType t))).
Proof.
  split; [eexists; split; reflexivity|]. split.
  { intros s Hs. eexists. split; [now apply ctyToType_atom|reflexivity]. }
  split.
  { intros tag rest Ht. eexists. split.
    - cbn [ctyToType]. now apply by_tag_unrecognized.
    - reflexivity. }
  split; [exact ctyToType_decodes_unless_unsupported|].
  split; [exact ctyToType_list|]. split; [exact ctyToType_set|exact ctyToType_map].
Qed.

Lemma ctyToType_total_on_descriptors_witness :
  let d := VArr [VStr "object";
                 VObj [("ports", VArr [VStr "set"; VStr "number"]);
                       ("labels", VArr [VStr "map"; VStr "string"])]] in
  exists t, ctyToType d = Ok t.
Proof.
  intros d.
  destruct ctyToType_total_on_descriptors as (_ & _ & _ & Hwf & _).
  apply (Hwf d); reflexivity.
Defined.

(** ** The façade *)

Lemma guarded_surfaces {A} (p : Prog A) : guarded p -> surfaces_diagnostics p.
Proof.
  unfold surfaces_diagnostics. induction p as [a|e|R c k IH]; simpl; intros G rpc x Hin Hd.
  - destruct Hin.
  - destruct Hin.
  - destruct (rpc R c) as [r|e] eqn:E.
    + destruct (G r) as [Gk Hthrow].
      destruct (run rpc (k r)) as [trace out] eqn:Erun. simpl in *.
      destruct Hin as [<-|Hin].
      * simpl in Hd. specialize (Hthrow Hd). rewrite Hthrow in Erun. simpl in Erun.
        inversion Erun. reflexivity.
      * specialize (IH r Gk rpc x). rewrite Erun in IH. now apply IH.
    + simpl in Hin. destruct Hin as [<-|[]]. simpl in Hd. contradiction.
Qed.

Lemma guarded_bind_lift {A B} (r : Result A) (f : A -> Prog B) :
  (forall a, guarded (f a)) -> guarded (pbind (lift r) f).
Proof. destruct r; simpl; auto. Qed.

Lemma guarded_lift {A} (r : Result A) : guarded (lift r).
Proof. destruct r; exact I. Qed.

Lemma guarded_checked {R B} `{HasDiagnostics R} (c : rpcE R) (f : R -> Prog B) :
  (forall r, answer_diagnostics c r = diagnostics_of r) ->
  (forall r, guarded (f r)) ->
  guarded (pbind (call c) (fun res => pbind (lift (throwDiagnosticErrors res)) f)).
Proof.
  intros Hc Hf. simpl. intros r. unfold throwDiagnosticErrors. rewrite Hc.
  destruct (diagnostics_of r) as [|d ds]; simpl.
  - split; [apply Hf|]. intros Hne. now contradiction Hne.
  - split; [exact I|reflexivity].
Qed.

Lemma guarded_checked_last {R} `{HasDiagnostics R} (c : rpcE R) :
  (forall r, answer_diagnostics c r = diagnostics_of r) ->
  guarded (pbind (call c) (fun res => lift (throwDiagnosticErrors res))).
Proof.
  intros Hc. simpl. intros r. unfold throwDiagnosticErrors. rewrite Hc.
  destruct (diagnostics_of r) as [|d ds]; simpl.
  - split; [exact I|]. intros Hne. now contradiction Hne.
  - split; [exact I|reflexivity].
Qed.

Ltac check_guarded :=
  repeat first
    [ exact I
    | apply guarded_lift
    | apply guarded_checked_last; [reflexivity]
    | apply guarded_checked; [reflexivity | intros ?]
    | apply guarded_bind_lift; intros ?
    | match goal with
      | |- guarded (if ?b then _ else _) => destruct b
      | |- guarded (match ?x with _ => _ end) => destruct x
      end ].

Section FacadeFacts.
Context {msgpack : Msgpack} {validator : Validator}.
Variable this : Provider.

Lemma getSchema_guarded : guarded getSchema.
Proof. unfold getSchema. check_guarded. Qed.

Lemma applyResourceChange_guarded typeName priorState plannedState private :
  guarded (applyResourceChange typeName priorState plannedState private).
Proof. unfold applyResourceChange. check_guarded. Qed.

Lemma configure_guarded config : guarded (configure this config).
Proof. unfold configure. check_guarded. Qed.

Lemma importResourceState_guarded typeName id : guarded (importResourceState typeName id).
Proof. unfold importResourceState. check_guarded. Qed.

Lemma planResourceChange_guarded typeName priorState proposedNewState private :
  guarded (planResourceChange this typeName priorState proposedNewState private).
Proof. unfold planResourceChange. check_guarded. Qed.

Lemma readDataSource_guarded typeName config : guarded (readDataSource this typeName config).
Proof. unfold readDataSource. check_guarded. Qed.

Lemma readResource_guarded typeName currentState private :
  guarded (readResource this typeName currentState private).
Proof. unfold readResource. check_guarded. Qed.

Lemma upgradeResourceState_guarded typeName version state :
  guarded (upgradeResourceState typeName version state).
Proof. unfold upgradeResourceState. check_guarded. Qed.

End FacadeFacts.

Section FacadeOutcomes.
Context {msgpack : Msgpack} {validator : Validator}.
Variable this : Provider.
Variable rpc : Transport.

Lemma readDataSource_unknown_type typeName config :
  obj_get typeName (dataSourceSchemas this) = None ->
  run rpc (readDataSource this typeName config)
  = ([], Err (TypeError ("Invalid data source type " ++ typeName))).
Proof. intros H. unfold readDataSource. now rewrite H. Qed.

Lemma readResource_unknown_type typeName currentState private :
  obj_get typeName (resourceStateSchemas this) = None ->
  run rpc (readResource this typeName currentState private)
  = ([], Err (TypeError ("Invalid resource type " ++ typeName))).
Proof. intros H. unfold readResource. now rewrite H. Qed.

Lemma planResourceChange_unknown_type typeName priorState proposedNewState private :
  obj_get typeName (resourceStateSchemas this) = None ->
  run rpc (planResourceChange this typeName priorState proposedNewState private)
  = ([], Err (TypeError ("Invalid resource type " ++ typeName))).
Proof. intros H. unfold planResourceChange. now rewrite H. Qed.

Lemma applyResourceChange_calls typeName priorState plannedState private p1 p2 :
  pack priorState = Ok p1 ->
  pack plannedState = Ok p2 ->
  exists answer rest,
    fst (run rpc (applyResourceChange typeName priorState plannedState private))
    = exchange
        (ApplyResourceChangeE
           {| ApplyResourceChange.Request.typeName := typeName;
              ApplyResourceChange.Request.priorState :=
                {| dv_msgpack := Present p1; dv_json := Undefined |};
              ApplyResourceChange.Request.plannedState :=
                {| dv_msgpack := Present p2; dv_json := Undefined |};
              ApplyResourceChange.Request.priorPrivate := privateData private |})
        answer :: rest.
Proof.
  intros H1 H2. unfold applyResourceChange, toDynamic. rewrite H1, H2. simpl.
  match goal with |- context [rpc ?R ?c] => destruct (rpc R c) as [res|e] end.
  - match goal with |- context [run rpc ?p] => destruct (run rpc p) as [trace out] end.
    simpl. eauto.
  - simpl. eauto.
Qed.

End FacadeOutcomes.

(** C5 (what the code does). With a type name that is missing from the
    schema table and that the table does not inherit from
    [Object.prototype] either, [readDataSource], [readResource] and
    [planResourceChange] fail with 'Invalid ... type' before anything is
    sent; [applyResourceChange] consults no table and sends its request
    whatever the name. *)
Theorem applyResourceChange_skips_lookup {msgpack : Msgpack} {validator : Validator}
  (this : Provider) (rpc : Transport) (typeName : string) :
  (obj_get typeName (dataSourceSchemas this) = None ->
   inherited typeName = false ->
   forall config,
     run rpc (readDataSource this typeName config)
     = ([], Err (TypeError ("Invalid data source type " ++ typeName))))
  /\ (obj_get typeName (resourceStateSchemas this) = None ->
      (inherited typeName = false ->
       forall currentState private,
         run rpc (readResource this typeName currentState private)
         = ([], Err (TypeError ("Invalid resource type " ++ typeName))))
      /\ (inherited typeName = false ->
          forall priorState proposedNewState private,
            run rpc (planResourceChange this typeName priorState proposedNewState private)
            = ([], Err (TypeError ("Invalid resource type " ++ typeName))))
      /\ (forall priorState plannedState private p1 p2,
            pack priorState = Ok p1 ->
            pack plannedState = Ok p2 ->
            exists req answer rest,
              fst (run rpc (applyResourceChange typeName priorState plannedState private))
              = exchange (ApplyResourceChangeE req) answer :: rest
              /\ ApplyResourceChange.Request.typeName req = typeName)).
Proof.
  split; [intros H _ config; now apply readDataSource_unknown_type|].
  intros H. split; [intros; now apply readResource_unknown_type|].
  split; [intros; now apply planResourceChange_unknown_type|].
  intros priorState plannedState private p1 p2 H1 H2.
  destruct (applyResourceChange_calls rpc typeName priorState plannedState private p1 p2 H1 H2)
    as (answer & rest & Hrun).
  eexists. exists answer, rest. split; [exact Hrun|reflexivity].
Qed.

Lemma applyResourceChange_skips_lookup_witness :
  exists req answer rest,
    fst (run silent (applyResourceChange (msgpack := Fixpack.codec) "gadget" VNull
                       (VObj [("id", VStr "x")]) None))
    = exchange (ApplyResourceChangeE req) answer :: rest
    /\ ApplyResourceChange.Request.typeName req = "gadget".
Proof.
  destruct (applyResourceChange_skips_lookup (msgpack := Fixpack.codec)
              (validator := Structural.validator) widget_provider silent "gadget")
    as (_ & H).
  destruct (H eq_refl) as (_ & _ & Happly).
  eapply Happly; reflexivity.
Defined.

(** C6. When the answer to [readResource] has no [newState] (and no
    diagnostics), the method resolves to [undefined].  The other read, plan
    and apply methods fail on an absent state instead: [readDataSource] with
    'Unable to read state from data source', [planResourceChange] and
    [applyResourceChange] with 'Unable to read planned state'. *)
Theorem absent_state_by_operation {msgpack : Msgpack} {validator : Validator}
  (this : Provider) (rpc : Transport) :
  (forall typeName schema currentState private packed res,
     obj_get typeName (resourceStateSchemas this) = Some schema ->
     pack currentState = Ok packed ->
     (forall req, rpc _ (ReadResourceE req) = Ok res) ->
     ReadResource.Response.diagnostics res = [] ->
     absent (ReadResource.Response.newState res) ->
     snd (run rpc (readResource this typeName currentState private)) = Ok VUndefined)
  /\ (forall typeName schema config packed res,
        obj_get typeName (dataSourceSchemas this) = Some schema ->
        validateOrThrow schema (VObj config) = Ok tt ->
        pack (VObj (optionalsToNulls config schema)) = Ok packed ->
        (forall req, rpc _ (ReadDataSourceE req) = Ok res) ->
        ReadDataSource.Response.diagnostics res = [] ->
        absent (ReadDataSource.Response.state res) ->
        snd (run rpc (readDataSource this typeName config))
        = Err (Error "Unable to read state from data source"))
  /\ (forall typeName schema priorState proposedNewState private p1 p2 res,
        obj_get typeName (resourceStateSchemas this) = Some schema ->
        pack priorState = Ok p1 ->
        pack proposedNewState = Ok p2 ->
        (forall req, rpc _ (PlanResourceChangeE req) = Ok res) ->
        PlanResourceChange.Response.diagnostics res = [] ->
        absent (PlanResourceChange.Response.plannedState res) ->
        snd (run rpc (planResourceChange this typeName priorState proposedNewState private))
        = Err (Error "Unable to read planned state"))
  /\ (forall typeName priorState plannedState private p1 p2 res,
        pack priorState = Ok p1 ->
        pack plannedState = Ok p2 ->
        (forall req, rpc _ (ApplyResourceChangeE req) = Ok res) ->
        ApplyResourceChange.Response.diagnostics res = [] ->
        absent (ApplyResourceChange.Response.newState res) ->
        snd (run rpc (applyResourceChange typeName priorState plannedState private))
        = Err (Error "Unable to read planned state")).
Proof.
  repeat split.
  - intros typeName schema currentState private packed res Hs Hp Hrpc Hd Habs.
    unfold readResource, toDynamic. rewrite Hs, Hp. simpl. rewrite Hrpc.
    unfold throwDiagnosticErrors, diagnostics_of, diag_ReadResource. rewrite Hd. simpl.
    destruct Habs as [-> | ->]; reflexivity.
  - intros typeName schema config packed res Hs Hv Hp Hrpc Hd Habs.
    unfold readDataSource, toDynamic. rewrite Hs, Hv. simpl. rewrite Hp. simpl. rewrite Hrpc.
    unfold throwDiagnosticErrors, diagnostics_of, diag_ReadDataSource. rewrite Hd. simpl.
    destruct Habs as [-> | ->]; reflexivity.
  - intros typeName schema priorState proposedNewState private p1 p2 res Hs H1 H2 Hrpc Hd Habs.
    unfold planResourceChange, toDynamic. rewrite Hs, H1, H2. simpl. rewrite Hrpc.
    unfold throwDiagnosticErrors, diagnostics_of, diag_PlanResourceChange. rewrite Hd. simpl.
    destruct Habs as [-> | ->]; reflexivity.
  - intros typeName priorState plannedState private p1 p2 res H1 H2 Hrpc Hd Habs.
    unfold applyResourceChange, toDynamic. rewrite H1, H2. simpl. rewrite Hrpc.
    unfold throwDiagnosticErrors, diagnostics_of, diag_ApplyResourceChange. rewrite Hd. simpl.
    destruct Habs as [-> | ->]; reflexivity.
Qed.

Lemma absent_state_by_operation_witness :
  let res := {| ReadResource.Response.newState := Null;
                ReadResource.Response.diagnostics := [];
                ReadResource.Response.private := Undefined |} in
  snd (run (read_answer res)
         (readResource (msgpack := Fixpack.codec) widget_provider "widget"
            (VObj [("id", VStr "x")]) None))
  = Ok VUndefined.
Proof.
  intros res.
  destruct (absent_state_by_operation (msgpack := Fixpack.codec)
              (validator := Structural.validator) widget_provider (read_answer res))
    as (Hread & _).
  eapply Hread; try reflexivity. left. reflexivity.
Defined.

(** C2 (what the code does). With a private mapping, the plan request
    carries under [priorPrivate] the bytes of its JSON text.  When the
    answer's [plannedPrivate] is empty or left out, decoding it throws a
    [SyntaxError] ([JSON.parse] of the empty text), and a [null] field
    throws a [TypeError]; the fallback to an empty mapping is reached only
    when the bytes parse to [null]. *)
Theorem planResourceChange_private {msgpack : Msgpack} {validator : Validator}
  (this : Provider) (rpc : Transport) (typeName : string) (schema : ObjectType)
  (priorState proposedNewState : value) (private : obj value) (p1 p2 : Buffer)
  (res : PlanResourceChange.Response.t) (state : value) :
  obj_get typeName (resourceStateSchemas this) = Some schema ->
  pack priorState = Ok p1 ->
  pack proposedNewState = Ok p2 ->
  rpc _ (PlanResourceChangeE (plan_request typeName p1 p2 (Some private))) = Ok res ->
  PlanResourceChange.Response.diagnostics res = [] ->
  fromDynamic (PlanResourceChange.Response.plannedState res) = Ok state ->
  truthy state = true ->
  let method := planResourceChange this typeName priorState proposedNewState (Some private) in
  PlanResourceChange.Request.priorPrivate (plan_request typeName p1 p2 (Some private))
  = Present (Text.encode (JSON.stringify (VObj private)))
  /\ fst (run rpc method)
     = [exchange (PlanResourceChangeE (plan_request typeName p1 p2 (Some private))) (Ok res)]
  /\ (PlanResourceChange.Response.plannedPrivate res = Present []
      \/ PlanResourceChange.Response.plannedPrivate res = Undefined ->
      snd (run rpc method) = Err SyntaxError)
  /\ (PlanResourceChange.Response.plannedPrivate res = Null ->
      exists message, snd (run rpc method) = Err (TypeError message))
  /\ (forall bytes text parsed,
        PlanResourceChange.Response.plannedPrivate res = Present bytes ->
        Text.decode (Present bytes) = Ok text ->
        JSON.parse text = Ok parsed ->
        snd (run rpc method)
        = Ok {| PlanResourceChange.Return.plannedState := state;
                PlanResourceChange.Return.plannedPrivate := nullish_or parsed (VObj []);
                PlanResourceChange.Return.requiresReplace :=
                  PlanResourceChange.Response.requiresReplace res |}).
Proof.
  intros Hs H1 H2 Hrpc Hd Hstate Htruthy method.
  split; [reflexivity|].
  assert (Hrun : run rpc method
                 = ([exchange (PlanResourceChangeE (plan_request typeName p1 p2 (Some private)))
                       (Ok res)],
                    plannedPrivate <-
                      parsePrivate (PlanResourceChange.Response.plannedPrivate res) ;;
                    Ok {| PlanResourceChange.Return.plannedState := state;
                          PlanResourceChange.Return.plannedPrivate := plannedPrivate;
                          PlanResourceChange.Return.requiresReplace :=
                            PlanResourceChange.Response.requiresReplace res |})).
  { unfold method, planResourceChange, toDynamic. rewrite Hs, H1, H2.
    cbn [pbind lift call run bind].
    fold (plan_request typeName p1 p2 (Some private)). rewrite Hrpc.
    unfold throwDiagnosticErrors, diagnostics_of, diag_PlanResourceChange. rewrite Hd. simpl.
    rewrite Hstate. simpl. rewrite Htruthy. simpl.
    destruct (parsePrivate _); reflexivity. }
  rewrite Hrun. cbn [fst snd]. split; [reflexivity|]. split; [|split].
  - intros [-> | ->]; reflexivity.
  - intros ->. eexists. reflexivity.
  - intros bytes text parsed -> Ht Hp. unfold parsePrivate. rewrite Ht. cbn [bind].
    rewrite Hp. reflexivity.
Qed.

Lemma planResourceChange_private_witness :
  let res := {| PlanResourceChange.Response.plannedState :=
                  Present {| dv_msgpack := Present [x81; xa2; x69; x64; xa1; x78];
                             dv_json := Undefined |};
                PlanResourceChange.Response.requiresReplace := [];
                PlanResourceChange.Response.plannedPrivate := Present [];
                PlanResourceChange.Response.diagnostics := [] |} in
  let method := planResourceChange (msgpack := Fixpack.codec) widget_provider "widget"
                  VNull (VObj [("id", VStr "x")]) (Some [("tag", VStr "x")]) in
  PlanResourceChange.Request.priorPrivate
    (plan_request "widget" [xc0] [x81; xa2; x69; x64; xa1; x78] (Some [("tag", VStr "x")]))
  = Present (Text.encode (JSON.stringify (VObj [("tag", VStr "x")])))
  /\ snd (run (plan_answer res) method) = Err SyntaxError.
Proof.
  intros res method.
  destruct (planResourceChange_private (msgpack := Fixpack.codec)
              (validator := Structural.validator) widget_provider (plan_answer res)
              "widget" (T.object [("id", T.string)]) VNull (VObj [("id", VStr "x")])
              [("tag", VStr "x")] [xc0] [x81; xa2; x69; x64; xa1; x78] res
              (VObj [("id", VStr "x")])
              eq_refl eq_refl eq_refl eq_refl eq_refl eq_refl eq_refl)
    as (Hreq & _ & Hempty & _).
  split; [exact Hreq|]. apply Hempty. left. reflexivity.
Defined.

Example private_mapping_bytes :
  privateData (Some [("tag", VStr "x")])
  = Present [x7b; x22; x74; x61; x67; x22; x3a; x22; x78; x22; x7d].
Proof. reflexivity. Qed.

Example parse_empty_text : JSON.parse EmptyString = Err SyntaxError.
Proof. reflexivity. Qed.

Example parsePrivate_null_text : parsePrivate (Present [x6e; x75; x6c; x6c]) = Ok (VObj []).
Proof. reflexivity. Qed.

Example decode_list_of_strings :
  decodeCtyType (json_bytes (VArr [VStr "list"; VStr "string"])) = Ok (ArrayType StringType).
Proof. reflexivity. Qed.

(** ** JSON: reading back what was written *)

Lemma append_assoc (a b c : string) : (a ++ b) ++ c = a ++ (b ++ c).
Proof. induction a as [|x a IH]; simpl; [reflexivity|now rewrite IH]. Qed.

Lemma append_nil_r (a : string) : a ++ EmptyString = a.
Proof. induction a as [|x a IH]; simpl; [reflexivity|now rewrite IH]. Qed.

Lemma length_append (a b : string) :
  String.length (a ++ b) = (String.length a + String.length b)%nat.
Proof. induction a as [|x a IH]; simpl; [reflexivity|now rewrite IH]. Qed.

Lemma parse_chars_quote_char (c : ascii) (r : string) :
  JSON.parse_chars (JSON.quote_char c ++ r)
  = ('(str, rest) <- JSON.parse_chars r ;; Ok (String c str, rest)).
Proof.
  destruct c as [[] [] [] [] [] [] [] []]; cbn; destruct (JSON.parse_chars r) as [[? ?]|]; reflexivity.
Qed.

Lemma parse_chars_quote (s rest : string) :
  JSON.parse_chars (JSON.quote_chars s ++ String JSON.dquote rest) = Ok (s, rest).
Proof.
  induction s as [|c s IH]; [reflexivity|].
  cbn [JSON.quote_chars]. rewrite append_assoc, parse_chars_quote_char, IH. reflexivity.
Qed.

Lemma delimited_ends_numeral rest : delimited rest -> ends_numeral rest.
Proof.
  destruct rest as [|c r]; simpl; [trivial|].
  intros [->|[->| ->]]; repeat split; discriminate.
Qed.

Lemma scan_digits_stop (rest : string) :
  ends_numeral rest -> JSON.scan_digits rest = (Nil, rest).
Proof.
  destruct rest as [|c r]; [reflexivity|]. cbn [JSON.scan_digits ends_numeral].
  intros [Hd _]. destruct (JSON.scan_digits r) as [d rest'].
  destruct (uint_of_char c (Some d)); [now rewrite Hd|reflexivity].
Qed.

Lemma scan_digits_uint (d : uint) (rest : string) :
  ends_numeral rest ->
  JSON.scan_digits (NilEmpty.string_of_uint d ++ rest) = (d, rest).
Proof.
  intros H. induction d; cbn [NilEmpty.string_of_uint append];
    [now apply scan_digits_stop| ..];
    cbn [JSON.scan_digits]; rewrite IHd; reflexivity.
Qed.

Lemma to_uint_head (p : positive) :
  exists c r, NilEmpty.string_of_uint (Pos.to_uint p) = String c r
              /\ JSON.is_digit c = true /\ c <> "0"%char.
Proof.
  pose proof (DecimalPos.Unsigned.to_uint_nonzero p) as Hz.
  pose proof (DecimalPos.Unsigned.to_of (Pos.to_uint p)) as Hn.
  rewrite DecimalPos.Unsigned.of_to in Hn. simpl in Hn.
  destruct (Pos.to_uint p) as [|u|u|u|u|u|u|u|u|u|u] eqn:E;
    try (eexists; eexists; split; [reflexivity|split; [reflexivity|discriminate]]).
  - exfalso. symmetry in Hn. now apply unorm_nonnil in Hn.
  - exfalso. rewrite unorm_D0 in Hn.
    assert (Hnz : nzhead u = Nil).
    { destruct (nzhead u) eqn:En; [reflexivity| ..];
        unfold unorm in Hn; rewrite En in Hn;
        try discriminate Hn.
      exfalso. eapply nzhead_nonzero. exact En. }
    unfold unorm in Hn. rewrite Hnz in Hn. apply Hz. now rewrite <- Hn.
Qed.

Lemma parse_int_nonneg (n : Z) (rest : string) :
  (0 <= n)%Z -> ends_numeral rest ->
  JSON.parse_int (JSON.number_to_string n ++ rest) = Ok (n, rest).
Proof.
  intros Hn Hrest. destruct n as [|p|p]; [reflexivity| |lia].
  unfold JSON.number_to_string. cbn [Z.to_int NilZero.string_of_int].
  destruct (to_uint_head p) as (c & r & E & Hd & H0).
  assert (Hs : NilZero.string_of_uint (Pos.to_uint p) = NilEmpty.string_of_uint (Pos.to_uint p)).
  { unfold NilZero.string_of_uint. destruct (Pos.to_uint p); [discriminate E|reflexivity..]. }
  rewrite Hs. unfold JSON.parse_int.
  destruct (NilEmpty.string_of_uint (Pos.to_uint p) ++ rest) as [|c' r'] eqn:E'.
  { rewrite E in E'. discriminate E'. }
  assert (c' = c) as -> by (rewrite E in E'; now inversion E').
  destruct (Ascii.eqb_spec c "0"%char); [contradiction|]. rewrite Hd.
  rewrite <- E', scan_digits_uint by assumption.
  unfold Z.of_uint. now rewrite DecimalPos.Unsigned.of_to.
Qed.

Lemma number_to_string_neg (p : positive) :
  JSON.number_to_string (Z.neg p) = String "-" (JSON.number_to_string (Z.pos p)).
Proof. reflexivity. Qed.

Lemma number_to_string_head (n : Z) :
  exists c r, JSON.number_to_string n = String c r
              /\ ((c =? "-")%char || JSON.is_digit c = true)
              /\ (n < 0 -> c = "-"%char)%Z /\ (0 <= n -> c <> "-"%char)%Z.
Proof.
  destruct n as [|p|p].
  - exists "0"%char, EmptyString. repeat split; [lia|discriminate].
  - destruct (to_uint_head p) as (c & r & E & Hd & H0).
    exists c, r. unfold JSON.number_to_string. cbn [Z.to_int NilZero.string_of_int].
    unfold NilZero.string_of_uint.
    destruct (Pos.to_uint p) eqn:Ep; [discriminate E| ..]; rewrite E;
      (split; [reflexivity|]); rewrite Hd, orb_true_r; (split; [reflexivity|]);
      (split; [lia|]); intros _ ->; discriminate Hd.
  - eexists. eexists. rewrite number_to_string_neg. repeat split. lia.
Qed.

Lemma parse_number_integer (n : Z) (rest : string) :
  (Z.abs n <=? JSON.MAX_SAFE_INTEGER)%Z = true -> ends_numeral rest ->
  JSON.parse_number (JSON.number_to_string n ++ rest) = Ok (VNum n, rest).
Proof.
  intros Hsafe Hrest. unfold JSON.parse_number.
  assert (Hint : match JSON.number_to_string n ++ rest with
                 | String c r =>
                     if (c =? "-")%char
                     then '(m, rest0) <- JSON.parse_int r ;; Ok ((- m)%Z, rest0)
                     else JSON.parse_int (JSON.number_to_string n ++ rest)
                 | EmptyString => Err SyntaxError
                 end = Ok (n, rest)).
  { destruct (Z_lt_le_dec n 0) as [Hneg|Hpos].
    - destruct n as [|p|p]; try lia. rewrite number_to_string_neg.
      cbn [append]. cbn [Ascii.eqb Bool.eqb andb].
      rewrite parse_int_nonneg by (assumption || lia). reflexivity.
    - destruct (number_to_string_head n) as (c & r & E & _ & _ & Hc).
      rewrite E. cbn [append]. destruct (Ascii.eqb_spec c "-"%char) as [->|_].
      + now contradiction (Hc Hpos).
      + change (String c (r ++ rest)) with (String c r ++ rest). rewrite <- E.
        now apply parse_int_nonneg. }
  match goal with |- bind ?m _ = _ => replace m with (Ok (n, rest) : Result (Z * string)) end.
  cbn [bind]. rewrite Hsafe.
  destruct rest as [|c r]; [reflexivity|].
  destruct Hrest as (_ & H1 & H2 & H3).
  destruct (Ascii.eqb_spec c "."%char); [contradiction|].
  destruct (Ascii.eqb_spec c "e"%char); [contradiction|].
  destruct (Ascii.eqb_spec c "E"%char); [contradiction|]. reflexivity.
Qed.

Lemma starts_value_facts (c : ascii) :
  starts_value c = true ->
  JSON.is_ws c = false /\ c <> "]"%char /\ c <> "}"%char /\ byte_of_ascii c <> xef.
Proof.
  destruct c as [[] [] [] [] [] [] [] []]; intros H; try discriminate H;
    repeat split; discriminate.
Qed.

Lemma serialize_head (v : value) :
  exists c r, JSON.serialize v = String c r /\ starts_value c = true.
Proof.
  destruct v as [| |[]|n|s|items|props]; try (eexists; eexists; split; reflexivity).
  cbn [JSON.serialize].
  destruct (number_to_string_head n) as (c & r & E & Hc & _).
  exists c, r. split; [exact E|].
  unfold starts_value. apply orb_prop in Hc as [Hc|Hc]; rewrite Hc;
    rewrite ?orb_true_r; reflexivity.
Qed.

Lemma parse_value_numeral (fuel : nat) (c : ascii) (r : string) :
  (c =? "-")%char || JSON.is_digit c = true ->
  JSON.parse_value (S fuel) (String c r) = JSON.parse_number (String c r).
Proof.
  destruct c as [[] [] [] [] [] [] [] []]; intros H; try discriminate H; reflexivity.
Qed.

Lemma skip_ws_value (c : ascii) (r : string) :
  JSON.is_ws c = false -> JSON.skip_ws (String c r) = String c r.
Proof. intros H. cbn [JSON.skip_ws]. now rewrite H. Qed.

Lemma parse_value_array (fuel : nat) (c : ascii) (r : string) :
  JSON.is_ws c = false -> c <> "]"%char ->
  JSON.parse_value (S fuel) (String "[" (String c r))
  = ('(items, rest) <- JSON.parse_elements fuel (String c r) ;; Ok (VArr items, rest)).
Proof.
  intros Hws Hc. cbn [JSON.parse_value].
  rewrite (skip_ws_value "["%char _ eq_refl), (skip_ws_value c r Hws).
  destruct (Ascii.eqb_spec c "]"%char); [contradiction|]. reflexivity.
Qed.

Lemma parse_value_object (fuel : nat) (r : string) :
  JSON.parse_value (S fuel) (String "{" (String JSON.dquote r))
  = JSON.parse_members fuel [] (String JSON.dquote r).
Proof. reflexivity. Qed.

Lemma serialize_object (props : list (string * value)) :
  JSON.serialize (VObj props) = "{" ++ JSON.join "," (member_texts props) ++ "}".
Proof. reflexivity. Qed.

Lemma member_texts_cons (k : string) (x : value) (l : list (string * value)) :
  json_value x = true ->
  member_texts ((k, x) :: l) = (JSON.quote k ++ ":" ++ JSON.serialize x) :: member_texts l.
Proof. destruct x; try reflexivity. discriminate. Qed.

Lemma distinct_NoDup (l : list string) : distinct l = true -> NoDup l.
Proof.
  induction l as [|x l IH]; simpl; [constructor|].
  intros H. apply andb_prop in H as [Hx Hl]. constructor; [|now apply IH].
  intros Hin. apply negb_true_iff in Hx.
  assert (existsb (String.eqb x) l = true); [|congruence].
  apply existsb_exists. exists x. split; [exact Hin|apply String.eqb_refl].
Qed.

Lemma elements_read_back (items : list value) :
  items <> [] ->
  Forall reads_back items ->
  forallb json_value items = true ->
  forall fuel rest,
    (list_sum (map (fun x => S (weight x)) items) <= fuel)%nat ->
    JSON.parse_elements fuel (JSON.join "," (map JSON.serialize items) ++ String "]" rest)
    = Ok (items, rest).
Proof.
  induction items as [|x xs IH]; [congruence|].
  intros _ HF Hj fuel rest Hfuel.
  inversion HF as [|? ? Hx Hxs]; subst. cbn [forallb] in Hj.
  apply andb_prop in Hj as [Hjx Hjxs].
  simpl in Hfuel. destruct fuel as [|f]; [lia|].
  destruct xs as [|y ys].
  - cbn [map JSON.join JSON.parse_elements].
    rewrite (Hx Hjx f (String "]" rest)); [reflexivity|lia|].
    right. left. reflexivity.
  - change (JSON.join "," (map JSON.serialize (x :: y :: ys)))
      with (JSON.serialize x ++ "," ++ JSON.join "," (map JSON.serialize (y :: ys))).
    rewrite !append_assoc. cbn [JSON.parse_elements].
    rewrite (Hx Hjx f); [|lia|left; reflexivity].
    cbn [bind]. change (("," ++ ?s)%string) with (String "," s).
    cbn [append JSON.skip_ws]. change (JSON.is_ws ",") with false. cbv iota.
    change (("," =? ",")%char) with true. cbv iota.
    rewrite IH; [reflexivity|discriminate|assumption|assumption|lia].
Qed.

Lemma members_read_back (props : list (string * value)) :
  props <> [] ->
  Forall (fun kv => reads_back (snd kv)) props ->
  forallb (fun kv => json_value (snd kv)) props = true ->
  forall (acc : obj value) fuel rest,
    NoDup (obj_keys (acc ++ props)%list) ->
    (list_sum (map (fun kv => S (weight (snd kv))) props) <= fuel)%nat ->
    JSON.parse_members fuel acc (JSON.join "," (member_texts props) ++ String "}" rest)
    = Ok (VObj (acc ++ props)%list, rest).
Proof.
  induction props as [|[k x] l IH]; [congruence|].
  intros _ HF Hj acc fuel rest Hnd Hfuel.
  inversion HF as [|? ? Hx Hl]; subst. cbn [forallb snd] in Hj. cbn [snd] in Hx.
  apply andb_prop in Hj as [Hjx Hjl].
  simpl in Hfuel. destruct fuel as [|f]; [lia|].
  assert (Hfresh : ~ In k (obj_keys acc)).
  { unfold obj_keys in Hnd. rewrite map_app in Hnd. cbn [map fst] in Hnd.
    apply NoDup_remove_2 in Hnd. intros Hin. apply Hnd, in_or_app. now left. }
  assert (Hset : obj_set k x acc = (acc ++ [(k, x)])%list) by now apply obj_set_fresh.
  rewrite (member_texts_cons k x l Hjx).
  assert (Hkey : forall tail,
             JSON.parse_members (S f) acc
               (JSON.quote k ++ ":" ++ JSON.serialize x ++ tail)
             = ('(v, r3) <- JSON.parse_value f (JSON.serialize x ++ tail) ;;
                match JSON.skip_ws r3 with
                | EmptyString => Err SyntaxError
                | String c3 r4 =>
                    if (c3 =? ",")%char then JSON.parse_members f (obj_set k v acc) r4
                    else if (c3 =? "}")%char then Ok (VObj (obj_set k v acc), r4)
                    else Err SyntaxError
                end)).
  { intros tail. unfold JSON.quote. cbn [append JSON.parse_members].
    rewrite (skip_ws_value JSON.dquote _ eq_refl).
    change ((JSON.dquote =? JSON.dquote)%char) with true. cbv iota.
    rewrite append_assoc. cbn [append]. rewrite parse_chars_quote. reflexivity. }
  destruct l as [|[k' y] l'].
  - cbn [member_texts JSON.join]. rewrite !append_assoc, Hkey.
    rewrite (Hx Hjx f (String "}" rest)); [|lia|right; right; reflexivity].
    cbn [bind]. rewrite Hset. reflexivity.
  - assert (Hjy : json_value y = true).
    { cbn [forallb snd] in Hjl. now apply andb_prop in Hjl as [? _]. }
    rewrite (member_texts_cons k' y l' Hjy).
    change (JSON.join "," ((JSON.quote k ++ ":" ++ JSON.serialize x)
                             :: (JSON.quote k' ++ ":" ++ JSON.serialize y) :: member_texts l'))
      with ((JSON.quote k ++ ":" ++ JSON.serialize x) ++ ","
            ++ JSON.join "," ((JSON.quote k' ++ ":" ++ JSON.serialize y) :: member_texts l')).
    rewrite !append_assoc, Hkey.
    rewrite (Hx Hjx f); [|lia|left; reflexivity].
    cbn [bind]. change (("," ++ ?s)%string) with (String "," s).
    cbn [append]. rewrite (skip_ws_value ","%char _ eq_refl).
    change (("," =? ",")%char) with true. cbv iota.
    rewrite Hset.
    change (JSON.quote k' ++ String ":" (JSON.serialize y))
      with (JSON.quote k' ++ ":" ++ JSON.serialize y).
    rewrite <- (member_texts_cons k' y l' Hjy).
    rewrite IH; [|discriminate|assumption|assumption| |lia].
    + now rewrite <- app_assoc.
    + now rewrite <- app_assoc.
Qed.

Lemma serialize_reads_back (v : value) : reads_back v.
Proof.
  induction v as [| | b | n | s | items IH | props IH] using value_nested_ind;
    intros Hj fuel rest Hfuel Hrest; (destruct fuel as [|f]; [simpl in Hfuel; lia|]).
  - discriminate Hj.
  - reflexivity.
  - destruct b; reflexivity.
  - cbn [JSON.serialize].
    destruct (number_to_string_head n) as (c & r & E & Hc & _).
    rewrite E. cbn [append]. rewrite parse_value_numeral by exact Hc.
    change (String c (r ++ rest)) with (String c r ++ rest). rewrite <- E.
    apply parse_number_integer; [exact Hj|now apply delimited_ends_numeral].
  - cbn [JSON.serialize]. unfold JSON.quote. cbn [append JSON.parse_value].
    rewrite (skip_ws_value JSON.dquote _ eq_refl).
    change ((JSON.dquote =? "{")%char) with false.
    change ((JSON.dquote =? "[")%char) with false.
    change ((JSON.dquote =? JSON.dquote)%char) with true. cbv iota.
    rewrite append_assoc. cbn [append]. now rewrite parse_chars_quote.
  - cbn [JSON.serialize json_value] in *. rewrite !append_assoc. cbn [append].
    destruct items as [|x xs]; [reflexivity|].
    destruct (serialize_head x) as (c & r & E & Hc).
    destruct (starts_value_facts c Hc) as (Hws & Hclose & _ & _).
    assert (Hbody : exists r', JSON.join "," (map JSON.serialize (x :: xs)) ++ String "]" rest
                               = String c r').
    { destruct xs; cbn [map JSON.join]; rewrite E; eexists; reflexivity. }
    destruct Hbody as (r' & Hbody). rewrite Hbody.
    rewrite parse_value_array by assumption. rewrite <- Hbody.
    rewrite elements_read_back; [reflexivity|discriminate|assumption|assumption|].
    simpl in Hfuel. simpl. lia.
  - rewrite serialize_object. cbn [json_value] in Hj.
    apply andb_prop in Hj as [Hj Hd]. rewrite !append_assoc. cbn [append].
    destruct props as [|[k x] l]; [reflexivity|].
    assert (Hjx : json_value x = true).
    { cbn [forallb snd] in Hj. now apply andb_prop in Hj as [? _]. }
    assert (Hbody : exists r', JSON.join "," (member_texts ((k, x) :: l)) ++ String "}" rest
                               = String JSON.dquote r').
    { rewrite (member_texts_cons k x l Hjx).
      destruct (member_texts l); cbn [JSON.join]; unfold JSON.quote; eexists; reflexivity. }
    destruct Hbody as (r' & Hbody). rewrite Hbody, parse_value_object, <- Hbody.
    rewrite (members_read_back ((k, x) :: l)) with (acc := []);
      [reflexivity|discriminate|assumption|assumption| |].
    + now apply distinct_NoDup.
    + simpl in Hfuel. simpl. lia.
Qed.

Lemma join_length_bound (parts : list string) (ws : list nat) :
  Forall2 (fun w p => (w <= String.length p)%nat) ws parts ->
  (list_sum (map S ws) <= S (String.length (JSON.join "," parts)))%nat.
Proof.
  induction 1 as [|w p ws parts Hw Hrest IH]; [simpl; lia|].
  destruct parts as [|q qs].
  - inversion Hrest; subst. simpl. lia.
  - change (JSON.join "," (p :: q :: qs)) with (p ++ "," ++ JSON.join "," (q :: qs)).
    rewrite !length_append. simpl in *. lia.
Qed.

Lemma weight_le_length (v : value) :
  json_value v = true -> (weight v <= String.length (JSON.serialize v))%nat.
Proof.
  induction v as [| | b | n | s | items IH | props IH] using value_nested_ind; intros Hj.
  - discriminate Hj.
  - simpl. lia.
  - destruct b; simpl; lia.
  - destruct (number_to_string_head n) as (c & r & E & _). cbn [JSON.serialize weight].
    rewrite E. simpl. lia.
  - simpl. lia.
  - cbn [JSON.serialize weight json_value] in *. rewrite !length_append.
    assert (H : Forall2 (fun w p => (w <= String.length p)%nat)
                  (map weight items) (map JSON.serialize items)).
    { induction items as [|x xs IHl]; [constructor|].
      inversion IH; subst. cbn [forallb] in Hj. apply andb_prop in Hj as [Hx Hxs].
      constructor; auto. }
    apply join_length_bound in H. rewrite map_map in H. simpl. lia.
  - rewrite serialize_object. cbn [weight json_value] in *. rewrite !length_append.
    apply andb_prop in Hj as [Hj _].
    assert (H : Forall2 (fun w p => (w <= String.length p)%nat)
                  (map (fun kv => weight (snd kv)) props) (member_texts props)).
    { induction props as [|[k x] l IHl]; [constructor|].
      inversion IH; subst. cbn [forallb snd] in Hj. apply andb_prop in Hj as [Hx Hl].
      rewrite (member_texts_cons k x l Hx). constructor; [|auto].
      cbn [snd] in *. rewrite !length_append. specialize (H1 Hx). lia. }
    apply join_length_bound in H. rewrite map_map in H. simpl. lia.
Qed.

Lemma parse_stringify (v : value) :
  json_value v = true ->
  JSON.stringify v = Some (JSON.serialize v) /\ JSON.parse (JSON.serialize v) = Ok v.
Proof.
  intros Hj. split; [destruct v; try reflexivity; discriminate Hj|].
  unfold JSON.parse.
  pose proof (serialize_reads_back v Hj (S (String.length (JSON.serialize v))) EmptyString) as H.
  rewrite append_nil_r in H. rewrite H; [reflexivity| |exact I].
  pose proof (weight_le_length v Hj). lia.
Qed.

Lemma decode_encode (s : string) (c : ascii) (r : string) :
  s = String c r -> byte_of_ascii c <> xef ->
  Text.decode (Present (Text.encode (Some s))) = Ok s.
Proof.
  intros -> Hc. unfold Text.decode, Text.encode. f_equal.
  assert (Hstrip : Text.strip_bom (list_byte_of_string (String c r))
                   = list_byte_of_string (String c r)).
  { change (list_byte_of_string (String c r))
      with (byte_of_ascii c :: list_byte_of_string r).
    unfold Text.strip_bom. destruct (byte_of_ascii c); try reflexivity. now contradiction Hc. }
  rewrite Hstrip. apply string_of_list_byte_of_string.
Qed.

Lemma fromRawState_toRawState (v : value) :
  json_value v = true -> fromRawState (Present (toRawState v)) = Ok v.
Proof.
  intros Hj. destruct (parse_stringify v Hj) as [Hs Hp].
  destruct (serialize_head v) as (c & r & E & Hc).
  destruct (starts_value_facts c Hc) as (_ & _ & _ & Hbom).
  unfold fromRawState, toRawState. cbn [rs_json]. rewrite Hs.
  rewrite (decode_encode _ c r E Hbom). cbn [bind]. exact Hp.
Qed.

(** ** The reference codec gives back what it packs *)

Module FixpackFacts.
Import Fixpack.

Lemma header_to_N (base : N) (n : nat) (h : byte) :
  header base n = Ok h -> Byte.to_N h = (base + N.of_nat n)%N.
Proof.
  unfold header. destruct (Byte.of_N (base + N.of_nat n)) as [b|] eqn:E; [|discriminate].
  intros H. inversion H; subst. now apply Byte.to_of_N.
Qed.

Lemma length_list_byte_of_string (s : string) :
  List.length (list_byte_of_string s) = String.length s.
Proof.
  unfold list_byte_of_string. rewrite length_map.
  induction s as [|c s IH]; simpl; [reflexivity|now rewrite IH].
Qed.

Lemma firstn_exact {A} (l rest : list A) : firstn (List.length l) (l ++ rest) = l.
Proof. induction l as [|x l IH]; simpl; [now destruct rest|now rewrite IH]. Qed.

Lemma skipn_exact {A} (l rest : list A) : skipn (List.length l) (l ++ rest) = rest.
Proof. induction l as [|x l IH]; simpl; [reflexivity|exact IH]. Qed.

Ltac decide_header :=
  repeat match goal with
         | |- context [(?a <? ?b)%N] => destruct (N.ltb_spec a b); try lia
         | |- context [(?a =? ?b)%N] => destruct (N.eqb_spec a b); try lia
         | |- context [(?a <=? ?b)%N] => destruct (N.leb_spec a b); try lia
         end.

Lemma unpack_str (s : string) (b : Buffer) :
  pack_str s = Ok b ->
  forall fuel rest, (1 <= fuel)%nat -> unpack_value fuel (b ++ rest)%list = Ok (VStr s, rest).
Proof.
  unfold pack_str. destruct (String.length s <? 32)%nat eqn:Hlen; [|discriminate].
  apply Nat.ltb_lt in Hlen.
  destruct (header 160 (String.length s)) as [h|] eqn:Hh; [|discriminate].
  cbn [bind]. intros H fuel rest Hfuel. inversion H; subst b; clear H.
  apply header_to_N in Hh.
  destruct fuel as [|fuel]; [lia|]. rewrite <- List.app_comm_cons. cbn [unpack_value]. rewrite Hh.
  decide_header.
  replace (N.to_nat (160 + N.of_nat (String.length s) - 160)) with (String.length s) by lia.
  rewrite <- length_list_byte_of_string.
  rewrite firstn_exact, skipn_exact, string_of_list_byte_of_string.
  rewrite length_app.
  destruct (Nat.leb_spec (List.length (list_byte_of_string s))
              (List.length (list_byte_of_string s) + List.length rest)); [reflexivity|lia].
Qed.

Lemma pack_str_nonempty (s : string) (b : Buffer) :
  pack_str s = Ok b -> (1 <= List.length b)%nat.
Proof.
  unfold pack_str. destruct (String.length s <? 32)%nat; [|discriminate].
  destruct (header 160 (String.length s)); [|discriminate].
  cbn [bind]. intros H. inversion H. simpl. lia.
Qed.

Lemma pack_value_arr (items : list value) :
  pack_value (VArr items)
  = if (List.length items <? 16)%nat
    then h <- header 144 (List.length items) ;; body <- pack_items items ;; Ok (h :: body)
    else Err OutsideModel.
Proof. reflexivity. Qed.

Lemma pack_value_obj (props : list (string * value)) :
  pack_value (VObj props)
  = if (List.length props <? 16)%nat && distinct (obj_keys props)
    then h <- header 128 (List.length props) ;; body <- pack_entries props ;; Ok (h :: body)
    else Err OutsideModel.
Proof. reflexivity. Qed.

Lemma unpack_items_reads (items : list value) :
  Forall unpacks items ->
  forall body, pack_items items = Ok body ->
  forall fuel rest, (1 + 2 * List.length body <= fuel)%nat ->
    unpack_items fuel (List.length items) (body ++ rest)%list = Ok (items, rest).
Proof.
  induction 1 as [|x l Hx Hl IH]; intros body Hp fuel rest Hfuel.
  - cbn in Hp. inversion Hp; subst. destruct fuel; [lia|reflexivity].
  - cbn [pack_items] in Hp. fold pack_items in Hp.
    destruct (pack_value x) as [b|] eqn:Eb; [|discriminate]. cbn [bind] in Hp.
    destruct (pack_items l) as [bs|] eqn:Ebs; [|discriminate]. cbn [bind] in Hp.
    inversion Hp; subst body; clear Hp.
    destruct (Hx b Eb) as (Hb1 & Hread).
    rewrite length_app in Hfuel.
    destruct fuel as [|fuel]; [lia|]. cbn [List.length unpack_items].
    rewrite <- List.app_assoc, (Hread fuel (bs ++ rest)%list) by lia. cbn [bind].
    rewrite (IH bs eq_refl fuel rest) by lia. reflexivity.
Qed.

Lemma unpack_entries_reads (props : list (string * value)) :
  Forall (fun kv => unpacks (snd kv)) props ->
  forall body, pack_entries props = Ok body ->
  forall acc, NoDup (obj_keys acc ++ obj_keys props)%list ->
  forall fuel rest, (1 + 2 * List.length body <= fuel)%nat ->
    unpack_entries fuel (List.length props) acc (body ++ rest)%list
    = Ok ((acc ++ props)%list, rest).
Proof.
  induction 1 as [|[k x] l Hx Hl IH]; intros body Hp acc Hnd fuel rest Hfuel.
  - cbn in Hp. inversion Hp; subst. destruct fuel; [lia|].
    cbn. now rewrite List.app_nil_r.
  - cbn [snd] in Hx. cbn [pack_entries] in Hp. fold pack_entries in Hp.
    destruct (pack_str k) as [kb|] eqn:Ek; [|discriminate]. cbn [bind] in Hp.
    destruct (pack_value x) as [b|] eqn:Eb; [|discriminate]. cbn [bind] in Hp.
    destruct (pack_entries l) as [bs|] eqn:Ebs; [|discriminate]. cbn [bind] in Hp.
    inversion Hp; subst body; clear Hp.
    destruct (Hx b Eb) as (Hb1 & Hread).
    pose proof (pack_str_nonempty k kb Ek) as Hk1.
    rewrite !length_app in Hfuel.
    destruct fuel as [|fuel]; [lia|]. cbn [List.length unpack_entries].
    rewrite <- !List.app_assoc.
    rewrite (unpack_str k kb Ek fuel) by lia. cbn [bind].
    rewrite (Hread fuel (bs ++ rest)%list) by lia. cbn [bind].
    unfold obj_keys in Hnd. cbn [map fst] in Hnd.
    assert (Hfresh : ~ In k (obj_keys acc)).
    { intros Hin. apply NoDup_remove_2 in Hnd. apply Hnd.
      apply in_or_app. now left. }
    rewrite (obj_set_fresh k x acc Hfresh).
    rewrite (IH bs eq_refl (acc ++ [(k, x)])%list).
    + now rewrite <- List.app_assoc.
    + unfold obj_keys. rewrite map_app, <- List.app_assoc. exact Hnd.
    + lia.
Qed.

Lemma pack_value_reads (v : value) : unpacks v.
Proof.
  induction v as [| |t|n|s|items IH|props IH] using value_nested_ind; intros b Hb.
  - discriminate.
  - inversion Hb; subst. split; [simpl; lia|].
    intros [|fuel] rest Hf; [simpl in Hf; lia|reflexivity].
  - destruct t; inversion Hb; subst; (split; [simpl; lia|]);
      intros [|fuel] rest Hf; simpl in Hf; try lia; reflexivity.
  - cbn [pack_value] in Hb.
    destruct ((0 <=? n) && (n <=? 127))%Z eqn:Hpos.
    + apply andb_prop in Hpos as [H0 H1]. apply Z.leb_le in H0, H1.
      destruct (header 0 (Z.to_nat n)) as [h|] eqn:Hh; [|discriminate].
      cbn [bind] in Hb. inversion Hb; subst b; clear Hb. apply header_to_N in Hh.
      split; [simpl; lia|]. intros [|fuel] rest Hf; [simpl in Hf; lia|].
      rewrite <- List.app_comm_cons. cbn [unpack_value]. rewrite Hh. decide_header.
      do 3 f_equal. lia.
    + destruct ((-32 <=? n) && (n <? 0))%Z eqn:Hneg; [|discriminate].
      apply andb_prop in Hneg as [H0 H1]. apply Z.leb_le in H0. apply Z.ltb_lt in H1.
      destruct (header 0 (Z.to_nat (256 + n))) as [h|] eqn:Hh; [|discriminate].
      cbn [bind] in Hb. inversion Hb; subst b; clear Hb. apply header_to_N in Hh.
      split; [simpl; lia|]. intros [|fuel] rest Hf; [simpl in Hf; lia|].
      rewrite <- List.app_comm_cons. cbn [unpack_value]. rewrite Hh. decide_header.
      do 3 f_equal. lia.
  - cbn [pack_value] in Hb. split; [now apply (pack_str_nonempty s)|].
    intros fuel rest Hf. apply (unpack_str s b Hb).
    pose proof (pack_str_nonempty s b Hb). lia.
  - rewrite pack_value_arr in Hb.
    destruct (List.length items <? 16)%nat eqn:Hlen; [|discriminate].
    apply Nat.ltb_lt in Hlen.
    destruct (header 144 (List.length items)) as [h|] eqn:Hh; [|discriminate].
    cbn [bind] in Hb.
    destruct (pack_items items) as [body|] eqn:Ebody; [|discriminate].
    cbn [bind] in Hb. inversion Hb; subst b; clear Hb. apply header_to_N in Hh.
    split; [simpl; lia|]. intros [|fuel] rest Hf; [simpl in Hf; lia|].
    rewrite <- List.app_comm_cons. cbn [unpack_value]. rewrite Hh. decide_header.
    replace (N.to_nat (144 + N.of_nat (List.length items) - 144))
      with (List.length items) by lia.
    rewrite (unpack_items_reads items IH body Ebody fuel rest) by (simpl in Hf; lia).
    reflexivity.
  - rewrite pack_value_obj in Hb.
    destruct ((List.length props <? 16)%nat && distinct (obj_keys props)) eqn:Hok;
      [|discriminate].
    apply andb_prop in Hok as [Hlen Hd]. apply Nat.ltb_lt in Hlen.
    destruct (header 128 (List.length props)) as [h|] eqn:Hh; [|discriminate].
    cbn [bind] in Hb.
    destruct (pack_entries props) as [body|] eqn:Ebody; [|discriminate].
    cbn [bind] in Hb. inversion Hb; subst b; clear Hb. apply header_to_N in Hh.
    split; [simpl; lia|]. intros [|fuel] rest Hf; [simpl in Hf; lia|].
    rewrite <- List.app_comm_cons. cbn [unpack_value]. rewrite Hh. decide_header.
    replace (N.to_nat (128 + N.of_nat (List.length props) - 128))
      with (List.length props) by lia.
    rewrite (unpack_entries_reads props IH body Ebody [] (distinct_NoDup _ Hd) fuel rest)
      by (simpl in Hf; lia).
    reflexivity.
Qed.

Lemma unpack_pack (v : value) (packed : Buffer) :
  pack v = Ok packed -> unpack packed = Ok v.
Proof.
  intros Hp. destruct (pack_value_reads v packed Hp) as (_ & Hread).
  cbn [unpack codec]. rewrite <- (List.app_nil_r packed) at 2.
  rewrite (Hread (2 + 2 * List.length packed)%nat []) by lia. reflexivity.
Qed.

End FixpackFacts.




(** * Further properties of the translator *)

Lemma blockToSchemaType_unfold (b : Block) (kind : Kind) :
  blockToSchemaType b kind
  = (attrs <- foldM (attribute_step kind) (attributes_of b) [] ;;
     attrs <- match kind with
              | ARGS => foldM (nested_step (fun nb => nestedBlockToSchemaType nb ARGS))
                          (blockTypes_of b) attrs
              | ATTRS => Ok attrs
              end ;;
     Ok (T.object attrs)).
Proof.
  destruct b as [attrs [bts|]]; destruct kind; unfold attributes_of, blockTypes_of; simpl;
    try reflexivity.
Qed.

Lemma attributes_only_translate (l : list Attribute) (kind : Kind) (o : ObjectType) :
  blockToSchemaType (MkBlock (Some l) None) kind = Ok o ->
  foldM (attribute_step kind) l [] = Ok (properties o).
Proof.
  rewrite blockToSchemaType_unfold. unfold attributes_of, blockTypes_of. simpl.
  destruct (foldM (attribute_step kind) l []) as [attrs|e]; simpl; [|discriminate].
  destruct kind; simpl; intros H; inversion H; reflexivity.
Qed.

(** X1. The attribute loop stops at the first attribute it cannot read:
    when the attributes before it translate, an attribute without a type
    fails the block with 'Unable to read attribute type' (also when its name
    is missing too), one with a type but no name with 'Unable to read
    attribute name', and one whose type does not decode with the decoder's
    error; what follows it is never looked at. *)
Theorem first_unreadable_attribute (b : Block) (kind : Kind)
  (pre post : list Attribute) (a : Attribute) (o : ObjectType) :
  attributes_of b = (pre ++ a :: post)%list ->
  blockToSchemaType (MkBlock (Some pre) None) kind = Ok o ->
  (type a = None ->
   blockToSchemaType b kind = Err (Error "Unable to read attribute type"))
  /\ (forall ty, type a = Some ty -> name a = None ->
        blockToSchemaType b kind = Err (Error "Unable to read attribute name"))
  /\ (forall ty n e, type a = Some ty -> name a = Some n -> decodeCtyType ty = Err e ->
        blockToSchemaType b kind = Err e).
Proof.
  intros Hattrs Hpre. apply attributes_only_translate in Hpre.
  assert (Hstep : forall e, attribute_step kind (properties o) a = Err e ->
                            blockToSchemaType b kind = Err e).
  { intros e He. rewrite blockToSchemaType_unfold, Hattrs, foldM_app, Hpre. simpl.
    now rewrite He. }
  repeat split.
  - intros Ht. apply Hstep. unfold attribute_step. now rewrite Ht.
  - intros ty Ht Hn. apply Hstep. unfold attribute_step. now rewrite Ht, Hn.
  - intros ty n e Ht Hn He. apply Hstep. unfold attribute_step. now rewrite Ht, Hn, He.
Qed.

Lemma first_unreadable_attribute_witness :
  let a0 := {| name := Some "id"; type := Some (json_bytes (VStr "string"));
               required := Some true; optional := None; computed := None |} in
  let a1 := {| name := None; type := None;
               required := None; optional := None; computed := None |} in
  let a2 := {| name := None; type := Some (json_bytes (VStr "bool"));
               required := None; optional := None; computed := None |} in
  blockToSchemaType (MkBlock (Some [a0; a1; a2]) (Some [unreadable_nested])) ATTRS
  = Err (Error "Unable to read attribute type").
Proof.
  intros a0 a1 a2.
  destruct (blockToSchemaType (MkBlock (Some [a0]) None) ATTRS) as [o|e] eqn:E;
    [|discriminate E].
  exact (proj1 (first_unreadable_attribute
                  (MkBlock (Some [a0; a1; a2]) (Some [unreadable_nested])) ATTRS
                  [a0] [a2] a1 o eq_refl E) eq_refl).
Defined.

Lemma nested_only_translate (attrs : option (list Attribute)) (l : list NestedBlock)
  (o : ObjectType) :
  blockToSchemaType (MkBlock attrs (Some l)) ARGS = Ok o ->
  exists props,
    foldM (attribute_step ARGS) (attributes_of (MkBlock attrs (Some l))) [] = Ok props
    /\ foldM (nested_step (fun nb => nestedBlockToSchemaType nb ARGS)) l props
       = Ok (properties o).
Proof. intros H. exact (blockToSchemaType_ARGS _ _ H). Qed.

(** X2. Under [ARGS] the nested-block loop stops at the first nested block
    it cannot read, once the attributes and the nested blocks before it
    translate: no name gives 'Unable to read nested block name', a name but
    no inner block 'Unable to read nested block schema', an inner block that
    fails gives that block's own error even when the nesting mode is invalid
    too, and a readable inner block with a missing or [INVALID] mode gives
    'Invalid nesting mode'. *)
Theorem first_unreadable_nested_block (b : Block)
  (pre post : list NestedBlock) (nb : NestedBlock) (o : ObjectType) :
  blockTypes_of b = (pre ++ nb :: post)%list ->
  blockToSchemaType (MkBlock (attributes b) (Some pre)) ARGS = Ok o ->
  (typeName nb = None ->
   blockToSchemaType b ARGS = Err (Error "Unable to read nested block name"))
  /\ (forall n, typeName nb = Some n -> block nb = None ->
        blockToSchemaType b ARGS = Err (Error "Unable to read nested block schema"))
  /\ (forall n inner e, typeName nb = Some n -> block nb = Some inner ->
        blockToSchemaType inner ARGS = Err e ->
        blockToSchemaType b ARGS = Err e)
  /\ (forall n inner io, typeName nb = Some n -> block nb = Some inner ->
        blockToSchemaType inner ARGS = Ok io ->
        nesting nb = None \/ nesting nb = Some INVALID ->
        blockToSchemaType b ARGS = Err (Error "Invalid nesting mode")).
Proof.
  intros Hbts Hpre. destruct (nested_only_translate _ _ _ Hpre) as (props & Ha & Hn).
  assert (Hsame : attributes_of (MkBlock (attributes b) (Some pre)) = attributes_of b)
    by now destruct b.
  rewrite Hsame in Ha.
  assert (Hstep : forall e,
             nested_step (fun nb => nestedBlockToSchemaType nb ARGS) (properties o) nb = Err e ->
             blockToSchemaType b ARGS = Err e).
  { intros e He. rewrite blockToSchemaType_unfold, Ha. cbn [bind].
    rewrite Hbts, foldM_app, Hn. simpl. now rewrite He. }
  assert (Htrans : forall n e, typeName nb = Some n ->
                               nestedBlockToSchemaType nb ARGS = Err e ->
                               blockToSchemaType b ARGS = Err e).
  { intros n e Hname He. apply Hstep. unfold nested_step. rewrite Hname, He.
    now destruct (at_least_one nb). }
  repeat split.
  - intros Hname. apply Hstep. unfold nested_step. now rewrite Hname.
  - intros n Hname Hblock. apply (Htrans n); [exact Hname|].
    destruct nb as [tn ib mode lo hi]. simpl in Hblock. subst ib. reflexivity.
  - intros n inner e Hname Hblock He. apply (Htrans n); [exact Hname|].
    destruct nb as [tn ib mode lo hi]. simpl in Hblock. subst ib. simpl. now rewrite He.
  - intros n inner io Hname Hblock Hio Hmode. apply (Htrans n); [exact Hname|].
    destruct nb as [tn ib mode lo hi]. simpl in Hblock, Hmode. subst ib. simpl. rewrite Hio.
    destruct Hmode as [-> | ->]; reflexivity.
Qed.

Lemma first_unreadable_nested_block_witness :
  blockToSchemaType
    (MkBlock None
       (Some [ nested_block_of "rule" LIST None None;
               MkNestedBlock (Some "broken")
                 (Some (MkBlock (Some [ {| name := Some "x"; type := None; required := None;
                                           optional := None; computed := None |} ]) None))
                 None None None ]))
    ARGS
  = Err (Error "Unable to read attribute type").
Proof.
  destruct (blockToSchemaType (MkBlock None (Some [nested_block_of "rule" LIST None None])) ARGS)
    as [o|e] eqn:E; [|discriminate E].
  destruct (first_unreadable_nested_block
              (MkBlock None
                 (Some [ nested_block_of "rule" LIST None None;
                         MkNestedBlock (Some "broken")
                           (Some (MkBlock (Some [ {| name := Some "x"; type := None;
                                                     required := None; optional := None;
                                                     computed := None |} ]) None))
                           None None None ]))
              [nested_block_of "rule" LIST None None] []
              (MkNestedBlock (Some "broken")
                 (Some (MkBlock (Some [ {| name := Some "x"; type := None; required := None;
                                           optional := None; computed := None |} ]) None))
                 None None None)
              o eq_refl E) as (_ & _ & Hinner & _).
  eapply Hinner; reflexivity.
Defined.

Lemma strip_optional_plain (t : SchemaType) :
  is_optional t = false -> strip_optional t = t.
Proof. destruct t; try reflexivity. discriminate. Qed.

Lemma attribute_folds_agree (k1 k2 : Kind) (l : list Attribute) :
  forall acc acc' out,
    (forall n, option_map strip_optional (obj_get n acc)
               = option_map strip_optional (obj_get n acc')) ->
    foldM (attribute_step k1) l acc = Ok out ->
    exists out',
      foldM (attribute_step k2) l acc' = Ok out'
      /\ (forall n, option_map strip_optional (obj_get n out)
                    = option_map strip_optional (obj_get n out')).
Proof.
  induction l as [|a l IH]; intros acc acc' out Hrel H; simpl in H.
  - inversion H; subst. exists acc'. split; [reflexivity|exact Hrel].
  - destruct (attribute_step k1 acc a) as [acc1|e] eqn:E1; simpl in H; [|discriminate].
    destruct (attribute_step_assigns _ _ _ _ E1) as (n & v & Hn & Hv & ->).
    unfold attribute_entry in Hv.
    destruct (type a) as [ty|] eqn:Hty; [|discriminate].
    destruct (decodeCtyType ty) as [t|e] eqn:Hd; [|discriminate].
    inversion Hv; subst v; clear Hv.
    pose proof (decodeCtyType_not_optional _ _ Hd) as Hplain.
    assert (E2 : attribute_step k2 acc' a
                 = Ok (obj_set n (if marks_optional k2 a then OptionalType t else t) acc')).
    { unfold attribute_step. rewrite Hty, Hn, Hd. simpl.
      destruct (marks_optional k2 a); [|reflexivity].
      unfold T.optional. now rewrite obj_set_set. }
    simpl. rewrite E2. simpl. eapply IH; [|exact H].
    intros m. rewrite !obj_get_set. destruct (n =? m)%string; [|apply Hrel].
    simpl. f_equal.
    destruct (marks_optional k1 a), (marks_optional k2 a); simpl;
      rewrite ?(strip_optional_plain t Hplain); reflexivity.
Qed.

(** X3. Whenever a block translates under [ARGS] it also translates under
    [ATTRS], and every property that no nested block names has the same
    type in both views once the [Optional] wrapper is set aside (it is
    present in both or absent from both). *)
Theorem state_view_follows_config_view (b : Block) (o : ObjectType) :
  blockToSchemaType b ARGS = Ok o ->
  exists o',
    blockToSchemaType b ATTRS = Ok o'
    /\ forall n,
         (forall nb, In nb (blockTypes_of b) -> typeName nb <> Some n) ->
         option_map strip_optional (obj_get n (properties o))
         = option_map strip_optional (obj_get n (properties o')).
Proof.
  intros H. destruct (blockToSchemaType_ARGS _ _ H) as (attrs & Ha & Hn).
  destruct (attribute_folds_agree ARGS ATTRS _ [] [] attrs (fun _ => eq_refl) Ha)
    as (attrs' & Ha' & Hrel).
  exists (T.object attrs'). split.
  - rewrite blockToSchemaType_unfold, Ha'. reflexivity.
  - intros n Hfree. simpl. rewrite <- Hrel. f_equal.
    eapply keyed_fold_frame; [apply nested_step_assigns|exact Hn|exact Hfree].
Qed.

Lemma state_view_follows_config_view_witness :
  exists o',
    blockToSchemaType nesting_block ATTRS = Ok o'
    /\ option_map strip_optional (obj_get "id" (properties o')) = Some StringType.
Proof.
  destruct (blockToSchemaType nesting_block ARGS) as [o|e] eqn:E; [|discriminate E].
  destruct (state_view_follows_config_view nesting_block o E) as (o' & Ho' & Hsame).
  exists o'. split; [exact Ho'|].
  rewrite <- (Hsame "id").
  - vm_compute in E. inversion E. reflexivity.
  - simpl. intros nb [<-|[<-|[<-|[]]]]; discriminate.
Defined.

Section KeyedFoldInvariant.
Variables (X V : Type).
Variable step : obj V -> X -> Result (obj V).
Variable key : X -> option string.
Variable entry : X -> option V.
Variable P : V -> Prop.
Hypothesis step_assigns : forall acc x acc',
  step acc x = Ok acc' ->
  exists n v, key x = Some n /\ entry x = Some v /\ acc' = obj_set n v acc.
Hypothesis entry_good : forall x v, entry x = Some v -> P v.

Lemma keyed_fold_all l : forall acc out,
  foldM step l acc = Ok out ->
  (forall k v, obj_get k acc = Some v -> P v) ->
  forall k v, obj_get k out = Some v -> P v.
Proof.
  induction l as [|x l IH]; simpl; intros acc out H Hacc.
  - inversion H; subst. exact Hacc.
  - destruct (step acc x) as [acc'|e] eqn:E; simpl in H; [|discriminate].
    destruct (step_assigns _ _ _ E) as (n & v & _ & Hv & ->).
    apply (IH _ _ H). intros k w. rewrite obj_get_set.
    destruct (n =? k)%string; [|apply Hacc].
    intros Hw. inversion Hw; subst. eapply entry_good; eauto.
Qed.

End KeyedFoldInvariant.

Lemma option_eq_dec_Z (x y : option Z) : {x = y} + {x <> y}.
Proof. decide equality. apply Z.eq_dec. Qed.

Lemma nestedBlockToSchemaType_not_optional nb kind t :
  nestedBlockToSchemaType nb kind = Ok t -> is_optional t = false.
Proof.
  intros H. destruct (nestedBlockToSchemaType_wrap _ _ _ H) as (ib & inner & mode & _ & _ & _ & Hw).
  destruct mode; try contradiction; try (subst t; reflexivity);
    destruct Hw as [H1 H2];
    (destruct (option_eq_dec_Z (maxItems nb) (Some 1%Z)) as [Hm|Hm];
     [rewrite (H1 Hm)|rewrite (H2 Hm)]; reflexivity).
Qed.

Lemma attribute_entry_once kind a v : attribute_entry kind a = Some v -> once_optional v = true.
Proof.
  unfold attribute_entry. destruct (type a) as [ty|]; [|discriminate].
  destruct (decodeCtyType ty) as [t|e] eqn:Hd; [|discriminate].
  pose proof (decodeCtyType_not_optional _ _ Hd) as Hplain.
  intros H. inversion H; subst. destruct (marks_optional kind a); simpl.
  - now rewrite Hplain.
  - destruct t; try reflexivity. discriminate.
Qed.

Lemma nested_entry_once nb v :
  nested_entry (fun nb => nestedBlockToSchemaType nb ARGS) nb = Some v -> once_optional v = true.
Proof.
  unfold nested_entry. destruct (nestedBlockToSchemaType nb ARGS) as [t|e] eqn:Ht; [|discriminate].
  pose proof (nestedBlockToSchemaType_not_optional _ _ _ Ht) as Hplain.
  intros H. inversion H; subst. destruct (at_least_one nb); simpl.
  - destruct t; try reflexivity. discriminate.
  - now rewrite Hplain.
Qed.

(** X4. No property of a translated block is an [Optional] of an
    [Optional]: the translator wraps a property at most once, whatever the
    flags, the nesting modes and the repetitions of names. *)
Theorem optional_applied_once (b : Block) (kind : Kind) (o : ObjectType) :
  blockToSchemaType b kind = Ok o ->
  forall k t, obj_get k (properties o) = Some t -> once_optional t = true.
Proof.
  intros H.
  assert (Hattrs : forall attrs,
             foldM (attribute_step kind) (attributes_of b) [] = Ok attrs ->
             forall k t, obj_get k attrs = Some t -> once_optional t = true).
  { intros attrs Ha.
    eapply (keyed_fold_all _ _ _ name (attribute_entry kind) _
              (attribute_step_assigns kind) (attribute_entry_once kind)); [exact Ha|].
    intros k v Hk. discriminate Hk. }
  destruct kind.
  - destruct (blockToSchemaType_ARGS _ _ H) as (attrs & Ha & Hn).
    eapply (keyed_fold_all _ _ _ typeName _ _ (nested_step_assigns _) nested_entry_once);
      [exact Hn|]. now apply Hattrs.
  - apply blockToSchemaType_ATTRS in H. now apply Hattrs.
Qed.

Lemma optional_applied_once_witness :
  exists o, blockToSchemaType nesting_block ARGS = Ok o
            /\ once_optional (OptionalType (MapType (ObjectOf [("port", NumberType)]))) = true.
Proof.
  destruct (blockToSchemaType nesting_block ARGS) as [o|e] eqn:E; [|discriminate E].
  exists o. split; [reflexivity|].
  apply (optional_applied_once nesting_block ARGS o E "tags").
  vm_compute in E. inversion E. reflexivity.
Defined.

(** * Further properties of the type decoder *)

Lemma forallb_obj_set {A} (f : A -> bool) (k : string) (v : A) (o : obj A) :
  forallb (fun kv => f (snd kv)) o = true -> f v = true ->
  forallb (fun kv => f (snd kv)) (obj_set k v o) = true.
Proof.
  intros Ho Hv. induction o as [|[k' v'] o IH]; simpl in *.
  - now rewrite Hv.
  - apply andb_prop in Ho as [H1 H2]. destruct (k' =? k)%string; simpl.
    + now rewrite Hv, H2.
    + now rewrite H1, IH.
Qed.

Lemma object_case_fields (decode : value -> Result SchemaType) (fields : list (string * value)) :
  object_case decode (VObj fields)
  = (props <- foldM (field_step decode) fields [] ;; Ok (ObjectOf props)).
Proof.
  cbn [object_case]. generalize ([] : ObjectProperties).
  induction fields as [|[k d] l IH]; intros types; [reflexivity|].
  cbn [foldM]. unfold field_step at 1. cbn [fst snd].
  destruct (decode d) as [t|e]; [|reflexivity]. cbn [bind]. apply IH.
Qed.

Lemma object_case_free_fields (fields : list (string * value)) :
  Forall (fun kd => forall t, ctyToType (snd kd) = Ok t -> optional_free t = true) fields ->
  forall t, object_case ctyToType (VObj fields) = Ok t -> optional_free t = true.
Proof.
  intros HF t. rewrite object_case_fields.
  assert (H : forall types out,
             forallb (fun kt => optional_free (snd kt)) types = true ->
             foldM (field_step ctyToType) fields types = Ok out ->
             forallb (fun kt => optional_free (snd kt)) out = true).
  { induction HF as [|[k d] l Hd Hl IH]; intros types out Ht Hf; simpl in Hf.
    - now inversion Hf; subst.
    - unfold field_step at 1 in Hf. cbn [fst snd] in *.
      destruct (ctyToType d) as [td|e] eqn:E; simpl in Hf; [|discriminate].
      eapply IH; [|exact Hf]. apply forallb_obj_set; [exact Ht|now apply Hd]. }
  destruct (foldM (field_step ctyToType) fields []) as [props|e] eqn:E; simpl; [|discriminate].
  intros Ht. inversion Ht; subst. simpl. eapply H; [|exact E]. reflexivity.
Qed.

Lemma object_case_free_items (items : list value) :
  Forall (fun d => forall t, ctyToType d = Ok t -> optional_free t = true) items ->
  forall t, object_case ctyToType (VArr items) = Ok t -> optional_free t = true.
Proof.
  intros HF. cbn [object_case].
  assert (H : forall i types, forallb (fun kt => optional_free (snd kt)) types = true ->
             forall t,
               (fix reduce (l : list value) (i : nat) (types : ObjectProperties) :=
                  match l with
                  | [] => Ok (T.object types : SchemaType)
                  | d :: l' =>
                      t <- ctyToType d ;; reduce l' (S i) (obj_set (index_key i) t types)
                  end) items i types = Ok t ->
               optional_free t = true).
  { induction HF as [|d l Hd Hl IH]; intros i types Ht t Hr.
    - inversion Hr; subst. exact Ht.
    - destruct (ctyToType d) as [td|e] eqn:E; simpl in Hr; [|discriminate].
      eapply IH; [|exact Hr]. apply forallb_obj_set; [exact Ht|now apply Hd]. }
  apply H. reflexivity.
Qed.

Lemma by_tag_free schema tag element object :
  (forall t, element = Ok t -> optional_free t = true) ->
  (forall t, object = Ok t -> optional_free t = true) ->
  forall t, by_tag schema tag element object = Ok t -> optional_free t = true.
Proof.
  intros He Ho t. destruct tag; simpl; try discriminate.
  destruct (s =? "list")%string;
    [destruct element as [x|]; simpl; intros H; inversion H; subst; simpl; now apply He|].
  destruct (s =? "map")%string;
    [destruct element as [x|]; simpl; intros H; inversion H; subst; simpl; now apply He|].
  destruct (s =? "set")%string;
    [destruct element as [x|]; simpl; intros H; inversion H; subst; simpl; now apply He|].
  destruct (s =? "object")%string; [apply Ho|discriminate].
Qed.

Lemma with_prop_members {A} (P : A -> Prop) (f : value -> A) (absent : A) (k : string) l :
  P absent -> Forall (fun kv => P (f (snd kv))) l -> P (with_prop f absent k l).
Proof.
  intros Ha HF. induction HF as [|[k' v] l Hv Hl IH]; simpl; [exact Ha|].
  destruct (k' =? k)%string; [exact Hv|exact IH].
Qed.

(** X5. A type decoded from a wire descriptor contains no [Optional] at
    any depth: optionality never comes from the descriptor. *)
Theorem ctyToType_optional_free (d : value) (t : SchemaType) :
  ctyToType d = Ok t -> optional_free t = true.
Proof.
  revert t.
  enough (H : (forall t, ctyToType d = Ok t -> optional_free t = true)
              /\ (forall t, object_case ctyToType d = Ok t -> optional_free t = true))
    by apply H.
  induction d as [| | b | n | s | items IH | props IH] using value_nested_ind.
  - split; intros t H; discriminate H.
  - split; intros t H; discriminate H.
  - split; intros t H; [discriminate H|inversion H; reflexivity].
  - split; intros t H; [discriminate H|inversion H; reflexivity].
  - split; intros t.
    + simpl. destruct (s =? "any")%string; [discriminate|].
      destruct (s =? "bool")%string; [intros H; inversion H; reflexivity|].
      destruct (s =? "number")%string; [intros H; inversion H; reflexivity|].
      destruct (s =? "string")%string; [intros H; inversion H; reflexivity|discriminate].
    + destruct s; simpl; intros H; [inversion H; reflexivity|discriminate H].
  - split.
    + destruct items as [|tag rest]; [intros t H; discriminate H|].
      cbn [ctyToType]. inversion IH as [|? ? _ Hrest]; subst.
      apply by_tag_free.
      * destruct rest as [|payload rest']; [intros t H; discriminate H|].
        inversion Hrest as [|? ? Hp _]; subst. apply Hp.
      * destruct rest as [|payload rest']; [intros t H; discriminate H|].
        inversion Hrest as [|? ? Hp _]; subst. apply Hp.
    + apply object_case_free_items. eapply Forall_impl; [|exact IH].
      intros a Ha. apply Ha.
  - split.
    + cbn [ctyToType]. destruct (obj_get "0" props) as [tag|]; [|intros t H; discriminate H].
      apply by_tag_free; intros t.
      * apply (with_prop_members (fun r => r = Ok t -> optional_free t = true));
          [discriminate|].
        eapply Forall_impl; [|exact IH]. intros kv Hkv. apply Hkv.
      * apply (with_prop_members (fun r => r = Ok t -> optional_free t = true));
          [discriminate|].
        eapply Forall_impl; [|exact IH]. intros kv Hkv. apply Hkv.
    + apply object_case_free_fields. eapply Forall_impl; [|exact IH].
      intros kv Hkv. apply Hkv.
Qed.

Lemma ctyToType_optional_free_witness :
  optional_free (ObjectOf [("ports", ArrayType NumberType); ("labels", MapType StringType)])
  = true.
Proof.
  apply (ctyToType_optional_free
           (VArr [VStr "object";
                  VObj [("ports", VArr [VStr "set"; VStr "number"]);
                        ("labels", VArr [VStr "map"; VStr "string"])]])).
  reflexivity.
Defined.

Lemma field_step_assigns acc kd acc' :
  field_step ctyToType acc kd = Ok acc' ->
  exists n v,
    Some (fst kd) = Some n
    /\ match ctyToType (snd kd) with Ok t => Some t | Err _ => None end = Some v
    /\ acc' = obj_set n v acc.
Proof.
  unfold field_step. destruct (ctyToType (snd kd)) as [t|e]; simpl; [|discriminate].
  intros H. inversion H. eauto.
Qed.

(** X6. An [object] descriptor decodes to an object type with exactly the
    field names of its payload; each property holds the decoded descriptor
    of the last field carrying its name. *)
Theorem object_descriptor_fields (fields : list (string * value)) (t : SchemaType) :
  ctyToType (VArr [VStr "object"; VObj fields]) = Ok t ->
  exists props,
    t = ObjectOf props
    /\ (forall k, In k (obj_keys props) <-> In k (obj_keys fields))
    /\ (forall pre k d post,
          fields = (pre ++ (k, d) :: post)%list ->
          ~ In k (obj_keys post) ->
          exists td, ctyToType d = Ok td /\ obj_get k props = Some td).
Proof.
  change (ctyToType (VArr [VStr "object"; VObj fields]))
    with (object_case ctyToType (VObj fields)).
  rewrite object_case_fields.
  destruct (foldM (field_step ctyToType) fields []) as [props|e] eqn:E; simpl; [|discriminate].
  intros H. inversion H; subst; clear H. exists props. split; [reflexivity|]. split.
  - intros k.
    rewrite (keyed_fold_keys _ _ _ (fun kd => Some (fst kd)) _ field_step_assigns _ _ _ k E).
    simpl. split.
    + intros [[]|((k', d) & Hin & Hk)]. simpl in Hk. inversion Hk; subst.
      apply in_map_iff. exists (k, d). split; [reflexivity|exact Hin].
    + intros Hin. right. apply in_map_iff in Hin as ((k', d) & Hk & Hin).
      simpl in Hk. subst. exists (k, d). split; [exact Hin|reflexivity].
  - intros pre k d post -> Hpost.
    destruct (keyed_fold_last _ _ _ (fun kd => Some (fst kd)) _ field_step_assigns
                pre (k, d) post _ _ k E eq_refl) as (v & Hv & Hg).
    { intros [k' d'] Hin Hk. simpl in Hk. inversion Hk; subst.
      apply Hpost. apply in_map_iff. exists (k, d'). split; [reflexivity|exact Hin]. }
    simpl in Hv. destruct (ctyToType d) as [td|]; [|discriminate].
    inversion Hv; subst. exists v. split; [reflexivity|exact Hg].
Qed.

Lemma object_descriptor_fields_witness :
  exists props,
    ctyToType (VArr [VStr "object"; VObj [("a", VStr "bool"); ("b", VStr "number")]])
    = Ok (ObjectOf props)
    /\ obj_get "b" props = Some NumberType.
Proof.
  destruct (ctyToType (VArr [VStr "object"; VObj [("a", VStr "bool"); ("b", VStr "number")]]))
    as [t|e] eqn:E; [|discriminate E].
  destruct (object_descriptor_fields _ t E) as (props & -> & _ & Hlast).
  exists props. split; [reflexivity|].
  destruct (Hlast [("a", VStr "bool")] "b" (VStr "number") [] eq_refl) as (td & Htd & Hg).
  - intros [].
  - inversion Htd; subst. exact Hg.
Defined.

(** X7. Decoding the bytes of the JSON text of a descriptor is decoding the
    descriptor: on every JSON value [decodeCtyType] after serialization
    agrees with [ctyToType], in its result and in its error. *)
Theorem decodeCtyType_of_json (d : value) :
  json_value d = true -> decodeCtyType (json_bytes d) = ctyToType d.
Proof.
  intros Hj. pose proof (fromRawState_toRawState d Hj) as H.
  unfold fromRawState, toRawState in H. cbn [rs_json] in H.
  unfold decodeCtyType, json_bytes.
  destruct (Text.decode (Present (Text.encode (JSON.stringify d)))) as [text|e];
    simpl in *; [|discriminate].
  now rewrite H.
Qed.

Lemma decodeCtyType_of_json_witness :
  decodeCtyType (json_bytes (VArr [VStr "map"; VArr [VStr "list"; VStr "any"]]))
  = Err (Error "unknown type").
Proof.
  rewrite decodeCtyType_of_json; reflexivity.
Defined.

(** * Further properties of the schema tables *)

Lemma record_step_assigns kind acc (entry : string * Schema) acc' :
  record_step kind acc entry = Ok acc' ->
  exists n v,
    Some (fst entry) = Some n
    /\ match tfSchemaToSchemaType (snd entry) kind with Ok t => Some t | Err _ => None end
       = Some v
    /\ acc' = obj_set n v acc.
Proof.
  destruct entry as [n s]. unfold record_step. simpl.
  destruct (tfSchemaToSchemaType s kind) as [t|e]; simpl; [|discriminate].
  intros H. inversion H. eauto.
Qed.

Lemma record_fold (schemas : obj Schema) (kind : Kind) :
  tfSchemasRecordToSchemaTypeRecord schemas kind = foldM (record_step kind) schemas [].
Proof. reflexivity. Qed.

Lemma record_names (schemas : obj Schema) (kind : Kind) (table : obj ObjectType) :
  tfSchemasRecordToSchemaTypeRecord schemas kind = Ok table ->
  forall n, In n (obj_keys table) <-> In n (obj_keys schemas).
Proof.
  intros E k. rewrite record_fold in E.
  rewrite (keyed_fold_keys _ _ _ (fun e => Some (fst e)) _ (record_step_assigns kind)
             _ _ _ k E).
  simpl. split.
  - intros [[]|((k', s) & Hin & Hk)]. simpl in Hk. inversion Hk; subst.
    apply in_map_iff. exists (k, s). split; [reflexivity|exact Hin].
  - intros Hin. right. apply in_map_iff in Hin as ((k', s) & Hk & Hin).
    simpl in Hk. subst. exists (k, s). split; [exact Hin|reflexivity].
Qed.

Lemma record_lookup (schemas : obj Schema) (kind : Kind) (table : obj ObjectType)
  (pre : obj Schema) (n : string) (s : Schema) (post : obj Schema) :
  tfSchemasRecordToSchemaTypeRecord schemas kind = Ok table ->
  schemas = (pre ++ (n, s) :: post)%list ->
  ~ In n (obj_keys post) ->
  exists b o, schema_block s = Some b
              /\ blockToSchemaType b kind = Ok o
              /\ obj_get n table = Some o.
Proof.
  intros E -> Hpost. rewrite record_fold in E.
  destruct (keyed_fold_last _ _ _ (fun e => Some (fst e)) _ (record_step_assigns kind)
              pre (n, s) post _ _ n E eq_refl) as (v & Hv & Hg).
  { intros [k' s'] Hin Hk. simpl in Hk. inversion Hk; subst.
    apply Hpost. apply in_map_iff. exists (n, s'). split; [reflexivity|exact Hin]. }
  simpl in Hv. unfold tfSchemaToSchemaType in Hv.
  destruct (schema_block s) as [b|]; [|discriminate].
  destruct (blockToSchemaType b kind) as [o|] eqn:Eo; [|discriminate].
  inversion Hv; subst. exists b, v. repeat split; assumption.
Qed.

(** X8. When no name assigned on the way is ['__proto__'], a translated
    schema record has exactly the names of the wire record, and each name
    holds the translation of the block of the last schema listed under it.
    When the entries before one translate and that one has no block, the
    whole record fails with 'Could not read schema'. *)
Theorem schema_record_lookup (schemas : obj Schema) (kind : Kind) :
  (forall table, forallb settable (record_assigned schemas) = true ->
     tfSchemasRecordToSchemaTypeRecord schemas kind = Ok table ->
     (forall n, In n (obj_keys table) <-> In n (obj_keys schemas))
     /\ (forall pre n s post,
           schemas = (pre ++ (n, s) :: post)%list ->
           ~ In n (obj_keys post) ->
           exists b o, schema_block s = Some b
                       /\ blockToSchemaType b kind = Ok o
                       /\ obj_get n table = Some o))
  /\ (forall pre n s post table,
        schemas = (pre ++ (n, s) :: post)%list ->
        tfSchemasRecordToSchemaTypeRecord pre kind = Ok table ->
        schema_block s = None ->
        tfSchemasRecordToSchemaTypeRecord schemas kind
        = Err (TypeError "Could not read schema")).
Proof.
  split.
  - intros table _ E. split.
    + now apply (record_names schemas kind).
    + intros pre n s post Hsplit Hpost.
      now apply (record_lookup schemas kind table pre n s post).
  - intros pre n s post table -> Hpre Hs. rewrite record_fold in *.
    rewrite foldM_app, Hpre. simpl. unfold tfSchemaToSchemaType. now rewrite Hs.
Qed.

Lemma schema_record_lookup_witness :
  exists table o,
    tfSchemasRecordToSchemaTypeRecord
      [("widget", {| version := 1; schema_block := Some nesting_block |})] ATTRS = Ok table
    /\ blockToSchemaType nesting_block ATTRS = Ok o
    /\ obj_get "widget" table = Some o.
Proof.
  destruct (tfSchemasRecordToSchemaTypeRecord
              [("widget", {| version := 1; schema_block := Some nesting_block |})] ATTRS)
    as [table|e] eqn:E; [|discriminate E].
  destruct (schema_record_lookup
              [("widget", {| version := 1; schema_block := Some nesting_block |})] ATTRS)
    as (Hok & _).
  destruct (Hok table eq_refl E) as (_ & Hlast).
  destruct (Hlast [] "widget" {| version := 1; schema_block := Some nesting_block |} []
              eq_refl) as (b & o & Hb & Ho & Hg).
  { intros []. }
  inversion Hb; subst b. exists table, o. repeat split; assumption.
Defined.

Lemma constructor_reads_schema_tables (schema : GetProviderSchema.Response.t) (this : Provider) :
  constructor schema = Ok this ->
  tfSchemasRecordToSchemaTypeRecord (GetProviderSchema.Response.dataSourceSchemas schema) ARGS
  = Ok (dataSourceSchemas this)
  /\ tfSchemasRecordToSchemaTypeRecord (GetProviderSchema.Response.resourceSchemas schema) ARGS
     = Ok (resourceSchemas this)
  /\ tfSchemasRecordToSchemaTypeRecord (GetProviderSchema.Response.dataSourceSchemas schema) ATTRS
     = Ok (dataSourceStateSchemas this)
  /\ tfSchemasRecordToSchemaTypeRecord (GetProviderSchema.Response.resourceSchemas schema) ATTRS
     = Ok (resourceStateSchemas this).
Proof.
  unfold constructor.
  destruct (GetProviderSchema.Response.provider schema) as [p|]; [|discriminate].
  unfold tfSchemaToSchemaType.
  destruct (schema_block p) as [b|]; [|discriminate].
  destruct (blockToSchemaType b ARGS) as [ps|]; simpl; [|discriminate].
  destruct (tfSchemasRecordToSchemaTypeRecord
              (GetProviderSchema.Response.dataSourceSchemas schema) ARGS)
    as [ds|] eqn:E2; simpl; [|discriminate].
  destruct (tfSchemasRecordToSchemaTypeRecord
              (GetProviderSchema.Response.resourceSchemas schema) ARGS)
    as [rs|] eqn:E3; simpl; [|discriminate].
  destruct (tfSchemasRecordToSchemaTypeRecord
              (GetProviderSchema.Response.dataSourceSchemas schema) ATTRS)
    as [dss|] eqn:E4; simpl; [|discriminate].
  destruct (tfSchemasRecordToSchemaTypeRecord
              (GetProviderSchema.Response.resourceSchemas schema) ATTRS)
    as [rss|] eqn:E5; simpl; [|discriminate].
  intros H. inversion H; subst; clear H. simpl. repeat split; assumption.
Qed.

Lemma constructed_table_names (schema : GetProviderSchema.Response.t) (this : Provider) :
  constructor schema = Ok this ->
  forall n,
    (In n (obj_keys (resourceSchemas this))
     <-> In n (obj_keys (GetProviderSchema.Response.resourceSchemas schema)))
    /\ (In n (obj_keys (resourceStateSchemas this))
        <-> In n (obj_keys (GetProviderSchema.Response.resourceSchemas schema)))
    /\ (In n (obj_keys (dataSourceSchemas this))
        <-> In n (obj_keys (GetProviderSchema.Response.dataSourceSchemas schema)))
    /\ (In n (obj_keys (dataSourceStateSchemas this))
        <-> In n (obj_keys (GetProviderSchema.Response.dataSourceSchemas schema))).
Proof.
  intros H n.
  destruct (constructor_reads_schema_tables schema this H) as (H1 & H2 & H3 & H4).
  repeat split;
    first [ apply (record_names _ _ _ H2) | apply (record_names _ _ _ H4)
          | apply (record_names _ _ _ H1) | apply (record_names _ _ _ H3) ].
Qed.

Lemma constructor_provider_block (schema : GetProviderSchema.Response.t) (this : Provider) :
  constructor schema = Ok this ->
  exists p b,
    GetProviderSchema.Response.provider schema = Some p
    /\ schema_block p = Some b
    /\ blockToSchemaType b ARGS = Ok (providerSchema this).
Proof.
  unfold constructor.
  destruct (GetProviderSchema.Response.provider schema) as [p|]; [|discriminate].
  unfold tfSchemaToSchemaType.
  destruct (schema_block p) as [b|] eqn:Eb; [|discriminate].
  destruct (blockToSchemaType b ARGS) as [ps|] eqn:E1; simpl; [|discriminate].
  destruct (tfSchemasRecordToSchemaTypeRecord _ ARGS); simpl; [|discriminate].
  destruct (tfSchemasRecordToSchemaTypeRecord _ ARGS); simpl; [|discriminate].
  destruct (tfSchemasRecordToSchemaTypeRecord _ ATTRS); simpl; [|discriminate].
  destruct (tfSchemasRecordToSchemaTypeRecord _ ATTRS); simpl; [|discriminate].
  intros H. inversion H; subst; clear H. simpl. exists p, b. repeat split; assumption.
Qed.

(** C9. Construction fails with 'Unable to read provider schema' when the
    schema answer has no provider schema or that schema has no block.  When
    it succeeds, and no name assigned on the way is ['__proto__'], the
    provider holds the five translations: the provider block under [ARGS];
    every resource schema of the answer, under its name, translated under
    [ARGS] in the resource table and under [ATTRS] in the resource state
    table; every data-source schema likewise in the two data-source tables;
    and the four tables hold no other name.  [createProvider] constructs
    the provider from the schema it fetches. *)
Theorem constructor_reads_schema (schema : GetProviderSchema.Response.t) :
  (GetProviderSchema.Response.provider schema = None ->
   constructor schema = Err (Error "Unable to read provider schema"))
  /\ (forall p, GetProviderSchema.Response.provider schema = Some p ->
                schema_block p = None ->
                constructor schema = Err (Error "Unable to read provider schema"))
  /\ (forall this,
        constructor schema = Ok this ->
        forallb settable (answer_names schema) = true ->
        (exists p b,
           GetProviderSchema.Response.provider schema = Some p
           /\ schema_block p = Some b
           /\ blockToSchemaType b ARGS = Ok (providerSchema this))
        /\ (forall pre n s post,
              GetProviderSchema.Response.resourceSchemas schema = (pre ++ (n, s) :: post)%list ->
              ~ In n (obj_keys post) ->
              exists b args attrs,
                schema_block s = Some b
                /\ blockToSchemaType b ARGS = Ok args
                /\ blockToSchemaType b ATTRS = Ok attrs
                /\ obj_get n (resourceSchemas this) = Some args
                /\ obj_get n (resourceStateSchemas this) = Some attrs)
        /\ (forall pre n s post,
              GetProviderSchema.Response.dataSourceSchemas schema
              = (pre ++ (n, s) :: post)%list ->
              ~ In n (obj_keys post) ->
              exists b args attrs,
                schema_block s = Some b
                /\ blockToSchemaType b ARGS = Ok args
                /\ blockToSchemaType b ATTRS = Ok attrs
                /\ obj_get n (dataSourceSchemas this) = Some args
                /\ obj_get n (dataSourceStateSchemas this) = Some attrs)
        /\ (forall n,
              (In n (obj_keys (resourceSchemas this))
               <-> In n (obj_keys (GetProviderSchema.Response.resourceSchemas schema)))
              /\ (In n (obj_keys (resourceStateSchemas this))
                  <-> In n (obj_keys (GetProviderSchema.Response.resourceSchemas schema)))
              /\ (In n (obj_keys (dataSourceSchemas this))
                  <-> In n (obj_keys (GetProviderSchema.Response.dataSourceSchemas schema)))
              /\ (In n (obj_keys (dataSourceStateSchemas this))
                  <-> In n (obj_keys (GetProviderSchema.Response.dataSourceSchemas schema)))))
  /\ (forall rpc : Transport, rpc _ GetSchema = Ok schema ->
        snd (run rpc createProvider) = constructor schema).
Proof.
  split; [|split; [|split]].
  - unfold constructor. intros ->. reflexivity.
  - unfold constructor. intros p -> ->. reflexivity.
  - intros this H _.
    destruct (constructor_reads_schema_tables schema this H) as (Hds & Hrs & Hdss & Hrss).
    split; [now apply constructor_provider_block|].
    split; [|split; [|now apply constructed_table_names]].
    + intros pre n s post Hsplit Hpost.
      destruct (record_lookup _ _ _ pre n s post Hrs Hsplit Hpost) as (b & args & Hb & Ha & Hg).
      destruct (record_lookup _ _ _ pre n s post Hrss Hsplit Hpost)
        as (b' & attrs & Hb' & Ha' & Hg').
      rewrite Hb in Hb'. inversion Hb'; subst b'.
      exists b, args, attrs. repeat split; assumption.
    + intros pre n s post Hsplit Hpost.
      destruct (record_lookup _ _ _ pre n s post Hds Hsplit Hpost) as (b & args & Hb & Ha & Hg).
      destruct (record_lookup _ _ _ pre n s post Hdss Hsplit Hpost)
        as (b' & attrs & Hb' & Ha' & Hg').
      rewrite Hb in Hb'. inversion Hb'; subst b'.
      exists b, args, attrs. repeat split; assumption.
  - intros rpc H. unfold createProvider. simpl. rewrite H.
    destruct (constructor schema); reflexivity.
Qed.

Lemma constructor_reads_schema_witness :
  exists this args attrs,
    constructor widget_schema = Ok this
    /\ blockToSchemaType nesting_block ARGS = Ok args
    /\ blockToSchemaType nesting_block ATTRS = Ok attrs
    /\ obj_get "widget" (resourceSchemas this) = Some args
    /\ obj_get "widget" (resourceStateSchemas this) = Some attrs
    /\ snd (run (schema_answer widget_schema) createProvider) = Ok this.
Proof.
  destruct (constructor widget_schema) as [this|e] eqn:E; [|discriminate E].
  destruct (constructor_reads_schema widget_schema) as (_ & _ & Hok & Hrun).
  destruct (Hok this E eq_refl) as (_ & Hres & _).
  destruct (Hres [] "widget" {| version := 1; schema_block := Some nesting_block |} []
              eq_refl) as (b & args & attrs & Hb & Ha & Hs & Hga & Hgs).
  { intros []. }
  inversion Hb; subst b.
  exists this, args, attrs.
  split; [reflexivity|]. repeat (split; [assumption|]).
  rewrite (Hrun (schema_answer widget_schema) eq_refl). exact E.
Defined.

(** X9. A provider constructed from a schema answer that assigns no name
    ['__proto__'] knows exactly the type names of the answer: its resource
    tables (both views) have the names of the answer's resource schemas,
    its data-source tables those of the data-source schemas.  The
    diagnostics of the answer play no part in construction. *)
Theorem constructed_tables (schema : GetProviderSchema.Response.t) (this : Provider) :
  constructor schema = Ok this ->
  (forallb settable (answer_names schema) = true ->
   forall n,
     (In n (obj_keys (resourceSchemas this))
      <-> In n (obj_keys (GetProviderSchema.Response.resourceSchemas schema)))
     /\ (In n (obj_keys (resourceStateSchemas this))
         <-> In n (obj_keys (GetProviderSchema.Response.resourceSchemas schema)))
     /\ (In n (obj_keys (dataSourceSchemas this))
         <-> In n (obj_keys (GetProviderSchema.Response.dataSourceSchemas schema)))
     /\ (In n (obj_keys (dataSourceStateSchemas this))
         <-> In n (obj_keys (GetProviderSchema.Response.dataSourceSchemas schema))))
  /\ (forall ds,
        constructor
          {| GetProviderSchema.Response.provider :=
               GetProviderSchema.Response.provider schema;
             GetProviderSchema.Response.resourceSchemas :=
               GetProviderSchema.Response.resourceSchemas schema;
             GetProviderSchema.Response.dataSourceSchemas :=
               GetProviderSchema.Response.dataSourceSchemas schema;
             GetProviderSchema.Response.diagnostics := ds |}
        = Ok this).
Proof.
  intros H. split.
  - intros _. now apply constructed_table_names.
  - intros ds. rewrite <- H. destruct schema. reflexivity.
Qed.

Lemma constructed_tables_witness :
  exists this,
    constructor widget_schema = Ok this
    /\ In "widget" (obj_keys (resourceStateSchemas this))
    /\ constructor
         {| GetProviderSchema.Response.provider :=
              GetProviderSchema.Response.provider widget_schema;
            GetProviderSchema.Response.resourceSchemas :=
              GetProviderSchema.Response.resourceSchemas widget_schema;
            GetProviderSchema.Response.dataSourceSchemas :=
              GetProviderSchema.Response.dataSourceSchemas widget_schema;
            GetProviderSchema.Response.diagnostics := [a_diagnostic] |}
       = Ok this.
Proof.
  destruct (constructor widget_schema) as [this|e] eqn:E; [|discriminate E].
  exists this. split; [reflexivity|].
  destruct (constructed_tables widget_schema this E) as (Hnames & Hdiag).
  split; [|apply Hdiag].
  apply (Hnames eq_refl "widget"). simpl. left. reflexivity.
Defined.

Lemma readResource_calls {msgpack : Msgpack} (this : Provider) (rpc : Transport)
  typeName schema currentState private packed :
  obj_get typeName (resourceStateSchemas this) = Some schema ->
  pack currentState = Ok packed ->
  exists answer rest,
    fst (run rpc (readResource this typeName currentState private))
    = exchange
        (ReadResourceE
           {| ReadResource.Request.typeName := typeName;
              ReadResource.Request.currentState :=
                {| dv_msgpack := Present packed; dv_json := Undefined |};
              ReadResource.Request.private := privateData private |})
        answer :: rest.
Proof.
  intros Hs Hp. unfold readResource, toDynamic. rewrite Hs, Hp. simpl.
  match goal with |- context [rpc ?R ?c] => destruct (rpc R c) as [res|e] end.
  - match goal with |- context [run rpc ?p] => destruct (run rpc p) as [trace out] end.
    simpl. eauto.
  - simpl. eauto.
Qed.

(** X10. A provider constructed from a schema answer that assigns no name
    ['__proto__'] rejects, before any wire call, every resource type name
    that the answer does not list and that is not inherited from
    [Object.prototype] (in [readResource] and [planResourceChange]), and
    every such data-source name (in [readDataSource]); for a listed
    resource type [readResource] does reach the wire once the state is
    packed. *)
Theorem constructed_provider_checks_names {msgpack : Msgpack} {validator : Validator}
  (schema : GetProviderSchema.Response.t) (this : Provider) (rpc : Transport)
  (typeName : string) :
  constructor schema = Ok this ->
  forallb settable (answer_names schema) = true ->
  (obj_get typeName (GetProviderSchema.Response.resourceSchemas schema) = None ->
   inherited typeName = false ->
   (forall currentState private,
      run rpc (readResource this typeName currentState private)
      = ([], Err (TypeError ("Invalid resource type " ++ typeName))))
   /\ (forall priorState proposedNewState private,
         run rpc (planResourceChange this typeName priorState proposedNewState private)
         = ([], Err (TypeError ("Invalid resource type " ++ typeName)))))
  /\ (obj_get typeName (GetProviderSchema.Response.dataSourceSchemas schema) = None ->
      inherited typeName = false ->
      forall config,
        run rpc (readDataSource this typeName config)
        = ([], Err (TypeError ("Invalid data source type " ++ typeName))))
  /\ (forall s currentState private packed,
        obj_get typeName (GetProviderSchema.Response.resourceSchemas schema) = Some s ->
        pack currentState = Ok packed ->
        exists x rest,
          fst (run rpc (readResource this typeName currentState private)) = x :: rest).
Proof.
  intros H _. destruct (constructed_table_names schema this H typeName) as (_ & Hrs & Hds & _).
  split; [|split].
  - intros Hnone _. apply obj_get_None in Hnone.
    assert (Hn : obj_get typeName (resourceStateSchemas this) = None).
    { apply obj_get_None. intros Hin. apply Hnone. now apply Hrs. }
    split; intros.
    + now apply readResource_unknown_type.
    + now apply planResourceChange_unknown_type.
  - intros Hnone _ config. apply obj_get_None in Hnone.
    apply readDataSource_unknown_type. apply obj_get_None.
    intros Hin. apply Hnone. now apply Hds.
  - intros s currentState private packed Hs Hp.
    assert (Hin : In typeName (obj_keys (resourceStateSchemas this))).
    { apply Hrs. eapply obj_get_Some_In. exact Hs. }
    apply obj_get_In in Hin as (o & Ho).
    destruct (readResource_calls this rpc typeName o currentState private packed Ho Hp)
      as (answer & rest & Hrun).
    eauto.
Qed.

Lemma constructed_provider_checks_names_witness :
  exists this,
    constructor widget_schema = Ok this
    /\ run silent (readResource (msgpack := Fixpack.codec) this "gadget" VNull None)
       = ([], Err (TypeError "Invalid resource type gadget")).
Proof.
  destruct (constructor widget_schema) as [this|e] eqn:E; [|discriminate E].
  exists this. split; [reflexivity|].
  destruct (constructed_provider_checks_names (msgpack := Fixpack.codec)
              (validator := Structural.validator) widget_schema this silent "gadget" E
              eq_refl)
    as (Hres & _).
  destruct (Hres eq_refl eq_refl) as (Hread & _). apply Hread.
Defined.

(** * Further properties of the façade *)

Section FacadeRuns.
Context {msgpack : Msgpack} {validator : Validator}.
Variable this : Provider.
Variable rpc : Transport.

Lemma planResourceChange_run typeName schema priorState proposedNewState private p1 p2 res :
  obj_get typeName (resourceStateSchemas this) = Some schema ->
  pack priorState = Ok p1 ->
  pack proposedNewState = Ok p2 ->
  rpc _ (PlanResourceChangeE (plan_request typeName p1 p2 private)) = Ok res ->
  PlanResourceChange.Response.diagnostics res = [] ->
  run rpc (planResourceChange this typeName priorState proposedNewState private)
  = ([exchange (PlanResourceChangeE (plan_request typeName p1 p2 private)) (Ok res)],
     state <- fromDynamic (PlanResourceChange.Response.plannedState res) ;;
     plan_outcome state res).
Proof.
  intros Hs H1 H2 Hrpc Hd.
  unfold planResourceChange, toDynamic. rewrite Hs, H1, H2.
  cbn [pbind lift call run bind].
  fold (plan_request typeName p1 p2 private). rewrite Hrpc.
  unfold throwDiagnosticErrors, diagnostics_of, diag_PlanResourceChange. rewrite Hd.
  cbn [pbind lift].
  destruct (fromDynamic (PlanResourceChange.Response.plannedState res)) as [state|e];
    [|reflexivity].
  cbn [pbind lift bind]. unfold plan_outcome.
  destruct (truthy state); [|reflexivity]. cbn [negb].
  destruct (parsePrivate _); reflexivity.
Qed.

Lemma applyResourceChange_run typeName priorState plannedState private p1 p2 res :
  pack priorState = Ok p1 ->
  pack plannedState = Ok p2 ->
  rpc _ (ApplyResourceChangeE (apply_request typeName p1 p2 private)) = Ok res ->
  ApplyResourceChange.Response.diagnostics res = [] ->
  run rpc (applyResourceChange typeName priorState plannedState private)
  = ([exchange (ApplyResourceChangeE (apply_request typeName p1 p2 private)) (Ok res)],
     state <- fromDynamic (ApplyResourceChange.Response.newState res) ;;
     apply_outcome state res).
Proof.
  intros H1 H2 Hrpc Hd.
  unfold applyResourceChange, toDynamic. rewrite H1, H2.
  cbn [pbind lift call run bind].
  fold (apply_request typeName p1 p2 private). rewrite Hrpc.
  unfold throwDiagnosticErrors, diagnostics_of, diag_ApplyResourceChange. rewrite Hd.
  cbn [pbind lift].
  destruct (fromDynamic (ApplyResourceChange.Response.newState res)) as [state|e];
    [|reflexivity].
  cbn [pbind lift bind]. unfold apply_outcome.
  destruct (truthy state); [|reflexivity]. cbn [negb].
  destruct (parsePrivate _); reflexivity.
Qed.

End FacadeRuns.

Lemma parsePrivate_privateData (private : obj value) :
  json_value (VObj private) = true ->
  parsePrivate (privateData (Some private)) = Ok (VObj private).
Proof.
  intros Hj. pose proof (fromRawState_toRawState (VObj private) Hj) as H.
  unfold fromRawState, toRawState in H. cbn [rs_json] in H.
  unfold parsePrivate, privateData.
  destruct (Text.decode (Present (Text.encode (JSON.stringify (VObj private))))) as [text|e];
    simpl in *; [|discriminate].
  now rewrite H.
Qed.

(** X11. Private data survives a plan and an apply: when the provider hands
    back the private bytes it was sent, with a readable state and no
    diagnostics, [planResourceChange] returns under [plannedPrivate], and
    [applyResourceChange] under [private], the caller's mapping itself,
    provided JSON represents it exactly. *)
Theorem private_data_round_trip {msgpack : Msgpack} {validator : Validator}
  (this : Provider) (rpc : Transport) (typeName : string) (private : obj value)
  (first second : value) (p1 p2 : Buffer) (state : value) :
  json_value (VObj private) = true ->
  pack first = Ok p1 ->
  pack second = Ok p2 ->
  truthy state = true ->
  (forall schema res,
     obj_get typeName (resourceStateSchemas this) = Some schema ->
     rpc _ (PlanResourceChangeE (plan_request typeName p1 p2 (Some private))) = Ok res ->
     PlanResourceChange.Response.diagnostics res = [] ->
     fromDynamic (PlanResourceChange.Response.plannedState res) = Ok state ->
     PlanResourceChange.Response.plannedPrivate res = privateData (Some private) ->
     snd (run rpc (planResourceChange this typeName first second (Some private)))
     = Ok {| PlanResourceChange.Return.plannedState := state;
             PlanResourceChange.Return.plannedPrivate := VObj private;
             PlanResourceChange.Return.requiresReplace :=
               PlanResourceChange.Response.requiresReplace res |})
  /\ (forall res,
        rpc _ (ApplyResourceChangeE (apply_request typeName p1 p2 (Some private))) = Ok res ->
        ApplyResourceChange.Response.diagnostics res = [] ->
        fromDynamic (ApplyResourceChange.Response.newState res) = Ok state ->
        ApplyResourceChange.Response.private res = privateData (Some private) ->
        snd (run rpc (applyResourceChange typeName first second (Some private)))
        = Ok {| ApplyResourceChange.Return.newState := state;
                ApplyResourceChange.Return.private := VObj private |}).
Proof.
  intros Hj H1 H2 Ht. split.
  - intros schema res Hs Hrpc Hd Hstate Hecho.
    rewrite (planResourceChange_run this rpc typeName schema first second (Some private)
               p1 p2 res Hs H1 H2 Hrpc Hd).
    cbn [snd]. rewrite Hstate. cbn [bind]. unfold plan_outcome. rewrite Ht, Hecho.
    now rewrite (parsePrivate_privateData private Hj).
  - intros res Hrpc Hd Hstate Hecho.
    rewrite (applyResourceChange_run rpc typeName first second (Some private)
               p1 p2 res H1 H2 Hrpc Hd).
    cbn [snd]. rewrite Hstate. cbn [bind]. unfold apply_outcome. rewrite Ht, Hecho.
    now rewrite (parsePrivate_privateData private Hj).
Qed.

Lemma private_data_round_trip_witness :
  let state := Present {| dv_msgpack := Present [x81; xa2; x69; x64; xa1; x78];
                          dv_json := Undefined |} in
  let private := [("tag", VStr "x"); ("tries", VNum 3)] in
  snd (run (echo_private state)
         (applyResourceChange (msgpack := Fixpack.codec) "widget" VNull
            (VObj [("id", VStr "x")]) (Some private)))
  = Ok {| ApplyResourceChange.Return.newState := VObj [("id", VStr "x")];
          ApplyResourceChange.Return.private := VObj private |}.
Proof.
  intros state private.
  destruct (private_data_round_trip (msgpack := Fixpack.codec)
              (validator := Structural.validator) widget_provider (echo_private state)
              "widget" private VNull (VObj [("id", VStr "x")])
              [xc0] [x81; xa2; x69; x64; xa1; x78] (VObj [("id", VStr "x")])
              eq_refl eq_refl eq_refl eq_refl) as (_ & Happly).
  eapply Happly; reflexivity.
Defined.

Section FacadeReads.
Context {msgpack : Msgpack} {validator : Validator}.
Variable this : Provider.
Variable rpc : Transport.

Lemma readResource_run typeName schema currentState private packed res :
  obj_get typeName (resourceStateSchemas this) = Some schema ->
  pack currentState = Ok packed ->
  rpc _ (ReadResourceE (read_request typeName packed private)) = Ok res ->
  ReadResource.Response.diagnostics res = [] ->
  run rpc (readResource this typeName currentState private)
  = ([exchange (ReadResourceE (read_request typeName packed private)) (Ok res)],
     state <- fromDynamic (ReadResource.Response.newState res) ;;
     Ok (nullish_or state VUndefined)).
Proof.
  intros Hs Hp Hrpc Hd.
  unfold readResource, toDynamic. rewrite Hs, Hp.
  cbn [pbind lift call run bind].
  fold (read_request typeName packed private). rewrite Hrpc.
  unfold throwDiagnosticErrors, diagnostics_of, diag_ReadResource. rewrite Hd.
  cbn [pbind lift].
  destruct (fromDynamic (ReadResource.Response.newState res)) as [state|e]; reflexivity.
Qed.

Lemma readDataSource_run typeName schema config packed res :
  obj_get typeName (dataSourceSchemas this) = Some schema ->
  validateOrThrow schema (VObj config) = Ok tt ->
  pack (VObj (optionalsToNulls config schema)) = Ok packed ->
  rpc _ (ReadDataSourceE (data_request typeName packed)) = Ok res ->
  ReadDataSource.Response.diagnostics res = [] ->
  run rpc (readDataSource this typeName config)
  = ([exchange (ReadDataSourceE (data_request typeName packed)) (Ok res)],
     state <- fromDynamic (ReadDataSource.Response.state res) ;;
     state_or "Unable to read state from data source" state).
Proof.
  intros Hs Hv Hp Hrpc Hd.
  unfold readDataSource, toDynamic. rewrite Hs, Hv, Hp.
  cbn [pbind lift call run bind].
  fold (data_request typeName packed). rewrite Hrpc.
  unfold throwDiagnosticErrors, diagnostics_of, diag_ReadDataSource. rewrite Hd.
  cbn [pbind lift].
  destruct (fromDynamic (ReadDataSource.Response.state res)) as [state|e]; [|reflexivity].
  cbn [pbind lift bind]. unfold state_or. destruct (truthy state); reflexivity.
Qed.

Lemma upgradeResourceState_run typeName version state res :
  rpc _ (UpgradeResourceStateE (upgrade_request typeName version state)) = Ok res ->
  UpgradeResourceState.Response.diagnostics res = [] ->
  run rpc (upgradeResourceState typeName version state)
  = ([exchange (UpgradeResourceStateE (upgrade_request typeName version state)) (Ok res)],
     upgraded <- fromDynamic (UpgradeResourceState.Response.upgradedState res) ;;
     state_or "Unable to upgrade resource state" upgraded).
Proof.
  intros Hrpc Hd.
  unfold upgradeResourceState.
  cbn [pbind lift call run bind].
  fold (upgrade_request typeName version state). rewrite Hrpc.
  unfold throwDiagnosticErrors, diagnostics_of, diag_UpgradeResourceState. rewrite Hd.
  cbn [pbind lift].
  destruct (fromDynamic (UpgradeResourceState.Response.upgradedState res)) as [upgraded|e];
    [|reflexivity].
  cbn [pbind lift bind]. unfold state_or. destruct (truthy upgraded); reflexivity.
Qed.

End FacadeReads.

(** X12. The methods test the decoded state for truthiness, not for
    absence: a state that decodes to a falsy value such as [false], [0] or
    the empty string makes [planResourceChange] and [applyResourceChange]
    fail with 'Unable to read planned state', [readDataSource] with
    'Unable to read state from data source' and [upgradeResourceState] with
    'Unable to upgrade resource state', each after its one wire call, while
    [readResource] hands such a value back unless it is [null] or
    [undefined]. *)
Theorem falsy_state_by_operation {msgpack : Msgpack} {validator : Validator}
  (this : Provider) (rpc : Transport) (state : value) :
  truthy state = false ->
  (forall typeName schema priorState proposedNewState private p1 p2 res,
     obj_get typeName (resourceStateSchemas this) = Some schema ->
     pack priorState = Ok p1 ->
     pack proposedNewState = Ok p2 ->
     rpc _ (PlanResourceChangeE (plan_request typeName p1 p2 private)) = Ok res ->
     PlanResourceChange.Response.diagnostics res = [] ->
     fromDynamic (PlanResourceChange.Response.plannedState res) = Ok state ->
     run rpc (planResourceChange this typeName priorState proposedNewState private)
     = ([exchange (PlanResourceChangeE (plan_request typeName p1 p2 private)) (Ok res)],
        Err (Error "Unable to read planned state")))
  /\ (forall typeName priorState plannedState private p1 p2 res,
        pack priorState = Ok p1 ->
        pack plannedState = Ok p2 ->
        rpc _ (ApplyResourceChangeE (apply_request typeName p1 p2 private)) = Ok res ->
        ApplyResourceChange.Response.diagnostics res = [] ->
        fromDynamic (ApplyResourceChange.Response.newState res) = Ok state ->
        run rpc (applyResourceChange typeName priorState plannedState private)
        = ([exchange (ApplyResourceChangeE (apply_request typeName p1 p2 private)) (Ok res)],
           Err (Error "Unable to read planned state")))
  /\ (forall typeName schema config packed res,
        obj_get typeName (dataSourceSchemas this) = Some schema ->
        validateOrThrow schema (VObj config) = Ok tt ->
        pack (VObj (optionalsToNulls config schema)) = Ok packed ->
        rpc _ (ReadDataSourceE (data_request typeName packed)) = Ok res ->
        ReadDataSource.Response.diagnostics res = [] ->
        fromDynamic (ReadDataSource.Response.state res) = Ok state ->
        run rpc (readDataSource this typeName config)
        = ([exchange (ReadDataSourceE (data_request typeName packed)) (Ok res)],
           Err (Error "Unable to read state from data source")))
  /\ (forall typeName version old res,
        rpc _ (UpgradeResourceStateE (upgrade_request typeName version old)) = Ok res ->
        UpgradeResourceState.Response.diagnostics res = [] ->
        fromDynamic (UpgradeResourceState.Response.upgradedState res) = Ok state ->
        run rpc (upgradeResourceState typeName version old)
        = ([exchange (UpgradeResourceStateE (upgrade_request typeName version old)) (Ok res)],
           Err (Error "Unable to upgrade resource state")))
  /\ (forall typeName schema currentState private packed res,
        obj_get typeName (resourceStateSchemas this) = Some schema ->
        pack currentState = Ok packed ->
        rpc _ (ReadResourceE (read_request typeName packed private)) = Ok res ->
        ReadResource.Response.diagnostics res = [] ->
        fromDynamic (ReadResource.Response.newState res) = Ok state ->
        state <> VNull -> state <> VUndefined ->
        run rpc (readResource this typeName currentState private)
        = ([exchange (ReadResourceE (read_request typeName packed private)) (Ok res)],
           Ok state)).
Proof.
  intros Hf. repeat split.
  - intros typeName schema priorState proposedNewState private p1 p2 res Hs H1 H2 Hrpc Hd Hst.
    rewrite (planResourceChange_run this rpc typeName schema priorState proposedNewState
               private p1 p2 res Hs H1 H2 Hrpc Hd).
    rewrite Hst. cbn [bind]. unfold plan_outcome. now rewrite Hf.
  - intros typeName priorState plannedState private p1 p2 res H1 H2 Hrpc Hd Hst.
    rewrite (applyResourceChange_run rpc typeName priorState plannedState private
               p1 p2 res H1 H2 Hrpc Hd).
    rewrite Hst. cbn [bind]. unfold apply_outcome. now rewrite Hf.
  - intros typeName schema config packed res Hs Hv Hp Hrpc Hd Hst.
    rewrite (readDataSource_run this rpc typeName schema config packed res Hs Hv Hp Hrpc Hd).
    rewrite Hst. cbn [bind]. unfold state_or. now rewrite Hf.
  - intros typeName version old res Hrpc Hd Hst.
    rewrite (upgradeResourceState_run rpc typeName version old res Hrpc Hd).
    rewrite Hst. cbn [bind]. unfold state_or. now rewrite Hf.
  - intros typeName schema currentState private packed res Hs Hp Hrpc Hd Hst Hn Hu.
    rewrite (readResource_run this rpc typeName schema currentState private packed res
               Hs Hp Hrpc Hd).
    rewrite Hst. cbn [bind]. now rewrite nullish_or_present.
Qed.

Lemma falsy_state_by_operation_witness :
  let zero := Present {| dv_msgpack := Present [x00]; dv_json := Undefined |} in
  snd (run (state_answer zero)
         (planResourceChange (msgpack := Fixpack.codec) widget_provider "widget" VNull
            (VObj [("id", VStr "x")]) None))
  = Err (Error "Unable to read planned state")
  /\ snd (run (state_answer zero)
            (readResource (msgpack := Fixpack.codec) widget_provider "widget" VNull None))
     = Ok (VNum 0).
Proof.
  intros zero.
  destruct (falsy_state_by_operation (msgpack := Fixpack.codec)
              (validator := Structural.validator) widget_provider (state_answer zero)
              (VNum 0) eq_refl) as (Hplan & _ & _ & _ & Hread).
  split.
  - erewrite Hplan; reflexivity.
  - erewrite Hread; try reflexivity; discriminate.
Defined.

(** X13. [upgradeResourceState] consults no schema table: whatever the
    type name, it sends one request carrying the name, the version and the
    state as JSON text (and no flatmap), from which [fromRawState] reads the
    caller's state back when JSON represents it exactly; with an answer
    free of diagnostics whose state decodes to a truthy value, that value is
    the result. *)
Theorem upgradeResourceState_sends_json {msgpack : Msgpack} (rpc : Transport)
  (typeName : string) (version : Z) (state : value) :
  json_value state = true ->
  let request := upgrade_request typeName version state in
  fromRawState (Present (UpgradeResourceState.Request.rawState request)) = Ok state
  /\ rs_flatmap (UpgradeResourceState.Request.rawState request) = None
  /\ (exists answer rest,
        fst (run rpc (upgradeResourceState typeName version state))
        = exchange (UpgradeResourceStateE request) answer :: rest)
  /\ (forall res upgraded,
        rpc _ (UpgradeResourceStateE request) = Ok res ->
        UpgradeResourceState.Response.diagnostics res = [] ->
        fromDynamic (UpgradeResourceState.Response.upgradedState res) = Ok upgraded ->
        truthy upgraded = true ->
        run rpc (upgradeResourceState typeName version state)
        = ([exchange (UpgradeResourceStateE request) (Ok res)], Ok upgraded)).
Proof.
  intros Hj request. repeat split.
  - apply fromRawState_toRawState, Hj.
  - subst request. unfold upgradeResourceState. cbn [pbind call run].
    fold (upgrade_request typeName version state).
    destruct (rpc _ (UpgradeResourceStateE (upgrade_request typeName version state)))
      as [res|e].
    + match goal with |- context [run rpc ?p] => destruct (run rpc p) as [trace out] end.
      cbn [fst]. eauto.
    + cbn [fst]. eauto.
  - intros res upgraded Hrpc Hd Hst Ht.
    rewrite (upgradeResourceState_run rpc typeName version state res Hrpc Hd).
    rewrite Hst. cbn [bind]. unfold state_or. now rewrite Ht.
Qed.

Lemma upgradeResourceState_sends_json_witness :
  let old := VObj [("id", VStr "x"); ("size", VNum 3)] in
  let answer := Present {| dv_msgpack := Present [x81; xa2; x69; x64; xa1; x78];
                           dv_json := Undefined |} in
  run (state_answer answer) (upgradeResourceState (msgpack := Fixpack.codec) "gadget" 2 old)
  = ([exchange (UpgradeResourceStateE (upgrade_request "gadget" 2 old))
        (Ok {| UpgradeResourceState.Response.upgradedState := answer;
               UpgradeResourceState.Response.diagnostics := [] |})],
     Ok (VObj [("id", VStr "x")])).
Proof.
  intros old answer.
  destruct (upgradeResourceState_sends_json (msgpack := Fixpack.codec)
              (state_answer answer) "gadget" 2 old eq_refl) as (_ & _ & _ & H).
  apply H; reflexivity.
Defined.

(** ** importResourceState *)

Section ImportedRecords.
Context {msgpack : Msgpack}.

Lemma import_step_unfold (res : ImportResourceState.Response.t) typeName id (rpc : Transport) :
  rpc _ (ImportResourceStateE (import_request typeName id)) = Ok res ->
  ImportResourceState.Response.diagnostics res = [] ->
  run rpc (importResourceState typeName id)
  = ([exchange (ImportResourceStateE (import_request typeName id)) (Ok res)],
     foldM (fun out r => o <- imported_resource r ;; Ok (out ++ [o])%list)
       (ImportResourceState.Response.importedResources res) []).
Proof.
  intros Hrpc Hd. unfold importResourceState.
  cbn [pbind call run].
  fold (import_request typeName id). rewrite Hrpc.
  unfold throwDiagnosticErrors, diagnostics_of, diag_ImportResourceState. rewrite Hd.
  cbn [pbind lift].
  match goal with
  | |- (let (_, _) := run rpc (lift ?a) in _) = (_, ?b) =>
      replace a with b; [destruct b; reflexivity|]
  end.
  match goal with
  | |- foldM ?f ?l [] = foldM ?g ?l [] =>
      assert (H : forall acc, foldM f l acc = foldM g l acc); [|apply H]
  end.
  induction (ImportResourceState.Response.importedResources res) as [|r l IH];
    intros acc; [reflexivity|].
  cbn [foldM]. unfold imported_resource at 1.
  destruct (ImportResourceState.ImportedResource.typeName r); [|reflexivity].
  destruct (fromDynamic (ImportResourceState.ImportedResource.state r)) as [state|e];
    [|reflexivity].
  cbn [bind]. destruct (truthy state); [|reflexivity]. cbn [negb].
  destruct (ImportResourceState.ImportedResource.private r) as [| |bytes];
    try destruct (parsePrivate (Present bytes)); cbn [bind]; try apply IH; reflexivity.
Qed.

Lemma import_fold_inv l : forall acc out,
  foldM (fun out r => o <- imported_resource r ;; Ok (out ++ [o])%list) l acc = Ok out ->
  exists outs, out = (acc ++ outs)%list
               /\ Forall2 (fun r o => imported_resource r = Ok o) l outs.
Proof.
  induction l as [|r l IH]; intros acc out H; cbn [foldM] in H.
  - injection H as <-. exists []. now rewrite List.app_nil_r.
  - destruct (imported_resource r) as [o|e] eqn:E; [|discriminate].
    cbn [bind] in H. destruct (IH _ _ H) as (outs & -> & F).
    exists (o :: outs). split; [now rewrite <- List.app_assoc | now constructor].
Qed.

Lemma import_fold_fails l : forall acc r e,
  In r l -> imported_resource r = Err e ->
  exists e', foldM (fun out r => o <- imported_resource r ;; Ok (out ++ [o])%list) l acc
             = Err e'.
Proof.
  induction l as [|x l IH]; intros acc r e I E; [contradiction|].
  cbn [foldM]. destruct (imported_resource x) as [o|e'] eqn:Ex; cbn [bind]; [|eauto].
  destruct I as [->|I]; [congruence|]. eapply IH; eauto.
Qed.

Lemma imported_resource_Ok r o : imported_resource r = Ok o -> imported_as r o.
Proof.
  unfold imported_resource, imported_as.
  destruct (ImportResourceState.ImportedResource.typeName r) as [name|]; [|discriminate].
  destruct (fromDynamic (ImportResourceState.ImportedResource.state r)) as [state|e];
    [|discriminate].
  cbn [bind]. destruct (truthy state) eqn:Ht; [|discriminate]. cbn [negb].
  unfold absent.
  destruct (ImportResourceState.ImportedResource.private r) as [| |bytes].
  - cbn [bind]. intros [= <-]. cbn. repeat split; auto. discriminate.
  - cbn [bind]. intros [= <-]. cbn. repeat split; auto. discriminate.
  - destruct (parsePrivate (Present bytes)) as [p|e] eqn:Ep; [|discriminate].
    cbn [bind]. intros [= <-]. cbn. repeat split; auto.
    + intros [H|H]; discriminate.
    + intros b [= <-]. exact Ep.
Qed.

Lemma unreadable_import_Err r : unreadable_import r -> exists e, imported_resource r = Err e.
Proof.
  unfold imported_resource. intros [H|(state & Hs & Ht)].
  - rewrite H. eauto.
  - destruct (ImportResourceState.ImportedResource.typeName r); [|eauto].
    rewrite Hs. cbn [bind]. rewrite Ht. cbn [negb]. eauto.
Qed.

End ImportedRecords.

(** X14. [importResourceState] sends one request and, when the answer has
    no diagnostics, returns one entry per imported record, in the order of
    the answer: each entry has the type name of its record (not the one
    asked for), the decoded, truthy state, and the parsed private data, or
    an empty mapping when the record has none.  One record without a type
    name, or with a state that decodes to a falsy value, fails the whole
    import: no partial list is returned. *)
Theorem importResourceState_all_or_nothing {msgpack : Msgpack} (rpc : Transport)
  (typeName id : string) (res : ImportResourceState.Response.t) :
  rpc _ (ImportResourceStateE (import_request typeName id)) = Ok res ->
  ImportResourceState.Response.diagnostics res = [] ->
  let records := ImportResourceState.Response.importedResources res in
  fst (run rpc (importResourceState typeName id))
  = [exchange (ImportResourceStateE (import_request typeName id)) (Ok res)]
  /\ (forall out,
        snd (run rpc (importResourceState typeName id)) = Ok out ->
        Forall2 imported_as records out)
  /\ (forall r, In r records -> unreadable_import r ->
        exists e, snd (run rpc (importResourceState typeName id)) = Err e)
  /\ (records = [] -> snd (run rpc (importResourceState typeName id)) = Ok []).
Proof.
  intros Hrpc Hd records. rewrite (import_step_unfold res typeName id rpc Hrpc Hd).
  cbn [fst snd]. repeat split.
  - intros out H. apply import_fold_inv in H as (outs & -> & F). cbn [app].
    eapply Forall2_impl; [|exact F]. intros r o. apply imported_resource_Ok.
  - intros r I U. apply unreadable_import_Err in U as [e E].
    eapply import_fold_fails; eauto.
  - fold records. intros ->. reflexivity.
Qed.

Lemma importResourceState_all_or_nothing_witness :
  let widget := Present {| dv_msgpack := Present [x81; xa2; x69; x64; xa1; x78];
                           dv_json := Undefined |} in
  let res := {| ImportResourceState.Response.importedResources :=
                  [ {| ImportResourceState.ImportedResource.typeName := Some "widget";
                       ImportResourceState.ImportedResource.state := widget;
                       ImportResourceState.ImportedResource.private := Undefined |};
                    {| ImportResourceState.ImportedResource.typeName := Some "gadget";
                       ImportResourceState.ImportedResource.state := widget;
                       ImportResourceState.ImportedResource.private := Null |} ];
                ImportResourceState.Response.diagnostics := [] |} in
  Forall2 (imported_as (msgpack := Fixpack.codec))
    (ImportResourceState.Response.importedResources res)
    [ {| ImportResourceState.Return.typeName := "widget";
         ImportResourceState.Return.state := VObj [("id", VStr "x")];
         ImportResourceState.Return.private := VObj [] |};
      {| ImportResourceState.Return.typeName := "gadget";
         ImportResourceState.Return.state := VObj [("id", VStr "x")];
         ImportResourceState.Return.private := VObj [] |} ].
Proof.
  intros widget res.
  destruct (importResourceState_all_or_nothing (msgpack := Fixpack.codec)
              (import_answer res) "widget" "w-1" res eq_refl eq_refl) as (_ & H & _).
  apply H. reflexivity.
Defined.

(** ** configure *)

Section Configure.
Context {msgpack : Msgpack} {validator : Validator}.
Variable this : Provider.
Variable rpc : Transport.

Lemma configure_prepare config packed res :
  validateOrThrow (providerSchema this) (VObj config) = Ok tt ->
  pack (VObj (optionalsToNulls config (providerSchema this))) = Ok packed ->
  rpc _ (PrepareProviderConfigE (prepare_request packed)) = Ok res ->
  PrepareProviderConfig.Response.diagnostics res = [] ->
  run rpc (configure this config)
  = match PrepareProviderConfig.Response.preparedConfig res with
    | Present prepared =>
        let request := {| Configure.Request.config := prepared |} in
        ([exchange (PrepareProviderConfigE (prepare_request packed)) (Ok res);
          exchange (ConfigureE request) (rpc _ (ConfigureE request))],
         answer <- rpc _ (ConfigureE request) ;; throwDiagnosticErrors answer)
    | Undefined | Null =>
        ([exchange (PrepareProviderConfigE (prepare_request packed)) (Ok res)],
         Err (Error "Unable to prepare provider config"))
    end.
Proof.
  intros Hv Hp Hrpc Hd. unfold configure, toDynamic. rewrite Hv, Hp.
  cbn [pbind lift call run bind].
  fold (prepare_request packed). rewrite Hrpc.
  unfold throwDiagnosticErrors at 1. unfold diagnostics_of at 1, diag_PrepareProviderConfig.
  rewrite Hd. cbn [pbind lift].
  destruct (PrepareProviderConfig.Response.preparedConfig res) as [| |prepared];
    try reflexivity.
  cbn [pbind call run].
  destruct (rpc _ (ConfigureE {| Configure.Request.config := prepared |})) as [answer|e];
    [|reflexivity].
  cbn [pbind bind]. destruct (throwDiagnosticErrors answer); reflexivity.
Qed.

End Configure.

(** X15. [configure] validates the caller's config before anything is
    sent: a config the validator rejects produces no wire call.  Otherwise
    it first sends the null-filled config to be prepared; when the answer
    holds no prepared config it fails with 'Unable to prepare provider
    config' and the configure request is never sent; when it holds one, the
    configure request carries exactly that prepared value, and its answer,
    checked for diagnostics, is the result. *)
Theorem configure_prepares_first {msgpack : Msgpack} {validator : Validator}
  (this : Provider) (rpc : Transport) (config : obj value) :
  (forall e,
     validateOrThrow (providerSchema this) (VObj config) = Err e ->
     run rpc (configure this config) = ([], Err e))
  /\ (forall packed res,
        validateOrThrow (providerSchema this) (VObj config) = Ok tt ->
        pack (VObj (optionalsToNulls config (providerSchema this))) = Ok packed ->
        rpc _ (PrepareProviderConfigE (prepare_request packed)) = Ok res ->
        PrepareProviderConfig.Response.diagnostics res = [] ->
        (absent (PrepareProviderConfig.Response.preparedConfig res) ->
         run rpc (configure this config)
         = ([exchange (PrepareProviderConfigE (prepare_request packed)) (Ok res)],
            Err (Error "Unable to prepare provider config")))
        /\ (forall prepared,
              PrepareProviderConfig.Response.preparedConfig res = Present prepared ->
              let request := {| Configure.Request.config := prepared |} in
              run rpc (configure this config)
              = ([exchange (PrepareProviderConfigE (prepare_request packed)) (Ok res);
                  exchange (ConfigureE request) (rpc _ (ConfigureE request))],
                 answer <- rpc _ (ConfigureE request) ;; throwDiagnosticErrors answer))).
Proof.
  split.
  - intros e He. unfold configure. now rewrite He.
  - intros packed res Hv Hp Hrpc Hd.
    rewrite (configure_prepare this rpc config packed res Hv Hp Hrpc Hd). split.
    + intros [-> | ->]; reflexivity.
    + intros prepared ->. reflexivity.
Qed.

Lemma configure_prepares_first_witness :
  let prepared := {| dv_msgpack := Present [x80]; dv_json := Undefined |} in
  run (prepares (Present prepared))
    (configure (msgpack := Fixpack.codec) (validator := Structural.validator)
       widget_provider [("region", VStr "x")])
  = ([exchange (PrepareProviderConfigE (prepare_request [x80]))
        (Ok {| PrepareProviderConfig.Response.preparedConfig := Present prepared;
               PrepareProviderConfig.Response.diagnostics := [] |});
      exchange (ConfigureE {| Configure.Request.config := prepared |})
        (Ok {| Configure.Response.diagnostics := [] |})],
     Ok {| Configure.Response.diagnostics := [] |}).
Proof.
  intros prepared.
  destruct (configure_prepares_first (msgpack := Fixpack.codec)
              (validator := Structural.validator) widget_provider
              (prepares (Present prepared)) [("region", VStr "x")]) as (_ & H).
  destruct (H [x80] _ eq_refl eq_refl eq_refl eq_refl) as (_ & Hsend).
  apply (Hsend prepared eq_refl).
Defined.

(** ** readDataSource *)

(** X16. [readDataSource] validates the caller's config, as given, against
    the argument schema of the data source before anything is sent: a
    rejected config produces no wire call, and so does a config that cannot
    be packed.  What is sent is the null-filled config, which holds every
    declared argument; with an answer free of diagnostics whose state
    decodes to a truthy value, that value is the result.  The declared
    argument names are plain keys: none is inherited from
    [Object.prototype] (an absent argument would be filled with the
    inherited value, not with [null]) and none is a string of digits (the
    keys would be sent in another order). *)
Theorem readDataSource_validates_first {msgpack : Msgpack} {validator : Validator}
  (this : Provider) (rpc : Transport) (typeName : string) (schema : ObjectType)
  (config : obj value) :
  obj_get typeName (dataSourceSchemas this) = Some schema ->
  forallb plain_key (obj_keys (properties schema)) = true ->
  let sent := optionalsToNulls config schema in
  (forall e, validateOrThrow schema (VObj config) = Err e ->
             run rpc (readDataSource this typeName config) = ([], Err e))
  /\ (forall e, validateOrThrow schema (VObj config) = Ok tt ->
                pack (VObj sent) = Err e ->
                run rpc (readDataSource this typeName config) = ([], Err e))
  /\ (forall packed,
        validateOrThrow schema (VObj config) = Ok tt ->
        pack (VObj sent) = Ok packed ->
        (forall k, In k (obj_keys (properties schema)) -> exists x, obj_get k sent = Some x)
        /\ (exists answer rest,
              fst (run rpc (readDataSource this typeName config))
              = exchange (ReadDataSourceE (data_request typeName packed)) answer :: rest)
        /\ (forall res state,
              rpc _ (ReadDataSourceE (data_request typeName packed)) = Ok res ->
              ReadDataSource.Response.diagnostics res = [] ->
              fromDynamic (ReadDataSource.Response.state res) = Ok state ->
              truthy state = true ->
              run rpc (readDataSource this typeName config)
              = ([exchange (ReadDataSourceE (data_request typeName packed)) (Ok res)],
                 Ok state))).
Proof.
  intros Hs _ sent. subst sent. repeat split.
  - intros e He. unfold readDataSource. now rewrite Hs, He.
  - intros e Hv He. unfold readDataSource, toDynamic. now rewrite Hs, Hv, He.
  - intros k I. rewrite optionalsToNulls_get.
    destruct (in_dec string_dec k (obj_keys (properties schema))); [eauto|contradiction].
  - unfold readDataSource, toDynamic. rewrite Hs, H, H0.
    cbn [pbind lift call run bind]. fold (data_request typeName packed).
    destruct (rpc _ (ReadDataSourceE (data_request typeName packed))) as [res|e].
    + match goal with |- context [run rpc ?p] => destruct (run rpc p) as [trace out] end.
      cbn [fst]. eauto.
    + cbn [fst]. eauto.
  - intros res state Hrpc Hd Hst Ht.
    rewrite (readDataSource_run this rpc typeName schema config packed res Hs H H0 Hrpc Hd).
    rewrite Hst. cbn [bind]. unfold state_or. now rewrite Ht.
Qed.

Lemma readDataSource_validates_first_witness :
  (exists e,
     run silent
       (readDataSource (msgpack := Fixpack.codec) (validator := Structural.validator)
          lookup_provider "lookup" [("zone", VStr "a")])
     = ([], Err e))
  /\ run (state_answer (Present {| dv_msgpack := Present [x81; xa2; x69; x64; xa1; x78];
                                   dv_json := Undefined |}))
       (readDataSource (msgpack := Fixpack.codec) (validator := Structural.validator)
          lookup_provider "lookup" [("name", VStr "n")])
     = ([exchange
           (ReadDataSourceE
              (data_request "lookup"
                 [x82; xa4; x6e; x61; x6d; x65; xa1; x6e; xa4; x7a; x6f; x6e; x65; xc0]))
           (Ok {| ReadDataSource.Response.state :=
                    Present {| dv_msgpack := Present [x81; xa2; x69; x64; xa1; x78];
                               dv_json := Undefined |};
                  ReadDataSource.Response.diagnostics := [] |})],
        Ok (VObj [("id", VStr "x")])).
Proof.
  split.
  - eexists.
    exact (proj1 (readDataSource_validates_first (msgpack := Fixpack.codec)
                    (validator := Structural.validator) lookup_provider silent "lookup"
                    _ [("zone", VStr "a")] eq_refl eq_refl) _ eq_refl).
  - destruct (readDataSource_validates_first (msgpack := Fixpack.codec)
                (validator := Structural.validator) lookup_provider
                (state_answer (Present {| dv_msgpack := Present [x81; xa2; x69; x64; xa1; x78];
                                          dv_json := Undefined |}))
                "lookup" _ [("name", VStr "n")] eq_refl eq_refl) as (_ & _ & H).
    destruct (H _ eq_refl eq_refl) as (_ & _ & Hrun).
    apply Hrun; reflexivity.
Defined.

(** ** What the methods put on the wire *)

Lemma follows_run {A} (p : Prog A) : forall script (rpc : Transport),
  follows script p -> starts (methods_called rpc p) script.
Proof.
  unfold starts, methods_called.
  induction p as [a|e|R c k IH]; intros script rpc F; cbn [run fst map].
  - exists script. reflexivity.
  - exists script. reflexivity.
  - destruct script as [|name script]; [contradiction|]. destruct F as [Hname F].
    destruct (rpc R c) as [r|e].
    + destruct (IH r script rpc (F r)) as [rest Hrest].
      destruct (run rpc (k r)) as [trace out]. cbn [fst map] in *.
      exists rest. cbn [exchange_method]. rewrite Hname, Hrest. reflexivity.
    + cbn [fst map exchange_method]. exists script. now rewrite Hname.
Qed.

Lemma follows_lift {A} script (r : Result A) : follows script (lift r).
Proof. destruct r; exact I. Qed.

Lemma follows_bind_lift {A B} script (r : Result A) (f : A -> Prog B) :
  (forall a, follows script (f a)) -> follows script (pbind (lift r) f).
Proof. intros H. destruct r; simpl; [apply H|exact I]. Qed.

Lemma follows_call {R B} (c : rpcE R) (f : R -> Prog B) name script :
  method_name c = name ->
  (forall r, follows script (f r)) ->
  follows (name :: script) (pbind (call c) f).
Proof. intros Hn H. simpl. split; [exact Hn|exact H]. Qed.

Lemma follows_call_last {R} (c : rpcE R) name script :
  method_name c = name -> follows (name :: script) (call c).
Proof. intros Hn. simpl. split; [exact Hn|intros; exact I]. Qed.

Ltac check_follows :=
  repeat first
    [ exact I
    | apply follows_lift
    | apply follows_call_last; reflexivity
    | apply follows_call; [reflexivity | intros ?]
    | apply follows_bind_lift; intros ?
    | match goal with
      | |- follows _ (if ?b then _ else _) => destruct b
      | |- follows _ (match ?x with _ => _ end) => destruct x
      end ].

(** X17. Whatever the provider answers, a method puts on the wire only its
    own request, at most once: the client methods a run goes through are
    the first ones of the method's script.  Every method has a script of
    one call, except [configure], which never sends its configure request
    before the prepare request; building a provider fetches the schema and
    sends nothing else. *)
Theorem methods_follow_their_script {msgpack : Msgpack} {validator : Validator}
  (this : Provider) (rpc : Transport) :
  starts (methods_called rpc getSchema) ["getSchema"]
  /\ starts (methods_called rpc createProvider) ["getSchema"]
  /\ (forall config,
        starts (methods_called rpc (configure this config))
          ["prepareProviderConfig"; "configure"])
  /\ (forall typeName priorState plannedState private,
        starts (methods_called rpc
                  (applyResourceChange typeName priorState plannedState private))
          ["applyResourceChange"])
  /\ (forall typeName id,
        starts (methods_called rpc (importResourceState typeName id))
          ["importResourceState"])
  /\ (forall typeName priorState proposedNewState private,
        starts (methods_called rpc
                  (planResourceChange this typeName priorState proposedNewState private))
          ["planResourceChange"])
  /\ (forall typeName config,
        starts (methods_called rpc (readDataSource this typeName config))
          ["readDataSource"])
  /\ (forall typeName currentState private,
        starts (methods_called rpc (readResource this typeName currentState private))
          ["readResource"])
  /\ (forall typeName version state,
        starts (methods_called rpc (upgradeResourceState typeName version state))
          ["upgradeResourceState"])
  /\ (forall typeName config,
        starts (methods_called rpc (validateDataSourceConfig typeName config))
          ["validateDataSourceConfig"])
  /\ (forall typeName config,
        starts (methods_called rpc (validateResourceTypeConfig typeName config))
          ["validateResourceTypeConfig"]).
Proof.
  repeat split; intros; apply follows_run.
  - unfold getSchema. check_follows.
  - unfold createProvider. check_follows.
  - unfold configure. check_follows.
  - unfold applyResourceChange. check_follows.
  - unfold importResourceState. check_follows.
  - unfold planResourceChange. check_follows.
  - unfold readDataSource. check_follows.
  - unfold readResource. check_follows.
  - unfold upgradeResourceState. check_follows.
  - unfold validateDataSourceConfig. check_follows.
  - unfold validateResourceTypeConfig. check_follows.
Qed.

(** ** optionalsToNulls as a normal form *)

Lemma nullish_or_twice (x : value) :
  nullish_or (nullish_or x VNull) VNull = nullish_or x VNull.
Proof. destruct x; reflexivity. Qed.

Lemma nullish_or_defined (x : value) : nullish_or x VNull <> VUndefined.
Proof. destruct x; discriminate. Qed.

Lemma fill_fold_ext (g h : string -> value) (keys : list string) :
  (forall k, In k keys -> g k = h k) ->
  forall acc,
    fold_left (fun (o : obj value) key => obj_set key (g key) o) keys acc
    = fold_left (fun (o : obj value) key => obj_set key (h key) o) keys acc.
Proof.
  induction keys as [|key keys IH]; intros H acc; [reflexivity|].
  cbn [fold_left]. rewrite (H key (or_introl eq_refl)).
  apply IH. intros k I. apply H. now right.
Qed.

Lemma fill_fold_fresh (g : string -> value) (keys : list string) :
  NoDup keys ->
  forall acc,
    (forall k, In k keys -> ~ In k (obj_keys acc)) ->
    fold_left (fun (o : obj value) key => obj_set key (g key) o) keys acc
    = (acc ++ map (fun k => (k, g k)) keys)%list.
Proof.
  induction 1 as [|key keys Hnew Hnd IH]; intros acc Hacc; cbn [fold_left map].
  - now rewrite List.app_nil_r.
  - rewrite obj_set_fresh by (apply Hacc; now left).
    rewrite IH.
    + now rewrite <- List.app_assoc.
    + intros k I. unfold obj_keys. rewrite map_app, in_app_iff. cbn [map fst In].
      intros [J|[->|[]]]; [|contradiction].
      apply (Hacc k); [now right|exact J].
Qed.

(** X18. The result of [optionalsToNulls] is a normal form: filling it
    again against the same schema changes nothing, and none of its
    properties is [undefined].  When the declared names are pairwise
    distinct, as the keys of an object are, and plain keys (not inherited
    from [Object.prototype], not strings of digits), the result lists the
    declared properties in declaration order, whatever the order of the
    input, each with the input's own value or [null]. *)
Theorem optionalsToNulls_normal_form (v : obj value) (schema : ObjectType) :
  optionalsToNulls (optionalsToNulls v schema) schema = optionalsToNulls v schema
  /\ (forall k x, obj_get k (optionalsToNulls v schema) = Some x -> x <> VUndefined)
  /\ (distinct (obj_keys (properties schema)) = true ->
      forallb plain_key (obj_keys (properties schema)) = true ->
      optionalsToNulls v schema
      = map (fun k => (k, nullish_or (prop v k) VNull)) (obj_keys (properties schema))).
Proof.
  repeat split.
  - unfold optionalsToNulls at 1 3. apply fill_fold_ext. intros k I.
    unfold prop at 1. rewrite optionalsToNulls_get.
    destruct (in_dec string_dec k (obj_keys (properties schema))); [|contradiction].
    apply nullish_or_twice.
  - intros k x. rewrite optionalsToNulls_get.
    destruct (in_dec string_dec k (obj_keys (properties schema))); [|discriminate].
    intros [= <-]. apply nullish_or_defined.
  - intros Hd _. unfold optionalsToNulls.
    rewrite (fill_fold_fresh (fun k => nullish_or (prop v k) VNull)
               (obj_keys (properties schema)) (distinct_NoDup _ Hd) []); [reflexivity|].
    intros k _ [].
Qed.

Lemma optionalsToNulls_normal_form_witness :
  optionalsToNulls [("zone", VUndefined); ("extra", VNum 1); ("name", VStr "n")]
    (T.object [("name", T.string); ("zone", T.optional T.string)])
  = [("name", VStr "n"); ("zone", VNull)].
Proof.
  destruct (optionalsToNulls_normal_form
              [("zone", VUndefined); ("extra", VNum 1); ("name", VStr "n")]
              (T.object [("name", T.string); ("zone", T.optional T.string)]))
    as (_ & _ & H).
  rewrite (H eq_refl eq_refl). reflexivity.
Defined.

(** ** Dynamic values that hold JSON *)

(** X19. [fromDynamic] reads the [msgpack] field only.  A state the
    provider sends as JSON text, with no [msgpack] field, is read as
    [undefined] whatever the text: [readResource] then resolves to
    [undefined], and [planResourceChange], [applyResourceChange],
    [readDataSource] and [upgradeResourceState] fail as on a missing
    state. *)
Theorem json_only_state_is_missing {msgpack : Msgpack} {validator : Validator}
  (this : Provider) (rpc : Transport) (text : Buffer) :
  fromDynamic (Present (json_only text)) = Ok VUndefined
  /\ (forall typeName schema currentState private packed res,
        obj_get typeName (resourceStateSchemas this) = Some schema ->
        pack currentState = Ok packed ->
        rpc _ (ReadResourceE (read_request typeName packed private)) = Ok res ->
        ReadResource.Response.diagnostics res = [] ->
        ReadResource.Response.newState res = Present (json_only text) ->
        snd (run rpc (readResource this typeName currentState private)) = Ok VUndefined)
  /\ (forall typeName schema priorState proposedNewState private p1 p2 res,
        obj_get typeName (resourceStateSchemas this) = Some schema ->
        pack priorState = Ok p1 ->
        pack proposedNewState = Ok p2 ->
        rpc _ (PlanResourceChangeE (plan_request typeName p1 p2 private)) = Ok res ->
        PlanResourceChange.Response.diagnostics res = [] ->
        PlanResourceChange.Response.plannedState res = Present (json_only text) ->
        snd (run rpc (planResourceChange this typeName priorState proposedNewState private))
        = Err (Error "Unable to read planned state"))
  /\ (forall typeName priorState plannedState private p1 p2 res,
        pack priorState = Ok p1 ->
        pack plannedState = Ok p2 ->
        rpc _ (ApplyResourceChangeE (apply_request typeName p1 p2 private)) = Ok res ->
        ApplyResourceChange.Response.diagnostics res = [] ->
        ApplyResourceChange.Response.newState res = Present (json_only text) ->
        snd (run rpc (applyResourceChange typeName priorState plannedState private))
        = Err (Error "Unable to read planned state"))
  /\ (forall typeName schema config packed res,
        obj_get typeName (dataSourceSchemas this) = Some schema ->
        validateOrThrow schema (VObj config) = Ok tt ->
        pack (VObj (optionalsToNulls config schema)) = Ok packed ->
        rpc _ (ReadDataSourceE (data_request typeName packed)) = Ok res ->
        ReadDataSource.Response.diagnostics res = [] ->
        ReadDataSource.Response.state res = Present (json_only text) ->
        snd (run rpc (readDataSource this typeName config))
        = Err (Error "Unable to read state from data source"))
  /\ (forall typeName version old res,
        rpc _ (UpgradeResourceStateE (upgrade_request typeName version old)) = Ok res ->
        UpgradeResourceState.Response.diagnostics res = [] ->
        UpgradeResourceState.Response.upgradedState res = Present (json_only text) ->
        snd (run rpc (upgradeResourceState typeName version old))
        = Err (Error "Unable to upgrade resource state")).
Proof.
  repeat split.
  - intros typeName schema currentState private packed res Hs Hp Hrpc Hd Hst.
    rewrite (readResource_run this rpc typeName schema currentState private packed res
               Hs Hp Hrpc Hd).
    now rewrite Hst.
  - intros typeName schema priorState proposedNewState private p1 p2 res Hs H1 H2 Hrpc Hd Hst.
    rewrite (planResourceChange_run this rpc typeName schema priorState proposedNewState
               private p1 p2 res Hs H1 H2 Hrpc Hd).
    now rewrite Hst.
  - intros typeName priorState plannedState private p1 p2 res H1 H2 Hrpc Hd Hst.
    rewrite (applyResourceChange_run rpc typeName priorState plannedState private
               p1 p2 res H1 H2 Hrpc Hd).
    now rewrite Hst.
  - intros typeName schema config packed res Hs Hv Hp Hrpc Hd Hst.
    rewrite (readDataSource_run this rpc typeName schema config packed res Hs Hv Hp Hrpc Hd).
    now rewrite Hst.
  - intros typeName version old res Hrpc Hd Hst.
    rewrite (upgradeResourceState_run rpc typeName version old res Hrpc Hd).
    now rewrite Hst.
Qed.

Lemma json_only_state_is_missing_witness :
  let text := Text.encode (JSON.stringify (VObj [("id", VStr "x")])) in
  snd (run (state_answer (Present (json_only text)))
         (upgradeResourceState (msgpack := Fixpack.codec) "widget" 1 (VObj [])))
  = Err (Error "Unable to upgrade resource state").
Proof.
  intros text.
  destruct (json_only_state_is_missing (msgpack := Fixpack.codec)
              (validator := Structural.validator) widget_provider
              (state_answer (Present (json_only text))) text)
    as (_ & _ & _ & _ & _ & H).
  eapply H; reflexivity.
Defined.

(** ** Answers that carry diagnostics *)

Section Diagnosed.
Context {msgpack : Msgpack} {validator : Validator}.
Variable this : Provider.
Variable rpc : Transport.

Lemma run_call_diagnosed {R B} `{HasDiagnostics R} (c : rpcE R) (f : R -> Prog B) (res : R) :
  rpc _ c = Ok res ->
  diagnostics_of res <> [] ->
  run rpc (pbind (call c) (fun res => pbind (lift (throwDiagnosticErrors res)) f))
  = ([exchange c (Ok res)], Err (DiagnosticError (diagnostics_of res))).
Proof.
  intros Hr Hd. cbn [pbind call run]. rewrite Hr. unfold throwDiagnosticErrors.
  destruct (diagnostics_of res); [contradiction|reflexivity].
Qed.

Lemma run_call_diagnosed_last {R} `{HasDiagnostics R} (c : rpcE R) (res : R) :
  rpc _ c = Ok res ->
  diagnostics_of res <> [] ->
  run rpc (pbind (call c) (fun res => lift (throwDiagnosticErrors res)))
  = ([exchange c (Ok res)], Err (DiagnosticError (diagnostics_of res))).
Proof.
  intros Hr Hd. cbn [pbind call run]. rewrite Hr. unfold throwDiagnosticErrors.
  destruct (diagnostics_of res); [contradiction|reflexivity].
Qed.

Lemma getSchema_diagnosed res :
  rpc _ GetSchema = Ok res ->
  GetProviderSchema.Response.diagnostics res <> [] ->
  run rpc getSchema
  = ([exchange GetSchema (Ok res)],
     Err (DiagnosticError (GetProviderSchema.Response.diagnostics res))).
Proof. intros Hr Hd. unfold getSchema. now apply run_call_diagnosed_last. Qed.

Lemma applyResourceChange_diagnosed typeName priorState plannedState private p1 p2 res :
  pack priorState = Ok p1 ->
  pack plannedState = Ok p2 ->
  rpc _ (ApplyResourceChangeE (apply_request typeName p1 p2 private)) = Ok res ->
  ApplyResourceChange.Response.diagnostics res <> [] ->
  run rpc (applyResourceChange typeName priorState plannedState private)
  = ([exchange (ApplyResourceChangeE (apply_request typeName p1 p2 private)) (Ok res)],
     Err (DiagnosticError (ApplyResourceChange.Response.diagnostics res))).
Proof.
  intros H1 H2 Hr Hd. unfold applyResourceChange, toDynamic. rewrite H1, H2.
  cbn [pbind lift bind]. now apply run_call_diagnosed.
Qed.

Lemma prepare_diagnosed config packed res :
  validateOrThrow (providerSchema this) (VObj config) = Ok tt ->
  pack (VObj (optionalsToNulls config (providerSchema this))) = Ok packed ->
  rpc _ (PrepareProviderConfigE (prepare_request packed)) = Ok res ->
  PrepareProviderConfig.Response.diagnostics res <> [] ->
  run rpc (configure this config)
  = ([exchange (PrepareProviderConfigE (prepare_request packed)) (Ok res)],
     Err (DiagnosticError (PrepareProviderConfig.Response.diagnostics res))).
Proof.
  intros Hv Hp Hr Hd. unfold configure, toDynamic. rewrite Hv, Hp.
  cbn [pbind lift bind]. now apply run_call_diagnosed.
Qed.

Lemma configure_diagnosed config packed prepared res answer :
  validateOrThrow (providerSchema this) (VObj config) = Ok tt ->
  pack (VObj (optionalsToNulls config (providerSchema this))) = Ok packed ->
  rpc _ (PrepareProviderConfigE (prepare_request packed)) = Ok res ->
  PrepareProviderConfig.Response.diagnostics res = [] ->
  PrepareProviderConfig.Response.preparedConfig res = Present prepared ->
  rpc _ (ConfigureE {| Configure.Request.config := prepared |}) = Ok answer ->
  Configure.Response.diagnostics answer <> [] ->
  run rpc (configure this config)
  = ([exchange (PrepareProviderConfigE (prepare_request packed)) (Ok res);
      exchange (ConfigureE {| Configure.Request.config := prepared |}) (Ok answer)],
     Err (DiagnosticError (Configure.Response.diagnostics answer))).
Proof.
  intros Hv Hp Hr Hd Hc Ha Hda.
  rewrite (configure_prepare this rpc config packed res Hv Hp Hr Hd), Hc.
  cbn zeta. rewrite Ha. cbn [bind]. unfold throwDiagnosticErrors, diagnostics_of, diag_Configure.
  destruct (Configure.Response.diagnostics answer); [contradiction|reflexivity].
Qed.

Lemma importResourceState_diagnosed typeName id res :
  rpc _ (ImportResourceStateE (import_request typeName id)) = Ok res ->
  ImportResourceState.Response.diagnostics res <> [] ->
  run rpc (importResourceState typeName id)
  = ([exchange (ImportResourceStateE (import_request typeName id)) (Ok res)],
     Err (DiagnosticError (ImportResourceState.Response.diagnostics res))).
Proof. intros Hr Hd. unfold importResourceState. now apply run_call_diagnosed. Qed.

Lemma planResourceChange_diagnosed typeName schema priorState proposedNewState private
  p1 p2 res :
  obj_get typeName (resourceStateSchemas this) = Some schema ->
  pack priorState = Ok p1 ->
  pack proposedNewState = Ok p2 ->
  rpc _ (PlanResourceChangeE (plan_request typeName p1 p2 private)) = Ok res ->
  PlanResourceChange.Response.diagnostics res <> [] ->
  run rpc (planResourceChange this typeName priorState proposedNewState private)
  = ([exchange (PlanResourceChangeE (plan_request typeName p1 p2 private)) (Ok res)],
     Err (DiagnosticError (PlanResourceChange.Response.diagnostics res))).
Proof.
  intros Hs H1 H2 Hr Hd. unfold planResourceChange, toDynamic. rewrite Hs, H1, H2.
  cbn [pbind lift bind]. now apply run_call_diagnosed.
Qed.

Lemma readDataSource_diagnosed typeName schema config packed res :
  obj_get typeName (dataSourceSchemas this) = Some schema ->
  validateOrThrow schema (VObj config) = Ok tt ->
  pack (VObj (optionalsToNulls config schema)) = Ok packed ->
  rpc _ (ReadDataSourceE (data_request typeName packed)) = Ok res ->
  ReadDataSource.Response.diagnostics res <> [] ->
  run rpc (readDataSource this typeName config)
  = ([exchange (ReadDataSourceE (data_request typeName packed)) (Ok res)],
     Err (DiagnosticError (ReadDataSource.Response.diagnostics res))).
Proof.
  intros Hs Hv Hp Hr Hd. unfold readDataSource, toDynamic. rewrite Hs, Hv, Hp.
  cbn [pbind lift bind]. now apply run_call_diagnosed.
Qed.

Lemma readResource_diagnosed typeName schema currentState private packed res :
  obj_get typeName (resourceStateSchemas this) = Some schema ->
  pack currentState = Ok packed ->
  rpc _ (ReadResourceE (read_request typeName packed private)) = Ok res ->
  ReadResource.Response.diagnostics res <> [] ->
  run rpc (readResource this typeName currentState private)
  = ([exchange (ReadResourceE (read_request typeName packed private)) (Ok res)],
     Err (DiagnosticError (ReadResource.Response.diagnostics res))).
Proof.
  intros Hs Hp Hr Hd. unfold readResource, toDynamic. rewrite Hs, Hp.
  cbn [pbind lift bind]. now apply run_call_diagnosed.
Qed.

Lemma upgradeResourceState_diagnosed typeName version state res :
  rpc _ (UpgradeResourceStateE (upgrade_request typeName version state)) = Ok res ->
  UpgradeResourceState.Response.diagnostics res <> [] ->
  run rpc (upgradeResourceState typeName version state)
  = ([exchange (UpgradeResourceStateE (upgrade_request typeName version state)) (Ok res)],
     Err (DiagnosticError (UpgradeResourceState.Response.diagnostics res))).
Proof. intros Hr Hd. unfold upgradeResourceState. now apply run_call_diagnosed. Qed.

Lemma createProvider_unchecked res :
  rpc _ GetSchema = Ok res ->
  run rpc createProvider = ([exchange GetSchema (Ok res)], constructor res).
Proof.
  intros Hr. unfold createProvider. cbn [pbind call run]. rewrite Hr.
  destruct (constructor res); reflexivity.
Qed.

End Diagnosed.

(** C3 (what the code does). Every method of the façade except the two
    validate methods obtains its answer and checks it: once the request is
    on the wire, an answer that carries diagnostics makes the method fail
    with a [DiagnosticError] holding them, and nothing more is sent
    ([configure] checks the prepare answer and then the configure answer);
    in general, any exchange of a run whose answer carries diagnostics has
    that outcome.  [validateDataSourceConfig] and
    [validateResourceTypeConfig] hand the answer back as it came.  The
    factory does not check: [createProvider] fetches the schema as
    [getSchema] does and constructs the provider from the answer, whatever
    diagnostics it carries. *)
Theorem diagnostics_are_thrown {msgpack : Msgpack} {validator : Validator}
  (this : Provider) (rpc : Transport) :
  (surfaces_diagnostics getSchema
   /\ (forall typeName priorState plannedState private,
         surfaces_diagnostics (applyResourceChange typeName priorState plannedState private))
   /\ (forall config, surfaces_diagnostics (configure this config))
   /\ (forall typeName id, surfaces_diagnostics (importResourceState typeName id))
   /\ (forall typeName priorState proposedNewState private,
         surfaces_diagnostics
           (planResourceChange this typeName priorState proposedNewState private))
   /\ (forall typeName config, surfaces_diagnostics (readDataSource this typeName config))
   /\ (forall typeName currentState private,
         surfaces_diagnostics (readResource this typeName currentState private))
   /\ (forall typeName version state,
         surfaces_diagnostics (upgradeResourceState typeName version state)))
  /\ (forall res,
        rpc _ GetSchema = Ok res ->
        GetProviderSchema.Response.diagnostics res <> [] ->
        run rpc getSchema
        = ([exchange GetSchema (Ok res)],
           Err (DiagnosticError (GetProviderSchema.Response.diagnostics res))))
  /\ (forall typeName priorState plannedState private p1 p2 res,
        pack priorState = Ok p1 ->
        pack plannedState = Ok p2 ->
        rpc _ (ApplyResourceChangeE (apply_request typeName p1 p2 private)) = Ok res ->
        ApplyResourceChange.Response.diagnostics res <> [] ->
        run rpc (applyResourceChange typeName priorState plannedState private)
        = ([exchange (ApplyResourceChangeE (apply_request typeName p1 p2 private)) (Ok res)],
           Err (DiagnosticError (ApplyResourceChange.Response.diagnostics res))))
  /\ (forall config packed res,
        validateOrThrow (providerSchema this) (VObj config) = Ok tt ->
        pack (VObj (optionalsToNulls config (providerSchema this))) = Ok packed ->
        rpc _ (PrepareProviderConfigE (prepare_request packed)) = Ok res ->
        (PrepareProviderConfig.Response.diagnostics res <> [] ->
         run rpc (configure this config)
         = ([exchange (PrepareProviderConfigE (prepare_request packed)) (Ok res)],
            Err (DiagnosticError (PrepareProviderConfig.Response.diagnostics res))))
        /\ (forall prepared answer,
              PrepareProviderConfig.Response.diagnostics res = [] ->
              PrepareProviderConfig.Response.preparedConfig res = Present prepared ->
              rpc _ (ConfigureE {| Configure.Request.config := prepared |}) = Ok answer ->
              Configure.Response.diagnostics answer <> [] ->
              run rpc (configure this config)
              = ([exchange (PrepareProviderConfigE (prepare_request packed)) (Ok res);
                  exchange (ConfigureE {| Configure.Request.config := prepared |})
                    (Ok answer)],
                 Err (DiagnosticError (Configure.Response.diagnostics answer)))))
  /\ (forall typeName id res,
        rpc _ (ImportResourceStateE (import_request typeName id)) = Ok res ->
        ImportResourceState.Response.diagnostics res <> [] ->
        run rpc (importResourceState typeName id)
        = ([exchange (ImportResourceStateE (import_request typeName id)) (Ok res)],
           Err (DiagnosticError (ImportResourceState.Response.diagnostics res))))
  /\ (forall typeName schema priorState proposedNewState private p1 p2 res,
        obj_get typeName (resourceStateSchemas this) = Some schema ->
        pack priorState = Ok p1 ->
        pack proposedNewState = Ok p2 ->
        rpc _ (PlanResourceChangeE (plan_request typeName p1 p2 private)) = Ok res ->
        PlanResourceChange.Response.diagnostics res <> [] ->
        run rpc (planResourceChange this typeName priorState proposedNewState private)
        = ([exchange (PlanResourceChangeE (plan_request typeName p1 p2 private)) (Ok res)],
           Err (DiagnosticError (PlanResourceChange.Response.diagnostics res))))
  /\ (forall typeName schema config packed res,
        obj_get typeName (dataSourceSchemas this) = Some schema ->
        validateOrThrow schema (VObj config) = Ok tt ->
        pack (VObj (optionalsToNulls config schema)) = Ok packed ->
        rpc _ (ReadDataSourceE (data_request typeName packed)) = Ok res ->
        ReadDataSource.Response.diagnostics res <> [] ->
        run rpc (readDataSource this typeName config)
        = ([exchange (ReadDataSourceE (data_request typeName packed)) (Ok res)],
           Err (DiagnosticError (ReadDataSource.Response.diagnostics res))))
  /\ (forall typeName schema currentState private packed res,
        obj_get typeName (resourceStateSchemas this) = Some schema ->
        pack currentState = Ok packed ->
        rpc _ (ReadResourceE (read_request typeName packed private)) = Ok res ->
        ReadResource.Response.diagnostics res <> [] ->
        run rpc (readResource this typeName currentState private)
        = ([exchange (ReadResourceE (read_request typeName packed private)) (Ok res)],
           Err (DiagnosticError (ReadResource.Response.diagnostics res))))
  /\ (forall typeName version state res,
        rpc _ (UpgradeResourceStateE (upgrade_request typeName version state)) = Ok res ->
        UpgradeResourceState.Response.diagnostics res <> [] ->
        run rpc (upgradeResourceState typeName version state)
        = ([exchange (UpgradeResourceStateE (upgrade_request typeName version state))
              (Ok res)],
           Err (DiagnosticError (UpgradeResourceState.Response.diagnostics res))))
  /\ (forall typeName config packed res,
        pack config = Ok packed ->
        (forall req, rpc _ (ValidateDataSourceConfigE req) = Ok res) ->
        snd (run rpc (validateDataSourceConfig typeName config)) = Ok res)
  /\ (forall typeName config packed res,
        pack config = Ok packed ->
        (forall req, rpc _ (ValidateResourceTypeConfigE req) = Ok res) ->
        snd (run rpc (validateResourceTypeConfig typeName config)) = Ok res)
  /\ (forall res,
        rpc _ GetSchema = Ok res ->
        run rpc createProvider = ([exchange GetSchema (Ok res)], constructor res)).
Proof.
  split.
  { repeat split; intros.
    - apply guarded_surfaces, getSchema_guarded.
    - apply guarded_surfaces, applyResourceChange_guarded.
    - apply guarded_surfaces, configure_guarded.
    - apply guarded_surfaces, importResourceState_guarded.
    - apply guarded_surfaces, planResourceChange_guarded.
    - apply guarded_surfaces, readDataSource_guarded.
    - apply guarded_surfaces, readResource_guarded.
    - apply guarded_surfaces, upgradeResourceState_guarded. }
  split; [intros; now apply getSchema_diagnosed|].
  split; [intros; now apply applyResourceChange_diagnosed|].
  split.
  { intros config packed res Hv Hp Hr. split.
    - intros Hd. now apply prepare_diagnosed.
    - intros prepared answer Hd Hc Ha Hda. eapply configure_diagnosed; eassumption. }
  split; [intros; now apply importResourceState_diagnosed|].
  split; [intros; eapply planResourceChange_diagnosed; eassumption|].
  split; [intros; eapply readDataSource_diagnosed; eassumption|].
  split; [intros; eapply readResource_diagnosed; eassumption|].
  split; [intros; now apply upgradeResourceState_diagnosed|].
  split.
  { intros typeName config packed res H H0.
    unfold validateDataSourceConfig, toDynamic. rewrite H. simpl. now rewrite H0. }
  split.
  { intros typeName config packed res H H0.
    unfold validateResourceTypeConfig, toDynamic. rewrite H. simpl. now rewrite H0. }
  intros res Hr. now apply createProvider_unchecked.
Qed.

Lemma diagnostics_are_thrown_witness :
  let answer := {| GetProviderSchema.Response.provider :=
                     GetProviderSchema.Response.provider widget_schema;
                   GetProviderSchema.Response.resourceSchemas :=
                     GetProviderSchema.Response.resourceSchemas widget_schema;
                   GetProviderSchema.Response.dataSourceSchemas :=
                     GetProviderSchema.Response.dataSourceSchemas widget_schema;
                   GetProviderSchema.Response.diagnostics := [a_diagnostic] |} in
  snd (run (schema_answer answer) getSchema) = Err (DiagnosticError [a_diagnostic])
  /\ exists this, snd (run (schema_answer answer) createProvider) = Ok this.
Proof.
  intros answer.
  destruct (diagnostics_are_thrown (msgpack := Fixpack.codec)
              (validator := Structural.validator) widget_provider (schema_answer answer))
    as (_ & Hget & _ & _ & _ & _ & _ & _ & _ & _ & _ & Hcreate).
  split.
  - rewrite (Hget answer eq_refl); [reflexivity|discriminate].
  - rewrite (Hcreate answer eq_refl). cbn [snd].
    destruct (constructor answer) as [this|e] eqn:E; [|discriminate E].
    now exists this.
Defined.
